(** * Trade finder: lineup evaluation, trade validation and assignment

    A shallow embedding of [trade_analyzer.py], [trade_matcher.py] and
    [config.py], with the properties of the trade engine proved about it.

    Conventions of the embedding.
    - Python floats are read as exact rationals ([Q]); equality of numbers
      is [Qeq] ([==]).  [round(x, 1)] is rounding to one decimal, ties to
      even.
    - A [dict] whose iteration order the code depends on is an association
      list in insertion order ([Dict]); a Python [set] is a [gset]; the
      adjacency structure of a networkx graph is a [gmap] of [gmap]s.
    - The maximum-weight matching of networkx is a library primitive; it is
      a section variable, and may raise.
    - Exceptions are values of [Res].  Mutable roster objects live in an
      explicit heap when aliasing matters. *)

From Stdlib Require Import QArith Qround Qabs ZArith Lia Lqa.
From Stdlib Require Import Sorted Permutation DecimalString.
From stdpp Require Import base option list gmap sets strings.

Set Warnings "-clear-no-such-hyp".

(** ** Numbers *)

Module Num.

Definition Qleb (x y : Q) : bool := Qle_bool x y.
Definition Qltb (x y : Q) : bool := negb (Qle_bool y x).
Definition Qeqb (x y : Q) : bool := Qeq_bool x y.

(** Python's [max(a, b)]: the first argument unless the second is larger. *)
Definition py_max (a b : Q) : Q := if Qltb a b then b else a.

(** [round(q)] to the nearest integer, ties to the even neighbour. *)
Definition round_half_even (q : Q) : Z :=
  let f := Qfloor q in
  let r := (q - inject_Z f)%Q in
  match (r ?= 1 # 2)%Q with
  | Lt => f
  | Gt => (f + 1)%Z
  | Eq => if Z.even f then f else (f + 1)%Z
  end.

(** Python's [round(x, 1)]. *)
Definition round1 (x : Q) : Q := (inject_Z (round_half_even (x * 10)) / 10)%Q.

(** [sum(values)]: a left fold from 0. *)
Definition py_sum (l : list Q) : Q := fold_left Qplus l 0%Q.

End Num.

(** ** config.py *)

Module Config.

Definition LINEUP_CONFIG : list (string * nat) :=
  [("QB", 1); ("RB", 2); ("WR", 2); ("TE", 1); ("FLEX", 1)].

Definition FAIRNESS_THRESHOLD : Q := 12 # 100.
Definition MIN_STARTER_GAIN : Q := 3.
Definition MAX_TRADES_PER_WEEK : nat := 6.
Definition TOTAL_TEAMS : nat := 12.

End Config.

(** ** Insertion-ordered dictionaries *)

Definition Dict (V : Type) : Type := list (string * V).

Fixpoint dict_get {V} (d : Dict V) (k : string) : option V :=
  match d with
  | [] => None
  | (k', v) :: r => if String.eqb k' k then Some v else dict_get r k
  end.

(** [d.get(k, dflt)] *)
Definition dict_get_or {V} (d : Dict V) (k : string) (dflt : V) : V :=
  match dict_get d k with Some v => v | None => dflt end.

(** [d[k] = v]: an existing key keeps its place, a new key goes last. *)
Fixpoint dict_set {V} (d : Dict V) (k : string) (v : V) : Dict V :=
  match d with
  | [] => [(k, v)]
  | (k', v') :: r =>
      if String.eqb k' k then (k', v) :: r else (k', v') :: dict_set r k v
  end.

Definition dict_values {V} (d : Dict V) : list V := map snd d.
Definition dict_keys {V} (d : Dict V) : list string := map fst d.

(** ** Stable sorting

    [list.sort(key=...)], [sorted(..., reverse=True)] and pandas'
    multi-column [sort_values] are stable.  [stable_sort before] puts [x]
    in front of the first later element [y] with [before x y]. *)

Section StableSort.
Context {A : Type} (before : A -> A -> bool).

Fixpoint insert_by (x : A) (l : list A) : list A :=
  match l with
  | [] => [x]
  | y :: r => if before x y then x :: y :: r else y :: insert_by x r
  end.

Fixpoint stable_sort (l : list A) : list A :=
  match l with
  | [] => []
  | x :: r => insert_by x (stable_sort r)
  end.

End StableSort.

(** ** Data model *)

(** A row of the [player_values] DataFrame. *)
Record PlayerValue := mkPlayerValue {
  pv_sleeper_id : string;
  pv_player : string;
  pv_position : string;
  pv_value : Q
}.

Definition DataFrame := list PlayerValue.

(** A team roster as [calculate_starter_values] reads it: the ['players']
    entry, a list of player identifiers (absent reads as the empty list). *)
Record TeamRoster := mkTeamRoster { roster_players : list string }.

Definition str_in (s : string) (l : list string) : bool :=
  existsb (String.eqb s) l.

(** ** Lineup evaluator *)

Module Lineup.
Import Num Config.

Definition POSITIONS6 : list string := ["QB"; "RB"; "WR"; "TE"; "FLEX"; "TOTAL"].

(** [{pos: 0.0 for pos in ['QB', 'RB', 'WR', 'TE', 'FLEX', 'TOTAL']}] *)
Definition zero_values : Dict Q :=
  fold_left (fun d pos => dict_set d pos 0%Q) POSITIONS6 [].

(** [sort_values(['position', 'value'], ascending=[True, False])] *)
Definition row_before (x y : PlayerValue) : bool :=
  match String.compare (pv_position x) (pv_position y) with
  | Lt => true
  | Gt => false
  | Eq => Qleb (pv_value y) (pv_value x)
  end.

(** [sorted(flex_eligible, key=lambda x: x['value'], reverse=True)] *)
Definition value_desc (x y : PlayerValue) : bool :=
  Qleb (pv_value y) (pv_value x).

(** The state threaded through the loop over the four positions. *)
Record LoopState := mkLoopState {
  ls_values : Dict Q;
  ls_used : list string;
  ls_flex : list PlayerValue
}.

(** One turn of the loop over QB, RB, WR, TE.  [LINEUP_CONFIG[position]]
    is defined for each of them. *)
Definition position_step (team_players : DataFrame) (st : LoopState)
    (position : string) : LoopState :=
  let pos_players :=
    List.filter (fun r => String.eqb (pv_position r) position) team_players in
  let required_starters := dict_get_or LINEUP_CONFIG position 0 in
  let starters := firstn required_starters pos_players in
  let values' := dict_set (ls_values st) position (py_sum (map pv_value starters)) in
  let used' := ls_used st ++ map pv_sleeper_id starters in
  if negb (String.eqb position "QB") then
    mkLoopState values' used' (ls_flex st ++ skipn required_starters pos_players)
  else
    mkLoopState values' used' (ls_flex st).

Definition calculate_starter_values (team_roster : TeamRoster)
    (player_values : DataFrame) : Dict Q :=
  let player_ids := roster_players team_roster in
  match player_ids with
  | [] => zero_values
  | _ :: _ =>
    let team_players :=
      List.filter (fun r => str_in (pv_sleeper_id r) player_ids) player_values in
    match team_players with
    | [] => zero_values
    | _ :: _ =>
      let team_players := stable_sort row_before team_players in
      let init :=
        mkLoopState [("QB", 0%Q); ("RB", 0%Q); ("WR", 0%Q); ("TE", 0%Q); ("FLEX", 0%Q)] [] [] in
      let st := fold_left (position_step team_players) ["QB"; "RB"; "WR"; "TE"] init in
      let starter_values :=
        match stable_sort value_desc (ls_flex st) with
        | [] => ls_values st
        | best_flex :: _ => dict_set (ls_values st) "FLEX" (pv_value best_flex)
        end in
      dict_set starter_values "TOTAL" (py_sum (dict_values starter_values))
    end
  end.

End Lineup.

(** ** Needs/surplus classifier *)

Module Classifier.
Import Num.

Record NeedsSurplus := mkNeedsSurplus {
  needs : list string;
  surplus : list string;
  deltas : Dict Q
}.

Definition tradeable_positions : list string := ["QB"; "RB"; "WR"; "TE"; "FLEX"].

(** One turn of the loop over the tradeable positions; the accumulator is
    the pair [(needs, surplus)]. *)
Definition classify_step (deltas : Dict Q) (acc : list string * list string)
    (position : string) : list string * list string :=
  let delta := dict_get_or deltas position 0%Q in
  if Qltb delta (-2) then (fst acc ++ [position], snd acc)
  else if Qltb 2 delta then (fst acc, snd acc ++ [position])
  else acc.

(** [needs.sort(key=lambda pos: deltas.get(pos, 0.0))] *)
Definition delta_asc (deltas : Dict Q) (p q : string) : bool :=
  Qleb (dict_get_or deltas p 0%Q) (dict_get_or deltas q 0%Q).

(** [surplus.sort(key=lambda pos: deltas.get(pos, 0.0), reverse=True)] *)
Definition delta_desc (deltas : Dict Q) (p q : string) : bool :=
  Qleb (dict_get_or deltas q 0%Q) (dict_get_or deltas p 0%Q).

(** The body of the loop over teams. *)
Definition team_needs_surplus (deltas : Dict Q) : NeedsSurplus :=
  let acc := fold_left (classify_step deltas) tradeable_positions ([], []) in
  mkNeedsSurplus (stable_sort (delta_asc deltas) (fst acc))
                 (stable_sort (delta_desc deltas) (snd acc))
                 deltas.

Definition identify_needs_surplus (team_deltas : Dict (Dict Q)) : Dict NeedsSurplus :=
  fold_left (fun acc item => dict_set acc (fst item) (team_needs_surplus (snd item)))
            team_deltas [].

End Classifier.

(** ** Trades *)

(** A player record as the trade code reads it.  ['sleeper_id'] is set on
    every record built by [join_player_data]; the empty string is the falsy
    identifier.  ['position'] and ['value'] are read with [.get]. *)
Record Player := mkPlayer {
  sleeper_id : string;
  position : option string;
  value : option Q
}.

(** A trade dictionary: the candidate's keys, and the keys that validation
    adds ([None] while absent). *)
Record Trade := mkTrade {
  ttype : option string;
  team_a : string;
  team_b : string;
  team_a_sends : list Player;
  team_b_sends : list Player;
  positions_addressed : Dict (list string);
  team_a_gain : option Q;
  team_b_gain : option Q;
  value_delta_pct : option Q;
  trade_score : option Q;
  is_fair : option bool
}.

(** An entry of [enriched_data]: the team's player records. *)
Record TeamData := mkTeamData { td_players : list Player }.

(** ** Candidate trade generator

    The [player_values] and [player_lookup] arguments of the generator
    functions are not read by their bodies and are left out. *)

Module Generator.
Import Num Classifier.

Definition player_value_desc (x y : Player) : bool :=
  Qleb (default 0%Q (value y)) (default 0%Q (value x)).

Definition has_position (pos : string) (p : Player) : bool :=
  match position p with
  | Some s => String.eqb s pos
  | None => false
  end.

Definition _get_team_players_by_position (team_name : string)
    (enriched_data : option (Dict TeamData)) : Dict (list Player) :=
  match enriched_data with
  | Some (e :: es) =>
      match dict_get (e :: es) team_name with
      | Some team =>
          let team_roster := td_players team in
          fold_left (fun acc pos =>
              dict_set acc pos
                (stable_sort player_value_desc (List.filter (has_position pos) team_roster)))
            ["QB"; "RB"; "WR"; "TE"] []
      | None => fold_left (fun acc pos => dict_set acc pos []) ["QB"; "RB"; "WR"; "TE"] []
      end
  | _ => fold_left (fun acc pos => dict_set acc pos []) ["QB"; "RB"; "WR"; "TE"] []
  end.

Definition candidate (type : string) (team_a team_b : string)
    (a_sends b_sends : list Player) (a_gets b_gets : list string) : Trade :=
  mkTrade (Some type) team_a team_b a_sends b_sends
          (dict_set (dict_set [] team_a a_gets) team_b b_gets)
          None None None None None.

Definition _generate_1_for_1_trades (team_a : string) (team_a_players : Dict (list Player))
    (a_positions : gset string) (team_b : string) (team_b_players : Dict (list Player))
    (b_positions : gset string) : list Trade :=
  flat_map (fun a_pos =>
    flat_map (fun b_pos =>
      let a_players := firstn 3 (dict_get_or team_a_players a_pos []) in
      let b_players := firstn 3 (dict_get_or team_b_players b_pos []) in
      flat_map (fun a_player =>
        map (fun b_player =>
          candidate "1-for-1" team_a team_b [a_player] [b_player] [b_pos] [a_pos])
          b_players)
        a_players)
      (elements b_positions))
    (elements a_positions).

(** [for i, x in enumerate(l): for y in l[i:]]: each element with the
    suffix that starts at it. *)
Fixpoint with_suffix {A} (l : list A) : list (A * list A) :=
  match l with
  | [] => []
  | x :: r => (x, x :: r) :: with_suffix r
  end.

Definition second_pool (players : Dict (list Player)) (pos1 pos2 : string) : list Player :=
  if negb (String.eqb pos2 pos1) then firstn 2 (dict_get_or players pos2 [])
  else firstn 2 (skipn 1 (dict_get_or players pos2 [])).

Definition _generate_2_for_2_trades (team_a : string) (team_a_players : Dict (list Player))
    (a_positions : gset string) (team_b : string) (team_b_players : Dict (list Player))
    (b_positions : gset string) : list Trade :=
  let a_positions_list := elements a_positions in
  let b_positions_list := elements b_positions in
  flat_map (fun '(a_pos1, a_rest) =>
    flat_map (fun a_pos2 =>
      flat_map (fun '(b_pos1, b_rest) =>
        flat_map (fun b_pos2 =>
          let a_players1 := firstn 2 (dict_get_or team_a_players a_pos1 []) in
          let a_players2 := second_pool team_a_players a_pos1 a_pos2 in
          let b_players1 := firstn 2 (dict_get_or team_b_players b_pos1 []) in
          let b_players2 := second_pool team_b_players b_pos1 b_pos2 in
          flat_map (fun a_p1 =>
            flat_map (fun a_p2 =>
              if String.eqb (sleeper_id a_p1) (sleeper_id a_p2) then []
              else
                flat_map (fun b_p1 =>
                  flat_map (fun b_p2 =>
                    if String.eqb (sleeper_id b_p1) (sleeper_id b_p2) then []
                    else
                      [candidate "2-for-2" team_a team_b [a_p1; a_p2] [b_p1; b_p2]
                                 [b_pos1; b_pos2] [a_pos1; a_pos2]])
                    b_players2)
                  b_players1)
              a_players2)
            a_players1)
          b_rest)
        (with_suffix b_positions_list))
      a_rest)
    (with_suffix a_positions_list).

Definition _find_complementary_trades (team_a : string) (team_a_data : NeedsSurplus)
    (team_b : string) (team_b_data : NeedsSurplus)
    (enriched_data : option (Dict TeamData)) : list Trade :=
  let a_surplus : gset string := list_to_set (surplus team_a_data) in
  let b_needs : gset string := list_to_set (needs team_b_data) in
  let a_to_b_positions := a_surplus ∩ b_needs in
  let b_surplus : gset string := list_to_set (surplus team_b_data) in
  let a_needs : gset string := list_to_set (needs team_a_data) in
  let b_to_a_positions := b_surplus ∩ a_needs in
  if bool_decide (a_to_b_positions = ∅) || bool_decide (b_to_a_positions = ∅) then []
  else
    let team_a_players := _get_team_players_by_position team_a enriched_data in
    let team_b_players := _get_team_players_by_position team_b enriched_data in
    _generate_1_for_1_trades team_a team_a_players a_to_b_positions
                             team_b team_b_players b_to_a_positions
    ++ _generate_2_for_2_trades team_a team_a_players a_to_b_positions
                                team_b team_b_players b_to_a_positions.

End Generator.

(** ** Trade validator and scorer *)

Module Validator.
Import Num Config.

Definition score_trade (trade : Trade) (team_a_gains team_b_gains value_delta_pct : Q) : Q :=
  let base_score := (team_a_gains + team_b_gains)%Q in
  let abs_delta_pct := Qabs value_delta_pct in
  let fairness_penalty :=
    if Qltb FAIRNESS_THRESHOLD abs_delta_pct
    then ((abs_delta_pct - FAIRNESS_THRESHOLD) * 50)%Q
    else (abs_delta_pct * 10)%Q in
  let risk_penalty :=
    if Qltb team_a_gains MIN_STARTER_GAIN || Qltb team_b_gains MIN_STARTER_GAIN
    then (0 + 20)%Q else 0%Q in
  let total_players := (length (team_a_sends trade) + length (team_b_sends trade))%nat in
  let risk_penalty :=
    if (4 <? total_players)%nat
    then (risk_penalty + inject_Z (Z.of_nat (total_players - 4)) * 5)%Q
    else risk_penalty in
  let format_bonus :=
    match ttype trade with
    | Some t => if String.eqb t "2-for-2" then 5%Q else 0%Q
    | None => 0%Q
    end in
  let final_score := (base_score + format_bonus - fairness_penalty - risk_penalty)%Q in
  py_max 0 final_score.

(** [player_values[player_values['sleeper_id'] == sleeper_id]] *)
Definition rows_with_id (player_values : DataFrame) (id : string) : list PlayerValue :=
  List.filter (fun r => String.eqb (pv_sleeper_id r) id) player_values.

(** One turn of the loop of [_calculate_trade_side_value]. *)
Definition side_value_step (player_values : DataFrame) (total_value : Q) (player : Player) : Q :=
  if negb (String.eqb (sleeper_id player) "") then
    match rows_with_id player_values (sleeper_id player) with
    | row :: _ => (total_value + pv_value row)%Q
    | [] => (total_value + default 0%Q (value player))%Q
    end
  else (total_value + default 0%Q (value player))%Q.

Definition _calculate_trade_side_value (players : list Player) (player_values : DataFrame) : Q :=
  match players with
  | [] => 0%Q
  | _ :: _ => fold_left (side_value_step player_values) players 0%Q
  end.

Definition check_fairness_constraint (trade : Trade) (player_values : DataFrame) : bool * Q :=
  let team_a_value := _calculate_trade_side_value (team_a_sends trade) player_values in
  let team_b_value := _calculate_trade_side_value (team_b_sends trade) player_values in
  if Qeqb team_a_value 0 || Qeqb team_b_value 0 then (false, 100%Q)
  else
    let higher_value := py_max team_a_value team_b_value in
    let value_difference := Qabs (team_a_value - team_b_value) in
    let value_delta_pct := (value_difference / higher_value * 100)%Q in
    let is_fair := Qleb value_delta_pct (FAIRNESS_THRESHOLD * 100) in
    (is_fair, round1 value_delta_pct).

End Validator.

(** ** Exceptions *)

Inductive exn := KeyError | TypeError | AttributeError | LibraryError.

Inductive Res (A : Type) : Type :=
| Ok (a : A)
| Raise (e : exn).

Arguments Ok {A} a.
Arguments Raise {A} e.

(** ** Roster objects on a heap

    [calculate_starter_impact] copies and mutates roster dictionaries and
    their ['players'] lists.  Both kinds of object live in a store, at
    addresses; a roster dictionary holds the address of its players list,
    so that a shallow copy shares the list with the original. *)

Module Heap.
Import Num.

Definition loc := positive.

(** A roster dictionary: the keys the league data gives it.  An absent key
    is [None]; the dictionary is empty when all are absent. *)
Record RosterObj := mkRosterObj {
  ro_roster_id : option Z;
  ro_owner_id : option string;
  ro_players : option loc
}.

Record Store := mkStore {
  dicts : gmap loc RosterObj;
  lists : gmap loc (list string)
}.

(** Computations that read and write the store and may raise. *)
Definition M (A : Type) : Type := Store -> Res (A * Store).

Definition ret {A} (a : A) : M A := fun s => Ok (a, s).

Definition bind {A B} (m : M A) (k : A -> M B) : M B :=
  fun s => match m s with
           | Ok (a, s') => k a s'
           | Raise e => Raise e
           end.

Definition raise {A} (e : exn) : M A := fun _ => Raise e.

Notation "'let*' x ':=' m 'in' k" := (bind m (fun x => k))
  (at level 10, x name, m at level 100, k at level 200).

(** [for x in l: body(x)] *)
Fixpoint for_each {A} (l : list A) (body : A -> M unit) : M unit :=
  match l with
  | [] => ret tt
  | x :: r => let* _ := body x in for_each r body
  end.

Definition new_dict (o : RosterObj) : M loc :=
  fun s => let l := fresh (dom (dicts s)) in
           Ok (l, mkStore (<[l := o]> (dicts s)) (lists s)).

Definition new_list (items : list string) : M loc :=
  fun s => let l := fresh (dom (lists s)) in
           Ok (l, mkStore (dicts s) (<[l := items]> (lists s))).

Definition read_dict (r : loc) : M RosterObj :=
  fun s => match dicts s !! r with
           | Some o => Ok (o, s)
           | None => Raise TypeError
           end.

Definition read_list (l : loc) : M (list string) :=
  fun s => match lists s !! l with
           | Some items => Ok (items, s)
           | None => Raise TypeError
           end.

Definition write_list (l : loc) (items : list string) : M unit :=
  fun s => match lists s !! l with
           | Some _ => Ok (tt, mkStore (dicts s) (<[l := items]> (lists s)))
           | None => Raise TypeError
           end.

(** [roster.copy()]: a new dictionary with the same entries. *)
Definition dict_copy (r : loc) : M loc :=
  let* o := read_dict r in new_dict o.

(** [roster.get('players', [])]: the list the dictionary holds, or a new
    empty list. *)
Definition get_players (r : loc) : M loc :=
  let* o := read_dict r in
  match ro_players o with
  | Some l => ret l
  | None => new_list []
  end.

(** [l.copy()] *)
Definition list_copy (l : loc) : M loc :=
  let* items := read_list l in new_list items.

(** [l.remove(x)]: drops the first occurrence, in place. *)
Fixpoint remove_first (x : string) (items : list string) : list string :=
  match items with
  | [] => []
  | y :: r => if String.eqb y x then r else y :: remove_first x r
  end.

Definition list_remove (l : loc) (x : string) : M unit :=
  let* items := read_list l in write_list l (remove_first x items).

(** [l.append(x)], in place. *)
Definition list_append (l : loc) (x : string) : M unit :=
  let* items := read_list l in write_list l (items ++ [x]).

(** [x in l] *)
Definition list_contains (l : loc) (x : string) : M bool :=
  let* items := read_list l in ret (str_in x items).

(** [roster['players'] = l] *)
Definition set_players (r l : loc) : M unit :=
  fun s => match dicts s !! r with
           | Some o =>
               Ok (tt, mkStore (<[r := mkRosterObj (ro_roster_id o) (ro_owner_id o) (Some l)]>
                                  (dicts s)) (lists s))
           | None => Raise TypeError
           end.

(** [not roster] *)
Definition dict_is_empty (r : loc) : M bool :=
  let* o := read_dict r in
  ret (match ro_roster_id o, ro_owner_id o, ro_players o with
       | None, None, None => true
       | _, _, _ => false
       end).

(** The roster as [calculate_starter_values] reads it. *)
Definition load_roster (r : loc) : M TeamRoster :=
  let* o := read_dict r in
  match ro_players o with
  | Some l => let* items := read_list l in ret (mkTeamRoster items)
  | None => ret (mkTeamRoster [])
  end.

(** [calculate_starter_values] on a roster object: it only reads. *)
Definition calculate_starter_values (team_roster : loc) (player_values : DataFrame)
    : M (Dict Q) :=
  let* roster := load_roster team_roster in
  ret (Lineup.calculate_starter_values roster player_values).

Definition _simulate_trade_roster (roster : loc) (removes adds : list Player) : M loc :=
  let* updated_roster := dict_copy roster in
  let* players := get_players updated_roster in
  let* player_ids := list_copy players in
  let* _ := for_each removes (fun player =>
      let sleeper_id := sleeper_id player in
      if negb (String.eqb sleeper_id "") then
        let* present := list_contains player_ids sleeper_id in
        if present then list_remove player_ids sleeper_id else ret tt
      else ret tt) in
  let* _ := for_each adds (fun player =>
      let sleeper_id := sleeper_id player in
      if negb (String.eqb sleeper_id "") then list_append player_ids sleeper_id
      else ret tt) in
  let* _ := set_players updated_roster player_ids in
  ret updated_roster.

Definition calculate_starter_impact (trade : Trade) (team_rosters : Dict loc)
    (player_values : DataFrame) : M (Q * Q) :=
  match dict_get team_rosters (team_a trade), dict_get team_rosters (team_b trade) with
  | Some team_a_roster, Some team_b_roster =>
      let* a_empty := dict_is_empty team_a_roster in
      let* b_empty := dict_is_empty team_b_roster in
      if a_empty || b_empty then ret (0%Q, 0%Q)
      else
        let* team_a_current := calculate_starter_values team_a_roster player_values in
        let* team_b_current := calculate_starter_values team_b_roster player_values in
        let* team_a_copy := dict_copy team_a_roster in
        let* team_a_new_roster :=
          _simulate_trade_roster team_a_copy (team_a_sends trade) (team_b_sends trade) in
        let* team_b_copy := dict_copy team_b_roster in
        let* team_b_new_roster :=
          _simulate_trade_roster team_b_copy (team_b_sends trade) (team_a_sends trade) in
        let* team_a_new := calculate_starter_values team_a_new_roster player_values in
        let* team_b_new := calculate_starter_values team_b_new_roster player_values in
        let team_a_gain :=
          (dict_get_or team_a_new "TOTAL" 0 - dict_get_or team_a_current "TOTAL" 0)%Q in
        let team_b_gain :=
          (dict_get_or team_b_new "TOTAL" 0 - dict_get_or team_b_current "TOTAL" 0)%Q in
        ret (round1 team_a_gain, round1 team_b_gain)
  | _, _ => ret (0%Q, 0%Q)
  end.

(** Every roster of [team_rosters] is a dictionary of the store, and its
    players entry, when present, is a list of the store. *)
Definition roster_ok (s : Store) (r : loc) : bool :=
  match dicts s !! r with
  | Some o =>
      match ro_players o with
      | Some l => bool_decide (is_Some (lists s !! l))
      | None => true
      end
  | None => false
  end.

Definition rosters_ok (s : Store) (team_rosters : Dict loc) : bool :=
  forallb (fun kv => roster_ok s (snd kv)) team_rosters.

(** The objects of [s] are objects of [s'], unchanged. *)
Definition extends (s s' : Store) : Prop :=
  dicts s ⊆ dicts s' /\ lists s ⊆ lists s'.

(** [r] is a roster dictionary of [s] whose players entry, if any, is a
    list of [s]. *)
Definition live (s : Store) (r : loc) : Prop :=
  exists o, dicts s !! r = Some o /\
            forall l, ro_players o = Some l -> is_Some (lists s !! l).

End Heap.

(** ** Optimal assignment selector

    Of what the selector prints, only the messages of
    [validate_matching_constraints] are kept. *)

Module Matcher.
Import Num Config.

(** The attributes [build_trade_graph] puts on an edge. *)
Record EdgeData := mkEdgeData {
  weight : Q;
  trade_id : nat;
  trade_data : Trade
}.

(** The adjacency structure of an undirected networkx graph: its keys are
    the nodes, [G !! u] holds the neighbours of [u] with the edge data. *)
Abbreviation Graph := (gmap string (gmap string EdgeData)).

Definition add_node (G : Graph) (n : string) : Graph :=
  match G !! n with
  | Some _ => G
  | None => <[n := ∅]> G
  end.

Definition add_nodes_from (G : Graph) (nodes : gset string) : Graph :=
  fold_left add_node (elements nodes) G.

(** [G.add_edge(u, v, **attr)] with all three attributes given: the data
    of an existing edge between [u] and [v] is replaced. *)
Definition add_edge (G : Graph) (u v : string) (d : EdgeData) : Graph :=
  let G := add_node (add_node G u) v in
  let G := <[u := <[v := d]> (default ∅ (G !! u))]> G in
  <[v := <[u := d]> (default ∅ (G !! v))]> G.

(** [G[u][v]] *)
Definition edge (G : Graph) (u v : string) : Res EdgeData :=
  match G !! u with
  | Some adj => match adj !! v with
                | Some d => Ok d
                | None => Raise KeyError
                end
  | None => Raise KeyError
  end.

Fixpoint add_trade_edges (G : Graph) (i : nat) (trades : list Trade) : Graph :=
  match trades with
  | [] => G
  | trade :: rest =>
      let weight := default 0%Q (trade_score trade) in
      add_trade_edges
        (add_edge G (team_a trade) (team_b trade) (mkEdgeData weight i trade))
        (S i) rest
  end.

Definition build_trade_graph (valid_trades : list Trade) : Graph :=
  let teams : gset string :=
    fold_left (fun teams trade => teams ∪ {[team_a trade]} ∪ {[team_b trade]})
              valid_trades ∅ in
  let G := add_nodes_from ∅ teams in
  add_trade_edges G 0 valid_trades.

(** The trades carried by the edges of a matching, in its iteration
    order; a pair that is not an edge raises [KeyError]. *)
Fixpoint extract_trades (G : Graph) (matching : list (string * string))
    : Res (list Trade) :=
  match matching with
  | [] => Ok []
  | (team_a, team_b) :: rest =>
      match edge G team_a team_b with
      | Ok edge_data =>
          match extract_trades G rest with
          | Ok selected => Ok (trade_data edge_data :: selected)
          | Raise e => Raise e
          end
      | Raise e => Raise e
      end
  end.

(** Python's truth value of an optional list. *)
Definition truthy {A} (r : option (list A)) : bool :=
  match r with
  | Some (_ :: _) => true
  | _ => false
  end.

Definition _widen_fairness_threshold (trades : list Trade) (new_threshold : Q) : list Trade :=
  List.filter (fun trade =>
    Qleb (default 0%Q (value_delta_pct trade)) (new_threshold * 100)) trades.

Definition _lower_starter_gain_threshold (trades : list Trade) (new_threshold : Q) : list Trade :=
  List.filter (fun trade =>
    Qleb new_threshold (default 0%Q (team_a_gain trade))
    && Qleb new_threshold (default 0%Q (team_b_gain trade))) trades.

Definition _allow_uneven_trades (trades : list Trade) (team_rosters : Dict TeamData)
    (player_values : DataFrame) : list Trade := trades.

(** What [validate_matching_constraints] prints. *)
Inductive Message :=
| ConstraintViolation
| WarnTradeCount (found expected : nat)
| WarnCoverage (covering expected : nat).

(** The loop of [validate_matching_constraints]: the teams seen, or [None]
    at the first trade with a team already seen. *)
Fixpoint collect_teams (teams_involved : gset string) (selected_trades : list Trade)
    : option (gset string) :=
  match selected_trades with
  | [] => Some teams_involved
  | trade :: rest =>
      if bool_decide (team_a trade ∈ teams_involved)
         || bool_decide (team_b trade ∈ teams_involved)
      then None
      else collect_teams (teams_involved ∪ {[team_a trade]} ∪ {[team_b trade]}) rest
  end.

Definition validate_matching_constraints (selected_trades : list Trade)
    : bool * list Message :=
  match selected_trades with
  | [] => (false, [])
  | _ :: _ =>
      match collect_teams ∅ selected_trades with
      | None => (false, [ConstraintViolation])
      | Some teams_involved =>
          let expected_trades := MAX_TRADES_PER_WEEK in
          let w1 :=
            if negb (length selected_trades =? expected_trades)%nat
            then [WarnTradeCount (length selected_trades) expected_trades] else [] in
          let expected_teams := TOTAL_TEAMS in
          let w2 :=
            if negb (size teams_involved =? expected_teams)%nat
            then [WarnCoverage (size teams_involved) expected_teams] else [] in
          (true, w1 ++ w2)
      end
  end.

(** Every edge carries a trade of the list, between the edge's ends. *)
Definition edge_sound (ts : list Trade) (G : Graph) : Prop :=
  forall u v d, edge G u v = Ok d ->
    In (trade_data d) ts /\
    ((team_a (trade_data d) = u /\ team_b (trade_data d) = v) \/
     (team_a (trade_data d) = v /\ team_b (trade_data d) = u)).

(** The team identifiers of a selection, with multiplicity. *)
Definition teams_of (selected_trades : list Trade) : list string :=
  flat_map (fun trade => [team_a trade; team_b trade]) selected_trades.

(** Some team identifier occurs in two different trades of the list. *)
Definition shares_team (selected_trades : list Trade) : Prop :=
  exists l1 t1 l2 t2 l3,
    selected_trades = l1 ++ t1 :: l2 ++ t2 :: l3 /\
    (team_a t1 = team_a t2 \/ team_a t1 = team_b t2 \/
     team_b t1 = team_a t2 \/ team_b t1 = team_b t2).

Section WithMatching.

(** [nx.algorithms.matching.max_weight_matching(G, maxcardinality)]: the
    matched pairs in the order the code iterates over them. *)
Variable max_weight_matching : Graph -> bool -> Res (list (string * string)).

(** The body of the [try] block of [find_perfect_matching]. *)
Definition find_perfect_matching_body (G : Graph) (target_teams : nat)
    : Res (option (list Trade)) :=
  if negb (size G =? target_teams)%nat then Ok None
  else if negb (size G mod 2 =? 0)%nat then Ok None
  else
    match max_weight_matching G true with
    | Raise e => Raise e
    | Ok matching =>
        if negb (length matching =? target_teams / 2)%nat then Ok None
        else
          match extract_trades G matching with
          | Ok selected_trades => Ok (Some selected_trades)
          | Raise e => Raise e
          end
    end.

(** [try: ... except Exception: return None] *)
Definition find_perfect_matching (G : Graph) (target_teams : nat)
    : Res (option (list Trade)) :=
  match find_perfect_matching_body G target_teams with
  | Ok r => Ok r
  | Raise _ => Ok None
  end.

Definition _find_best_partial_matching (trades : list Trade) : Res (option (list Trade)) :=
  match trades with
  | [] => Ok None
  | _ :: _ =>
      let G := build_trade_graph trades in
      match max_weight_matching G false with
      | Raise e => Raise e
      | Ok [] => Ok None
      | Ok matching =>
          match extract_trades G matching with
          | Ok selected_trades => Ok (Some selected_trades)
          | Raise e => Raise e
          end
      end
  end.

(** [if relaxed_trades: G = build_trade_graph(relaxed_trades);
    result = find_perfect_matching(G)], with [None] when skipped. *)
Definition retry_perfect (relaxed_trades : list Trade) : Res (option (list Trade)) :=
  match relaxed_trades with
  | [] => Ok None
  | _ :: _ => find_perfect_matching (build_trade_graph relaxed_trades) TOTAL_TEAMS
  end.

Definition relax_constraints_and_retry (valid_trades : list Trade)
    (team_rosters : Dict TeamData) (player_values : DataFrame)
    : Res (option (list Trade)) :=
  match retry_perfect (_widen_fairness_threshold valid_trades (15 # 100)) with
  | Raise e => Raise e
  | Ok result =>
  if truthy result then Ok result else
  match retry_perfect (_widen_fairness_threshold valid_trades (20 # 100)) with
  | Raise e => Raise e
  | Ok result =>
  if truthy result then Ok result else
  match retry_perfect (_lower_starter_gain_threshold valid_trades 1) with
  | Raise e => Raise e
  | Ok result =>
  if truthy result then Ok result else
  match retry_perfect (_allow_uneven_trades valid_trades team_rosters player_values) with
  | Raise e => Raise e
  | Ok result =>
  if truthy result then Ok result else
  match _find_best_partial_matching valid_trades with
  | Raise e => Raise e
  | Ok partial_result =>
  if truthy partial_result then Ok partial_result else Ok None
  end end end end end.

(** Steps 1 and 2 of [select_optimal_trades]: the selection before it is
    validated. *)
Definition candidate_selection (valid_trades : list Trade)
    (team_rosters : Dict TeamData) (player_values : DataFrame)
    : Res (option (list Trade)) :=
  match find_perfect_matching (build_trade_graph valid_trades) TOTAL_TEAMS with
  | Raise e => Raise e
  | Ok None => relax_constraints_and_retry valid_trades team_rosters player_values
  | Ok (Some selected_trades) => Ok (Some selected_trades)
  end.

(** Step 3 of [select_optimal_trades]. *)
Definition validated_selection (selected_trades : option (list Trade)) : list Trade :=
  match selected_trades with
  | Some (t :: ts) =>
      if fst (validate_matching_constraints (t :: ts)) then t :: ts else []
  | _ => []
  end.

Definition select_optimal_trades (valid_trades : list Trade)
    (team_rosters : Dict TeamData) (player_values : DataFrame) : Res (list Trade) :=
  match valid_trades with
  | [] => Ok []
  | _ :: _ =>
      match candidate_selection valid_trades team_rosters player_values with
      | Raise e => Raise e
      | Ok selected_trades => Ok (validated_selection selected_trades)
      end
  end.

End WithMatching.

End Matcher.

(** ** The claimed scoring rule and side value

    Two definitions that follow the specification's wording, for comparison
    with [Validator.score_trade] and [Validator._calculate_trade_side_value]. *)

Module Claimed.
Import Num Config.

(** Fairness penalty with the threshold read in percentage points:
    [10 * pct] within 12 percent, [50 * (pct - 12)] above. *)
Definition fairness_penalty (value_delta_pct : Q) : Q :=
  if Qleb value_delta_pct 12 then (10 * value_delta_pct)%Q
  else (50 * (value_delta_pct - 12))%Q.

Definition risk_penalty (trade : Trade) (team_a_gains team_b_gains : Q) : Q :=
  ((if Qltb team_a_gains MIN_STARTER_GAIN || Qltb team_b_gains MIN_STARTER_GAIN
    then 20 else 0)
   + 5 * inject_Z (Z.of_nat (length (team_a_sends trade) + length (team_b_sends trade) - 4)))%Q.

Definition trade_score (trade : Trade) (team_a_gains team_b_gains value_delta_pct : Q) : Q :=
  let base := (team_a_gains + team_b_gains)%Q in
  let bonus := if bool_decide (ttype trade = Some "2-for-2") then 5%Q else 0%Q in
  py_max 0 (base + bonus
            - (fairness_penalty value_delta_pct
               + risk_penalty trade team_a_gains team_b_gains))%Q.

(** The value of a player: the valuation index first, the value embedded on
    the record when the identifier is not in the index. *)
Definition indexed_value (player_values : DataFrame) (player : Player) : Q :=
  match List.find (fun r => String.eqb (pv_sleeper_id r) (sleeper_id player)) player_values with
  | Some row => pv_value row
  | None => default 0%Q (value player)
  end.

(** A team's players at a position, best first: the records of its
    enriched roster with that position, by descending value.  Only QB, RB,
    WR and TE hold players. *)
Definition players_at (enriched_data : option (Dict TeamData)) (team : string)
    (pos : string) : list Player :=
  match enriched_data with
  | Some d =>
      match dict_get d team with
      | Some td =>
          if str_in pos ["QB"; "RB"; "WR"; "TE"]
          then stable_sort Generator.player_value_desc
                 (List.filter (Generator.has_position pos) (td_players td))
          else []
      | None => []
      end
  | None => []
  end.


End Claimed.

(** ** The fairness test of the validation loop *)

Module Validation.


End Validation.

(** ** Example data *)

Module Examples.
Import Num Classifier Generator.

(** The valuation table of the analyzer's unit tests. *)
Definition sample_player_values : DataFrame :=
  [ mkPlayerValue "421" "Josh Allen" "QB" (452 # 10);
    mkPlayerValue "4046" "Christian McCaffrey" "RB" (528 # 10);
    mkPlayerValue "6794" "CeeDee Lamb" "WR" (481 # 10);
    mkPlayerValue "4035" "Travis Kelce" "TE" (357 # 10);
    mkPlayerValue "515" "Derrick Henry" "RB" (389 # 10);
    mkPlayerValue "858" "Tyreek Hill" "WR" (463 # 10) ].

Definition roster_no_match : TeamRoster := mkTeamRoster ["999"; "998"; "997"].

Definition sample_team_roster : TeamRoster :=
  mkTeamRoster ["421"; "4046"; "6794"; "4035"; "515"].

(** Deltas of two teams; team A is strong at QB and WR and weak at RB. *)
Definition deltas_a : Dict Q :=
  [("QB", 8); ("RB", -6); ("WR", 5); ("TE", 2); ("FLEX", -2); ("TOTAL", 7)]%Q.
Definition deltas_b : Dict Q :=
  [("QB", -5); ("RB", 7); ("WR", 0); ("TE", 0); ("FLEX", 1); ("TOTAL", 3)]%Q.
Definition sample_team_deltas : Dict (Dict Q) :=
  [("Team A", deltas_a); ("Team B", deltas_b)].

Definition needs_a : NeedsSurplus := team_needs_surplus deltas_a.
Definition needs_b : NeedsSurplus := team_needs_surplus deltas_b.

Definition qb1 : Player := mkPlayer "421" (Some "QB") (Some (452 # 10)).
Definition wr1 : Player := mkPlayer "6794" (Some "WR") (Some (481 # 10)).
Definition rb1 : Player := mkPlayer "4046" (Some "RB") (Some (528 # 10)).

Definition sample_enriched : option (Dict TeamData) :=
  Some [("Team A", mkTeamData [qb1; wr1]); ("Team B", mkTeamData [rb1])].

(** A 1-for-1 trade of one player each way. *)
Definition one_for_one (a b : Player) : Trade :=
  candidate "1-for-1" "Team A" "Team B" [a] [b] ["RB"] ["QB"].

(** Sides worth 100.0 and 87.96: 12.04 percent apart. *)
Definition p100 : Player := mkPlayer "a1" (Some "QB") (Some 100%Q).
Definition p8796 : Player := mkPlayer "b1" (Some "RB") (Some (8796 # 100)).
Definition near_threshold_trade : Trade := one_for_one p100 p8796.

(** Sides worth 100.0 and 99.0: one percent apart. *)
Definition p99 : Player := mkPlayer "b2" (Some "RB") (Some 99%Q).
Definition fair_trade : Trade := one_for_one p100 p99.

(** The validated trades of the matcher's unit tests. *)
Definition validated (type a b : string) (a_sends b_sends : list Player)
    (a_gain b_gain pct score : Q) : Trade :=
  mkTrade (Some type) a b a_sends b_sends []
          (Some a_gain) (Some b_gain) (Some pct) (Some score) (Some true).

Definition bare (id : string) (v : Q) : Player := mkPlayer id None (Some v).

Definition trade_1_2 : Trade :=
  validated "1-for-1" "Team1" "Team2" [bare "421" 45] [bare "4046" 50]
            (45 # 10) 4 10 (155 # 10).
Definition trade_3_4 : Trade :=
  validated "2-for-2" "Team3" "Team4"
            [bare "6794" 48; bare "515" 38] [bare "4035" 35; bare "858" 46]
            (35 # 10) 5 (85 # 10) 18.
Definition trade_5_6 : Trade :=
  validated "1-for-1" "Team5" "Team6" [bare "2133" 25] [bare "147" 28]
            (32 # 10) (38 # 10) (115 # 10) 12.

Definition sample_valid_trades : list Trade := [trade_1_2; trade_3_4; trade_5_6].

(** A trade whose sides are 13 percent apart, in a list handed to the
    selector. *)
Definition trade_13 : Trade :=
  validated "1-for-1" "Team7" "Team8" [bare "11" 100] [bare "12" 87]
            4 4 13 0.
Definition wide_trades : list Trade := [trade_1_2; trade_13].

(** A matching primitive that pairs Team1 with Team2. *)
Definition pair_matching (G : Matcher.Graph) (maxcardinality : bool)
    : Res (list (string * string)) := Ok [("Team1", "Team2")].

(** Three teams and one trade, as in the matcher's odd-teams test. *)
Definition odd_graph : Matcher.Graph :=
  Matcher.add_edge
    (Matcher.add_nodes_from ∅ (list_to_set ["Team1"; "Team2"; "Team3"]))
    "Team1" "Team2" (Matcher.mkEdgeData 5 0 trade_1_2).

(** Two roster dictionaries and their players lists, as in the analyzer's
    unit tests. *)
Definition sample_store : Heap.Store :=
  Heap.mkStore
    (<[1%positive := Heap.mkRosterObj (Some 1%Z) (Some "user1") (Some 1%positive)]>
       (<[2%positive := Heap.mkRosterObj (Some 2%Z) (Some "user2") (Some 2%positive)]> ∅))
    (<[1%positive := ["421"; "4046"; "6794"]]>
       (<[2%positive := ["4035"; "515"; "858"]]> ∅)).

Definition sample_team_rosters : Dict Heap.loc :=
  [("Team1", 1%positive); ("Team2", 2%positive)].

Definition sample_trade : Trade :=
  candidate "1-for-1" "Team1" "Team2"
    [mkPlayer "421" (Some "QB") (Some (452 # 10))]
    [mkPlayer "4035" (Some "TE") (Some (357 # 10))] ["TE"] ["QB"].

End Examples.

(** ** Roster viability

    [check_roster_viability] reads the rosters of [team_rosters] as lists of
    player records (the enriched data of the pipeline). *)

Module Viability.
Import Config.

(** [position_counts[pos] += d], for a position that is a key of the
    dictionary. *)
Definition bump (d : Z) (position_counts : Dict Z) (player : Player) : Dict Z :=
  match position player with
  | Some pos =>
      match dict_get position_counts pos with
      | Some n => dict_set position_counts pos (n + d)%Z
      | None => position_counts
      end
  | None => position_counts
  end.

Definition min_starters : Dict Z :=
  [("QB", Z.of_nat (dict_get_or LINEUP_CONFIG "QB" 0%nat));
   ("RB", Z.of_nat (dict_get_or LINEUP_CONFIG "RB" 0%nat));
   ("WR", Z.of_nat (dict_get_or LINEUP_CONFIG "WR" 0%nat));
   ("TE", Z.of_nat (dict_get_or LINEUP_CONFIG "TE" 0%nat))].

(** The counts of one team after the trade. *)
Definition counts_after (current_roster sends_players receives_players : list Player)
    : Dict Z :=
  let position_counts := [("QB", 0%Z); ("RB", 0%Z); ("WR", 0%Z); ("TE", 0%Z)] in
  let position_counts := fold_left (bump 1) current_roster position_counts in
  let position_counts := fold_left (bump (-1)) sends_players position_counts in
  fold_left (bump 1) receives_players position_counts.

(** The body of the loop over the two teams: [false] is the early
    [return False]. *)
Definition team_viable (team_rosters : Dict TeamData) (team_name : string)
    (sends_players receives_players : list Player) : bool :=
  match dict_get team_rosters team_name with
  | None => true
  | Some team =>
      let position_counts :=
        counts_after (td_players team) sends_players receives_players in
      forallb (fun item =>
                 negb (dict_get_or position_counts (fst item) 0 <? snd item)%Z)
              min_starters
  end.

Definition check_roster_viability (trade : Trade) (team_rosters : Dict TeamData) : bool :=
  team_viable team_rosters (team_a trade) (team_a_sends trade) (team_b_sends trade)
  && team_viable team_rosters (team_b trade) (team_b_sends trade) (team_a_sends trade).

(** The number of players of a list at a position. *)
Definition count_at (pos : string) (players : list Player) : Z :=
  Z.of_nat (length (List.filter (Generator.has_position pos) players)).

(** The trade with the two teams exchanged. *)
Definition swap_teams (trade : Trade) : Trade :=
  mkTrade (ttype trade) (team_b trade) (team_a trade)
          (team_b_sends trade) (team_a_sends trade)
          (positions_addressed trade)
          (team_b_gain trade) (team_a_gain trade)
          (value_delta_pct trade) (trade_score trade) (is_fair trade).

End Viability.

(** ** The loop over pairs of teams *)

Module Pairs.
Import Classifier Generator.

(** [for i, x in enumerate(l): for y in l[i+1:]]: each element with the
    elements after it. *)
Fixpoint with_later {A} (l : list A) : list (A * list A) :=
  match l with
  | [] => []
  | x :: r => (x, r) :: with_later r
  end.

(** Concatenation of the results of a function that may raise. *)
Fixpoint res_concat_map {A B} (f : A -> Res (list B)) (l : list A) : Res (list B) :=
  match l with
  | [] => Ok []
  | x :: r =>
      match f x with
      | Raise e => Raise e
      | Ok ys =>
          match res_concat_map f r with
          | Raise e => Raise e
          | Ok zs => Ok (ys ++ zs)
          end
      end
  end.

(** [team_needs_surplus[team]] *)
Definition needs_of (team_needs_surplus : Dict NeedsSurplus) (team : string)
    : Res NeedsSurplus :=
  match dict_get team_needs_surplus team with
  | Some data => Ok data
  | None => Raise KeyError
  end.

(** [generate_candidate_trades].  The lookup table
    [player_values.set_index('sleeper_id').to_dict('index')] is built
    first; pandas refuses it when an identifier occurs in two rows
    ([LibraryError] here).  The table is passed on and never read. *)
Definition generate_candidate_trades (team_needs_surplus : Dict NeedsSurplus)
    (player_values : DataFrame) (enriched_data : option (Dict TeamData))
    : Res (list Trade) :=
  let team_names := dict_keys team_needs_surplus in
  if negb (bool_decide (NoDup (map pv_sleeper_id player_values))) then Raise LibraryError
  else
    res_concat_map (fun '(team_a, later) =>
      res_concat_map (fun team_b =>
        match needs_of team_needs_surplus team_a with
        | Raise e => Raise e
        | Ok team_a_data =>
            match needs_of team_needs_surplus team_b with
            | Raise e => Raise e
            | Ok team_b_data =>
                Ok (_find_complementary_trades team_a team_a_data team_b team_b_data
                      enriched_data)
            end
        end) later)
      (with_later team_names).

End Pairs.

(** ** Positional deltas

    The subtraction and the rounding of a delta are read in exact
    arithmetic.  A delta within a rounding error of x.x5 can round the
    other way in floating point, so the properties of the deltas are
    stated with a margin on each side of the thresholds. *)

Module Deltas.
Import Num Lineup Classifier.

(** [np.median] of a non-empty list: the middle value of the sorted
    list, the mean of the two middle values when the length is even. *)
Definition median (values : list Q) : Q :=
  let sorted := stable_sort Qleb values in
  let n := length sorted in
  if Nat.even n
  then ((nth (n / 2 - 1) sorted 0 + nth (n / 2) sorted 0) / 2)%Q
  else nth (n / 2) sorted 0%Q.

(** [position_values[position].append(value)] for each position, for one
    team. *)
Definition collect_team (position_values : Dict (list Q)) (team_starters : Dict Q)
    : Dict (list Q) :=
  fold_left (fun acc position =>
               dict_set acc position
                 (dict_get_or acc position [] ++ [dict_get_or team_starters position 0%Q]))
            (dict_keys position_values) position_values.

Definition _calculate_league_medians (all_team_starters : Dict (Dict Q)) : Dict Q :=
  let position_values :=
    fold_left (fun acc pos => dict_set acc pos ([] : list Q)) POSITIONS6 [] in
  let position_values :=
    fold_left collect_team (dict_values all_team_starters) position_values in
  fold_left (fun league_medians item =>
               match snd item with
               | [] => dict_set league_medians (fst item) 0%Q
               | _ :: _ => dict_set league_medians (fst item) (round1 (median (snd item)))
               end)
            position_values [].

(** The deltas of one team. *)
Definition team_deltas_of (starter_values league_medians : Dict Q) : Dict Q :=
  fold_left (fun acc position =>
               let team_value := dict_get_or starter_values position 0%Q in
               let median_value := dict_get_or league_medians position 0%Q in
               let delta := (team_value - median_value)%Q in
               dict_set acc position (round1 delta))
            POSITIONS6 [].

Definition compute_positional_deltas (all_team_starters : Dict (Dict Q))
    (league_medians : option (Dict Q)) : Dict (Dict Q) :=
  match all_team_starters with
  | [] => []
  | _ :: _ =>
      let league_medians :=
        match league_medians with
        | Some m => m
        | None => _calculate_league_medians all_team_starters
        end in
      fold_left (fun team_deltas item =>
                   dict_set team_deltas (fst item)
                     (team_deltas_of (snd item) league_medians))
                all_team_starters []
  end.

(** The values of the teams at a position, in the order of the teams. *)
Definition position_column (all_team_starters : Dict (Dict Q)) (position : string)
    : list Q :=
  map (fun team_starters => dict_get_or team_starters position 0%Q)
      (dict_values all_team_starters).

End Deltas.

(** ** The parts of the lineup

    The intermediate values of [calculate_starter_values], by name. *)

Module Starters.
Import Num Config Lineup.

(** [team_players] after the sort. *)
Definition sorted_team_players (team_roster : TeamRoster) (player_values : DataFrame)
    : DataFrame :=
  stable_sort row_before
    (List.filter (fun r => str_in (pv_sleeper_id r) (roster_players team_roster))
                 player_values).

(** [pos_players = team_players[team_players['position'] == position]] *)
Definition pos_players (team_roster : TeamRoster) (player_values : DataFrame)
    (position : string) : DataFrame :=
  List.filter (fun r => String.eqb (pv_position r) position)
              (sorted_team_players team_roster player_values).

(** [starters = pos_players.head(required_starters)] *)
Definition starters (team_roster : TeamRoster) (player_values : DataFrame)
    (position : string) : DataFrame :=
  firstn (dict_get_or LINEUP_CONFIG position 0)
         (pos_players team_roster player_values position).

(** [remaining = pos_players.iloc[required_starters:]] *)
Definition remaining (team_roster : TeamRoster) (player_values : DataFrame)
    (position : string) : DataFrame :=
  skipn (dict_get_or LINEUP_CONFIG position 0)
        (pos_players team_roster player_values position).

(** [flex_eligible] when the loop over the positions ends. *)
Definition flex_eligible (team_roster : TeamRoster) (player_values : DataFrame)
    : list PlayerValue :=
  (remaining team_roster player_values "RB" ++ remaining team_roster player_values "WR")
  ++ remaining team_roster player_values "TE".

(** The rows of the table of the players of the roster at a position, in
    the order of the table. *)
Definition team_rows_at (team_roster : TeamRoster) (player_values : DataFrame)
    (position : string) : DataFrame :=
  List.filter (fun r => str_in (pv_sleeper_id r) (roster_players team_roster)
                        && String.eqb (pv_position r) position)
              player_values.

End Starters.

(** ** The roster after a trade, as a list of identifiers

    What the two loops of [_simulate_trade_roster] do to the list
    [player_ids]. *)

Module Simulate.
Import Num Heap.

(** One turn of the loop over [removes]. *)
Definition remove_sent (player_ids : list string) (player : Player) : list string :=
  let sleeper_id := sleeper_id player in
  if negb (String.eqb sleeper_id "") && str_in sleeper_id player_ids
  then remove_first sleeper_id player_ids
  else player_ids.

(** One turn of the loop over [adds]. *)
Definition add_received (player_ids : list string) (player : Player) : list string :=
  let sleeper_id := sleeper_id player in
  if negb (String.eqb sleeper_id "") then player_ids ++ [sleeper_id] else player_ids.

Definition simulated_ids (player_ids : list string) (removes adds : list Player)
    : list string :=
  fold_left add_received adds (fold_left remove_sent removes player_ids).

(** The list of identifiers of a roster object ([roster.get('players', [])]). *)
Definition players_of (s : Store) (o : RosterObj) : option (list string) :=
  match ro_players o with
  | Some l => lists s !! l
  | None => Some []
  end.

(** [not roster]: the dictionary has no key. *)
Definition is_empty_obj (o : RosterObj) : bool :=
  match ro_roster_id o, ro_owner_id o, ro_players o with
  | None, None, None => true
  | _, _, _ => false
  end.

(** A gain of [calculate_starter_impact], from the list of identifiers of
    the team. *)
Definition total_change (player_ids : list string) (removes adds : list Player)
    (player_values : DataFrame) : Q :=
  let current := Lineup.calculate_starter_values (mkTeamRoster player_ids) player_values in
  let new := Lineup.calculate_starter_values
               (mkTeamRoster (simulated_ids player_ids removes adds)) player_values in
  (dict_get_or new "TOTAL" 0 - dict_get_or current "TOTAL" 0)%Q.

Definition gain (player_ids : list string) (removes adds : list Player)
    (player_values : DataFrame) : Q :=
  round1 (total_change player_ids removes adds player_values).

End Simulate.

(** ** The impact gate

    The gains are rounded to one decimal before the comparison; as for the
    deltas, the properties of the gate leave a margin around the rounding
    boundary. *)

Module Impact.
Import Num Config Heap.

Definition check_meaningful_impact (trade : Trade) (team_rosters : Dict loc)
    (player_values : DataFrame) : M bool :=
  let* gains := calculate_starter_impact trade team_rosters player_values in
  let team_a_gain := fst gains in
  let team_b_gain := snd gains in
  ret (Qleb MIN_STARTER_GAIN team_a_gain && Qleb MIN_STARTER_GAIN team_b_gain).

End Impact.

(** ** data_fetcher.py: joining the valuation table and the rosters

    Of the record [join_player_data] builds for a player, the fields the
    trade code reads are kept ([Player]); of the entry it builds for a
    team, the ['players'] list ([TeamData]).  Identifiers are strings, so
    [str(player_id)] is the identifier. *)

Module Join.

(** A roster of the league data: the keys [join_player_data] reads.
    ['players'] is a list of identifiers (absent reads as the empty
    list); ['owner_id'] and ['roster_id'] may be absent or null. *)
Record SleeperRoster := mkSleeperRoster {
  sr_owner_id : option string;
  sr_roster_id : option Z;
  sr_players : list string
}.

(** [str(n)] of an integer. *)
Definition py_str_int (n : Z) : string := NilZero.string_of_int (Z.to_int n).

(** [f"Team {roster_id}"] *)
Definition default_team_name (roster_id : option Z) : string :=
  String.append "Team "
    match roster_id with
    | Some n => py_str_int n
    | None => "None"
    end.

(** The lookup by identifier: rows with an empty identifier are skipped,
    a later row with the same identifier replaces the earlier one. *)
Definition player_values_dict (player_values : DataFrame) : Dict PlayerValue :=
  fold_left (fun d player =>
               let sleeper_id := pv_sleeper_id player in
               if negb (String.eqb sleeper_id "") then dict_set d sleeper_id player else d)
            player_values [].

(** [enriched_players] of one roster. *)
Definition enrich (player_values_dict : Dict PlayerValue) (player_ids : list string)
    : list Player :=
  flat_map (fun player_id =>
              match dict_get player_values_dict player_id with
              | Some data =>
                  [mkPlayer player_id (Some (pv_position data)) (Some (pv_value data))]
              | None => []
              end)
           player_ids.

(** [user_mappings.get(owner_id, f"Team {roster_id}")] *)
Definition team_name_of (user_mappings : Dict string) (roster : SleeperRoster) : string :=
  match sr_owner_id roster with
  | Some owner_id =>
      dict_get_or user_mappings owner_id (default_team_name (sr_roster_id roster))
  | None => default_team_name (sr_roster_id roster)
  end.

Definition join_player_data (team_rosters : list SleeperRoster)
    (player_values : DataFrame) (user_mappings : Dict string) : Dict TeamData :=
  let player_values_dict := player_values_dict player_values in
  fold_left (fun enriched_teams roster =>
               dict_set enriched_teams (team_name_of user_mappings roster)
                 (mkTeamData (enrich player_values_dict (sr_players roster))))
            team_rosters [].

(** The roster [run_trade_analysis] hands to [calculate_starter_values]:
    [{'players': [player['sleeper_id'] for player in team_data['players']]}]. *)
Definition pipeline_roster (team_data : TeamData) : TeamRoster :=
  mkTeamRoster (map sleeper_id (td_players team_data)).

(** The last row of the table with an identifier. *)
Definition last_row (player_values : DataFrame) (player_id : string)
    : option PlayerValue :=
  List.find (fun r => String.eqb (pv_sleeper_id r) player_id) (rev player_values).

End Join.

(** ** More example data *)

Module MoreExamples.
Import Num Classifier Generator Examples.

(** Two quarterbacks of about the same value. *)
Definition qb2 : Player := mkPlayer "4881" (Some "QB") (Some (440 # 10)).

(** A roster with two quarterbacks, three running backs, three receivers
    and two tight ends. *)
Definition deep_roster (tag : string) : list Player :=
  [ mkPlayer (String.append tag "q1") (Some "QB") (Some 40%Q);
    mkPlayer (String.append tag "q2") (Some "QB") (Some 30%Q);
    mkPlayer (String.append tag "r1") (Some "RB") (Some 50%Q);
    mkPlayer (String.append tag "r2") (Some "RB") (Some 35%Q);
    mkPlayer (String.append tag "r3") (Some "RB") (Some 20%Q);
    mkPlayer (String.append tag "w1") (Some "WR") (Some 45%Q);
    mkPlayer (String.append tag "w2") (Some "WR") (Some 33%Q);
    mkPlayer (String.append tag "w3") (Some "WR") (Some 21%Q);
    mkPlayer (String.append tag "t1") (Some "TE") (Some 25%Q);
    mkPlayer (String.append tag "t2") (Some "TE") (Some 15%Q) ].

Definition deep_rosters : Dict TeamData :=
  [("Team A", mkTeamData (deep_roster "a")); ("Team B", mkTeamData (deep_roster "b"))].

(** A quarterback for a quarterback. *)
Definition qb_swap : Trade := one_for_one qb1 qb2.



(** A matching primitive that pairs the two ends of the first edge of the
    graph, when there is one. *)
Definition first_edge_matching (G : Matcher.Graph) (maxcardinality : bool)
    : Res (list (string * string)) :=
  Ok (firstn 1
        (flat_map (fun node => map (fun nb => (fst node, fst nb)) (map_to_list (snd node)))
                  (map_to_list G))).

Definition sample_needs_surplus : Dict NeedsSurplus :=
  [("Team A", needs_a); ("Team B", needs_b)].

(** Starter values of three teams. *)
Definition starters_a : Dict Q :=
  [("QB", 452 # 10); ("RB", 917 # 10); ("WR", 481 # 10); ("TE", 357 # 10);
   ("FLEX", 0); ("TOTAL", 2207 # 10)]%Q.
Definition starters_b : Dict Q :=
  [("QB", 400 # 10); ("RB", 800 # 10); ("WR", 600 # 10); ("TE", 350 # 10);
   ("FLEX", 100 # 10); ("TOTAL", 2250 # 10)]%Q.
Definition starters_c : Dict Q :=
  [("QB", 500 # 10); ("RB", 700 # 10); ("WR", 550 # 10); ("TE", 365 # 10);
   ("FLEX", 200 # 10); ("TOTAL", 2315 # 10)]%Q.
(** League medians, as the unit tests give them. *)
Definition sample_medians : Dict Q :=
  [("QB", 452 # 10); ("RB", 800 # 10); ("WR", 550 # 10); ("TE", 357 # 10);
   ("FLEX", 100 # 10); ("TOTAL", 2250 # 10)]%Q.
Definition sample_all_starters : Dict (Dict Q) :=
  [("Team A", starters_a); ("Team B", starters_b); ("Team C", starters_c)].

(** The valuation table of the unit tests with a third running back and a
    third receiver, and a roster that has them all. *)
Definition deep_player_values : DataFrame :=
  sample_player_values
  ++ [ mkPlayerValue "9001" "Third Back" "RB" (301 # 10);
       mkPlayerValue "9002" "Third Receiver" "WR" (333 # 10) ].

Definition deep_team_roster : TeamRoster :=
  mkTeamRoster ["421"; "4046"; "515"; "9001"; "6794"; "858"; "9002"; "4035"].

(** The roster of the unit tests with its identifiers in another order,
    one of them twice, and an identifier the table does not have. *)
Definition shuffled_roster : TeamRoster :=
  mkTeamRoster ["515"; "4035"; "000"; "6794"; "4046"; "421"; "515"].

(** Two rosters of the league data; the owner of the second has no
    display name. *)
Definition sample_sleeper_rosters : list Join.SleeperRoster :=
  [ Join.mkSleeperRoster (Some "user1") (Some 1%Z) ["421"; "999"; "4046"];
    Join.mkSleeperRoster None (Some 2%Z) ["4035"] ].
Definition sample_user_mappings : Dict string := [("user1", "Alice")].

End MoreExamples.

(** * Properties *)

(** ** Facts about the numeric helpers *)

Module NumFacts.
Import Num.

Lemma Qleb_le x y : Qleb x y = true <-> (x <= y)%Q.
Proof. apply Qle_bool_iff. Qed.

Lemma Qltb_lt x y : Qltb x y = true <-> (x < y)%Q.
Proof.
  unfold Qltb. rewrite negb_true_iff. split.
  - intros H. apply Qnot_le_lt. intros Hle.
    apply Qle_bool_iff in Hle. congruence.
  - intros H. destruct (Qle_bool y x) eqn:E; [|reflexivity].
    apply Qle_bool_iff in E. exfalso. apply (Qlt_not_le _ _ H). exact E.
Qed.

Lemma Qltb_ge x y : Qltb x y = false <-> (y <= x)%Q.
Proof.
  unfold Qltb. rewrite negb_false_iff. apply Qle_bool_iff.
Qed.

Lemma Qleb_gt x y : Qleb x y = false <-> (y < x)%Q.
Proof.
  rewrite <- Qltb_lt. unfold Qltb, Qleb.
  destruct (Qle_bool x y); simpl; split; congruence.
Qed.

End NumFacts.

(** ** Lineup evaluator *)

Module LineupFacts.
Import Num Config Lineup.

Lemma zero_values_eq :
  zero_values =
  [("QB", 0%Q); ("RB", 0%Q); ("WR", 0%Q); ("TE", 0%Q); ("FLEX", 0%Q); ("TOTAL", 0%Q)].
Proof. reflexivity. Qed.

Lemma filter_none {A} (f : A -> bool) (l : list A) :
  (forall x, In x l -> f x = false) -> List.filter f l = [].
Proof.
  induction l as [|a l IH]; intros H; [reflexivity|].
  simpl. rewrite (H a (or_introl eq_refl)). apply IH.
  intros x Hx. apply H. right. exact Hx.
Qed.

(** C7. The TOTAL entry of every starter-value set is the sum of its QB,
    RB, WR, TE and FLEX entries, the set has exactly the six keys, and a
    roster none of whose identifiers is in the valuation table (an empty
    roster included) gets six zero entries.  The function is total: it has
    no error outcome. *)
Theorem starter_values_total (team_roster : TeamRoster) (player_values : DataFrame) :
  let sv := calculate_starter_values team_roster player_values in
  dict_keys sv = POSITIONS6 /\
  (dict_get_or sv "TOTAL" 0 ==
   dict_get_or sv "QB" 0 + dict_get_or sv "RB" 0 + dict_get_or sv "WR" 0
   + dict_get_or sv "TE" 0 + dict_get_or sv "FLEX" 0)%Q /\
  ((forall r, In r player_values ->
      str_in (pv_sleeper_id r) (roster_players team_roster) = false) ->
   sv = [("QB", 0%Q); ("RB", 0%Q); ("WR", 0%Q); ("TE", 0%Q); ("FLEX", 0%Q);
         ("TOTAL", 0%Q)]).
Proof.
  unfold calculate_starter_values.
  destruct (roster_players team_roster) as [|p ps] eqn:Hp.
  { repeat split; reflexivity. }
  destruct (List.filter _ player_values) as [|r rs] eqn:Hf.
  { repeat split; reflexivity. }
  set (tp := stable_sort row_before (r :: rs)).
  cbn [fold_left]. unfold position_step.
  cbn -[py_sum stable_sort List.filter firstn skipn Qplus].
  split; [|split].
  - destruct (stable_sort value_desc _); reflexivity.
  - destruct (stable_sort value_desc _);
      cbn -[py_sum stable_sort List.filter firstn skipn Qplus];
      unfold dict_get_or, py_sum; cbn -[List.filter firstn skipn Qplus stable_sort];
      ring.
  - intros Hnone.
    rewrite (filter_none (fun r => str_in (pv_sleeper_id r) (p :: ps)) _ Hnone) in Hf.
    discriminate.
Qed.

End LineupFacts.

(** ** Dictionaries and stable sorting *)

Section DictFacts.
Context {V : Type}.
Implicit Types (d : Dict V) (k : string) (v : V).

Lemma dict_get_set_eq d k v : dict_get (dict_set d k v) k = Some v.
Proof.
  induction d as [|[k' v'] d IH]; simpl.
  - now rewrite String.eqb_refl.
  - destruct (String.eqb k' k) eqn:E; simpl; rewrite E; [reflexivity|exact IH].
Qed.

Lemma dict_get_set_ne d k k' v : k <> k' -> dict_get (dict_set d k v) k' = dict_get d k'.
Proof.
  intros Hne. induction d as [|[k0 v0] d IH]; simpl.
  - destruct (String.eqb k k') eqn:E; [|reflexivity].
    apply String.eqb_eq in E. contradiction.
  - destruct (String.eqb k0 k) eqn:E; simpl.
    + apply String.eqb_eq in E. subst k0.
      destruct (String.eqb k k') eqn:E'; [|reflexivity].
      apply String.eqb_eq in E'. contradiction.
    + now rewrite IH.
Qed.

End DictFacts.

Section SortFacts.
Context {A : Type} (before : A -> A -> bool).

Lemma insert_by_perm (x : A) (l : list A) :
  Permutation (insert_by before x l) (x :: l).
Proof.
  induction l as [|y l IH]; simpl; [reflexivity|].
  destruct (before x y); [reflexivity|].
  rewrite IH. apply perm_swap.
Qed.

Lemma stable_sort_perm (l : list A) : Permutation (stable_sort before l) l.
Proof.
  induction l as [|x l IH]; simpl; [reflexivity|].
  rewrite insert_by_perm. now apply perm_skip.
Qed.

Lemma stable_sort_In (x : A) (l : list A) : In x (stable_sort before l) <-> In x l.
Proof.
  split; apply Permutation_in;
    [apply stable_sort_perm | symmetry; apply stable_sort_perm].
Qed.

Lemma strongly_sorted_mono (R S : A -> A -> Prop) (l : list A) :
  (forall x y, R x y -> S x y) -> StronglySorted R l -> StronglySorted S l.
Proof.
  intros HRS. induction 1 as [|x l Hs IH Hall]; constructor; [exact IH|].
  eapply Forall_impl; [exact Hall|]. intros y. apply HRS.
Qed.

Hypothesis before_total : forall x y, before x y = false -> before y x = true.
Hypothesis before_trans :
  forall x y z, before x y = true -> before y z = true -> before x z = true.

Lemma insert_by_sorted (x : A) (l : list A) :
  StronglySorted (fun a b => before a b = true) l ->
  StronglySorted (fun a b => before a b = true) (insert_by before x l).
Proof using before_total before_trans.
  induction 1 as [|y l Hs IH Hall]; simpl.
  - constructor; constructor.
  - destruct (before x y) eqn:E.
    + constructor; [constructor; assumption|].
      constructor; [exact E|].
      eapply Forall_impl; [exact Hall|].
      intros z Hz. eapply before_trans; eassumption.
    + constructor; [exact IH|].
      eapply Permutation_Forall; [symmetry; apply insert_by_perm|].
      constructor; [now apply before_total | exact Hall].
Qed.

Lemma stable_sort_sorted (l : list A) :
  StronglySorted (fun a b => before a b = true) (stable_sort before l).
Proof using before_total before_trans.
  induction l as [|x l IH]; simpl; [constructor|].
  now apply insert_by_sorted.
Qed.

End SortFacts.

(** ** Needs/surplus classifier *)

Module ClassifierFacts.
Import Num NumFacts Classifier.

Local Abbreviation delta_of d p := (dict_get_or d p 0%Q).

Lemma classify_fold_needs (d : Dict Q) (ps : list string) acc (p : string) :
  In p (fst (fold_left (classify_step d) ps acc)) <->
  In p (fst acc) \/ (In p ps /\ (delta_of d p < -2)%Q).
Proof.
  revert acc. induction ps as [|q ps IH]; intros acc; simpl.
  - tauto.
  - rewrite IH. unfold classify_step.
    destruct (Qltb (delta_of d q) (-2)) eqn:E1; simpl.
    + apply Qltb_lt in E1. rewrite in_app_iff. simpl.
      split; [intros [[H|[H|[]]]|[H1 H2]]|intros [H|[[H|H] H2]]]; subst; auto.
    + apply Qltb_ge in E1.
      assert (Hq : ~ (delta_of d q < -2)%Q) by (now apply Qle_not_lt).
      destruct (Qltb 2 (delta_of d q)); simpl;
        (split; [intros [H|[H1 H2]]|intros [H|[[H|H] H2]]]; subst; auto;
         contradiction).
Qed.

Lemma classify_fold_surplus (d : Dict Q) (ps : list string) acc (p : string) :
  In p (snd (fold_left (classify_step d) ps acc)) <->
  In p (snd acc) \/ (In p ps /\ (2 < delta_of d p)%Q).
Proof.
  revert acc. induction ps as [|q ps IH]; intros acc; simpl.
  - tauto.
  - rewrite IH. unfold classify_step.
    destruct (Qltb (delta_of d q) (-2)) eqn:E1; simpl.
    + apply Qltb_lt in E1.
      assert (Hq : ~ (2 < delta_of d q)%Q).
      { intros H. apply (Qlt_irrefl 2). eapply Qlt_trans; [exact H|].
        eapply Qlt_trans; [exact E1|]. reflexivity. }
      split; [intros [H|[H1 H2]]|intros [H|[[H|H] H2]]]; subst; auto;
        contradiction.
    + destruct (Qltb 2 (delta_of d q)) eqn:E2; simpl.
      * apply Qltb_lt in E2. rewrite in_app_iff. simpl.
        split; [intros [[H|[H|[]]]|[H1 H2]]|intros [H|[[H|H] H2]]]; subst; auto.
      * apply Qltb_ge in E2.
        assert (Hq : ~ (2 < delta_of d q)%Q) by (now apply Qle_not_lt).
        split; [intros [H|[H1 H2]]|intros [H|[[H|H] H2]]]; subst; auto;
          contradiction.
Qed.

Lemma identify_fold_other (l : Dict (Dict Q)) (acc : Dict NeedsSurplus) (k : string) :
  ~ In k (dict_keys l) ->
  dict_get (fold_left (fun acc item =>
              dict_set acc (fst item) (team_needs_surplus (snd item))) l acc) k
  = dict_get acc k.
Proof.
  revert acc. induction l as [|[k' d'] l IH]; intros acc Hk; simpl; [reflexivity|].
  simpl in Hk. rewrite IH by tauto.
  apply dict_get_set_ne. intros ->. tauto.
Qed.

Lemma identify_fold_get (l : Dict (Dict Q)) (acc : Dict NeedsSurplus) k d :
  NoDup (dict_keys l) -> In (k, d) l ->
  dict_get (fold_left (fun acc item =>
              dict_set acc (fst item) (team_needs_surplus (snd item))) l acc) k
  = Some (team_needs_surplus d).
Proof.
  revert acc. induction l as [|[k' d'] l IH]; intros acc Hnd Hin; simpl.
  - destruct Hin.
  - simpl in Hnd. apply NoDup_cons in Hnd as [Hk' Hnd].
    destruct Hin as [Heq|Hin].
    + inversion Heq; subst k' d'.
      rewrite identify_fold_other.
      * apply dict_get_set_eq.
      * intros H. apply Hk'. apply list_elem_of_In. exact H.
    + now apply IH.
Qed.

(** C6. For every team of [team_deltas], a tradeable position is listed
    as a need exactly when its delta is strictly below -2.0 and as a
    surplus exactly when it is strictly above 2.0 (so -2.0 and 2.0 are in
    neither list); the needs are ordered by ascending delta, the surplus
    by descending delta. *)
Theorem needs_surplus_classification
    (team_deltas : Dict (Dict Q)) (team : string) (d : Dict Q) :
  NoDup (dict_keys team_deltas) ->
  In (team, d) team_deltas ->
  exists ns,
    dict_get (identify_needs_surplus team_deltas) team = Some ns /\
    deltas ns = d /\
    (forall pos, In pos tradeable_positions ->
       (In pos (needs ns) <-> (delta_of d pos < -2)%Q) /\
       (In pos (surplus ns) <-> (2 < delta_of d pos)%Q)) /\
    (forall pos, In pos (needs ns) \/ In pos (surplus ns) ->
       In pos tradeable_positions) /\
    StronglySorted (fun p q => (delta_of d p <= delta_of d q)%Q) (needs ns) /\
    StronglySorted (fun p q => (delta_of d q <= delta_of d p)%Q) (surplus ns).
Proof.
  intros Hnd Hin. exists (team_needs_surplus d).
  split; [now apply identify_fold_get|].
  split; [reflexivity|].
  unfold team_needs_surplus; cbn [needs surplus].
  split; [|split; [|split]].
  - intros pos Hpos.
    rewrite !stable_sort_In, classify_fold_needs, classify_fold_surplus. simpl.
    tauto.
  - intros pos.
    rewrite !stable_sort_In, classify_fold_needs, classify_fold_surplus. simpl.
    tauto.
  - eapply strongly_sorted_mono;
      [|apply (stable_sort_sorted (delta_asc d))].
    + intros p q H. now apply Qleb_le in H.
    + intros x y H. apply Qleb_gt in H. apply Qleb_le. now apply Qlt_le_weak.
    + intros x y z H1 H2. apply Qleb_le in H1, H2. apply Qleb_le.
      eapply Qle_trans; eassumption.
  - eapply strongly_sorted_mono;
      [|apply (stable_sort_sorted (delta_desc d))].
    + intros p q H. now apply Qleb_le in H.
    + intros x y H. apply Qleb_gt in H. apply Qleb_le. now apply Qlt_le_weak.
    + intros x y z H1 H2. apply Qleb_le in H1, H2. apply Qleb_le.
      eapply Qle_trans; eassumption.
Qed.

End ClassifierFacts.

(** ** Candidate trade generator *)

Module GeneratorFacts.
Import Num Classifier Generator.

Lemma In_elements (X : gset string) (x : string) : In x (elements X) <-> x ∈ X.
Proof. rewrite <- list_elem_of_In. apply elem_of_elements. Qed.

Lemma in_1_for_1 team_a pa (A : gset string) team_b pb (B : gset string) (t : Trade) :
  In t (_generate_1_for_1_trades team_a pa A team_b pb B) <->
  exists a_pos b_pos a b,
    a_pos ∈ A /\ b_pos ∈ B /\
    In a (firstn 3 (dict_get_or pa a_pos [])) /\
    In b (firstn 3 (dict_get_or pb b_pos [])) /\
    t = candidate "1-for-1" team_a team_b [a] [b] [b_pos] [a_pos].
Proof.
  unfold _generate_1_for_1_trades. split.
  - intros H.
    apply in_flat_map in H as (a_pos & Ha & H).
    apply in_flat_map in H as (b_pos & Hb & H).
    apply in_flat_map in H as (a & Hpa & H).
    apply in_map_iff in H as (b & Heq & Hpb).
    exists a_pos, b_pos, a, b.
    apply In_elements in Ha. apply In_elements in Hb. auto.
  - intros (a_pos & b_pos & a & b & Ha & Hb & Hpa & Hpb & ->).
    apply in_flat_map. exists a_pos. split; [now apply In_elements|].
    apply in_flat_map. exists b_pos. split; [now apply In_elements|].
    apply in_flat_map. exists a. split; [exact Hpa|].
    apply in_map_iff. exists b. auto.
Qed.

Lemma in_2_for_2 team_a pa (A : gset string) team_b pb (B : gset string) (t : Trade) :
  In t (_generate_2_for_2_trades team_a pa A team_b pb B) ->
  ttype t = Some "2-for-2" /\
  length (team_a_sends t) = 2 /\ length (team_b_sends t) = 2.
Proof.
  unfold _generate_2_for_2_trades. intros H.
  apply in_flat_map in H as ([a_pos1 a_rest] & _ & H).
  apply in_flat_map in H as (a_pos2 & _ & H).
  apply in_flat_map in H as ([b_pos1 b_rest] & _ & H).
  apply in_flat_map in H as (b_pos2 & _ & H).
  apply in_flat_map in H as (a_p1 & _ & H).
  apply in_flat_map in H as (a_p2 & _ & H).
  destruct (String.eqb (sleeper_id a_p1) (sleeper_id a_p2)); [destruct H|].
  apply in_flat_map in H as (b_p1 & _ & H).
  apply in_flat_map in H as (b_p2 & _ & H).
  destruct (String.eqb (sleeper_id b_p1) (sleeper_id b_p2)); [destruct H|].
  destruct H as [<-|[]]. auto.
Qed.

Lemma team_players_at (team : string) (enriched_data : option (Dict TeamData))
    (pos : string) :
  dict_get_or (_get_team_players_by_position team enriched_data) pos []
  = Claimed.players_at enriched_data team pos.
Proof.
  assert (Hfold : forall f : string -> list Player,
    fold_left (fun acc p => dict_set acc p (f p)) ["QB"; "RB"; "WR"; "TE"] []
    = [("QB", f "QB"); ("RB", f "RB"); ("WR", f "WR"); ("TE", f "TE")])
    by reflexivity.
  assert (Hget : forall f : string -> list Player,
    dict_get_or [("QB", f "QB"); ("RB", f "RB"); ("WR", f "WR"); ("TE", f "TE")] pos []
    = if str_in pos ["QB"; "RB"; "WR"; "TE"] then f pos else []).
  { intros f. unfold dict_get_or, str_in. cbn -[String.eqb].
    rewrite !(String.eqb_sym pos).
    repeat (match goal with |- context [String.eqb ?a pos] =>
              let E := fresh "E" in
              destruct (String.eqb a pos) eqn:E;
              [apply String.eqb_eq in E; subst pos; reflexivity|]
            end).
    reflexivity. }
  assert (Hempty :
    dict_get_or (fold_left (fun acc p => dict_set acc p ([] : list Player))
                   ["QB"; "RB"; "WR"; "TE"] []) pos [] = []).
  { rewrite (Hfold (fun _ => [])), (Hget (fun _ => [])). now destruct (str_in _ _). }
  unfold _get_team_players_by_position, Claimed.players_at.
  destruct enriched_data as [[|e es]|]; [exact Hempty| |exact Hempty].
  destruct (dict_get (e :: es) team) as [td|]; [|exact Hempty].
  rewrite (Hfold (fun p => stable_sort player_value_desc
                             (List.filter (has_position p) (td_players td)))).
  apply (Hget (fun p => stable_sort player_value_desc
                          (List.filter (has_position p) (td_players td)))).
Qed.

(** C8 (amended). Candidates for a pair of teams are generated only when
    both intersections, A's surplus with B's needs and B's surplus with A's
    needs, are non-empty.  When they are, the 1-for-1 candidates are exactly
    the combinations of one of A's top-3 players at a position of the first
    intersection with one of B's top-3 players at a position of the second;
    no candidate sends more than two players per side. *)
Theorem complementary_trades_spec (team_a : string) (team_a_data : NeedsSurplus)
    (team_b : string) (team_b_data : NeedsSurplus)
    (enriched_data : option (Dict TeamData)) :
  let a_to_b : gset string :=
    list_to_set (surplus team_a_data) ∩ list_to_set (needs team_b_data) in
  let b_to_a : gset string :=
    list_to_set (surplus team_b_data) ∩ list_to_set (needs team_a_data) in
  let res :=
    _find_complementary_trades team_a team_a_data team_b team_b_data enriched_data in
  (a_to_b = ∅ \/ b_to_a = ∅ -> res = []) /\
  (a_to_b <> ∅ -> b_to_a <> ∅ ->
   forall t,
     (In t res /\ ttype t = Some "1-for-1") <->
     exists a_pos b_pos a b,
       a_pos ∈ a_to_b /\ b_pos ∈ b_to_a /\
       In a (firstn 3 (Claimed.players_at enriched_data team_a a_pos)) /\
       In b (firstn 3 (Claimed.players_at enriched_data team_b b_pos)) /\
       t = candidate "1-for-1" team_a team_b [a] [b] [b_pos] [a_pos]) /\
  (forall t, In t res ->
     length (team_a_sends t) <= 2 /\ length (team_b_sends t) <= 2).
Proof.
  intros a_to_b b_to_a res.
  unfold res, _find_complementary_trades.
  fold a_to_b b_to_a.
  set (pa := _get_team_players_by_position team_a enriched_data).
  set (pb := _get_team_players_by_position team_b enriched_data).
  split; [|split].
  - intros [H|H]; rewrite H.
    + rewrite bool_decide_eq_true_2 by reflexivity. reflexivity.
    + rewrite (bool_decide_eq_true_2 (∅ = ∅)) by reflexivity.
      now rewrite orb_true_r.
  - intros Ha Hb t.
    rewrite !bool_decide_eq_false_2 by assumption. simpl.
    setoid_rewrite <- team_players_at. fold pa pb.
    rewrite in_app_iff, <- in_1_for_1. split.
    + intros [[H|H] Ht]; [exact H|].
      apply in_2_for_2 in H as [H _]. rewrite H in Ht. discriminate.
    + intros H. split; [now left|].
      apply in_1_for_1 in H as (? & ? & ? & ? & _ & _ & _ & _ & ->). reflexivity.
  - intros t. destruct (_ || _); [intros []|].
    rewrite in_app_iff. intros [H|H].
    + apply in_1_for_1 in H as (? & ? & ? & ? & _ & _ & _ & _ & ->). simpl. lia.
    + apply in_2_for_2 in H as (_ & H1 & H2). lia.
Qed.

End GeneratorFacts.

(** ** Trade validator and scorer *)

Module ValidatorFacts.
Import Num NumFacts Config Validator Examples.

(** C1. A 1-for-1 trade whose sides are one percent apart passes the
    fairness gate with [value_delta_pct = 1.0]; with gains of 30.0 on both
    sides the claimed score is 60 - 10 * 1.0 = 50, but [score_trade]
    compares the percentage with the fraction 0.12 and charges
    50 * (1.0 - 0.12) = 44, returning 16. *)
Theorem score_trade_percent_against_fraction :
  fst (check_fairness_constraint fair_trade []) = true /\
  (snd (check_fairness_constraint fair_trade []) == 1)%Q /\
  (score_trade fair_trade 30 30 1 == 16)%Q /\
  (Claimed.trade_score fair_trade 30 30 1 == 50)%Q.
Proof.
  repeat split; vm_compute; reflexivity.
Qed.

Lemma find_filter_head {A} (f : A -> bool) (l : list A) :
  match List.filter f l with x :: _ => Some x | [] => None end = List.find f l.
Proof.
  induction l as [|a l IH]; simpl; [reflexivity|].
  destruct (f a); [reflexivity|exact IH].
Qed.

(** What one player adds to a side's value. *)
Lemma side_value_step_eq pv total p :
  side_value_step pv total p =
  (total + (if String.eqb (sleeper_id p) "" then default 0%Q (value p)
            else Claimed.indexed_value pv p))%Q.
Proof.
  unfold side_value_step, Claimed.indexed_value, rows_with_id.
  rewrite <- find_filter_head.
  destruct (String.eqb (sleeper_id p) ""); simpl; [reflexivity|].
  destruct (List.filter _ pv); reflexivity.
Qed.

Lemma side_value_fold pv (l : list Player) (acc : Q) :
  fold_left (side_value_step pv) l acc =
  fold_left Qplus
    (map (fun p => if String.eqb (sleeper_id p) "" then default 0%Q (value p)
                   else Claimed.indexed_value pv p) l) acc.
Proof.
  revert acc. induction l as [|p l IH]; intros acc; simpl; [reflexivity|].
  rewrite side_value_step_eq. apply IH.
Qed.

Lemma side_value_sum players pv :
  _calculate_trade_side_value players pv =
  py_sum (map (fun p => if String.eqb (sleeper_id p) "" then default 0%Q (value p)
                        else Claimed.indexed_value pv p) players).
Proof.
  unfold _calculate_trade_side_value, py_sum.
  destruct players as [|p0 ps]; [reflexivity|].
  apply side_value_fold.
Qed.

Lemma fold_plus_nonneg (l : list Q) (acc : Q) :
  (0 <= acc)%Q -> Forall (fun x => (0 <= x)%Q) l -> (0 <= fold_left Qplus l acc)%Q.
Proof.
  revert acc. induction l as [|x l IH]; intros acc Hacc Hl; simpl; [exact Hacc|].
  apply Forall_cons in Hl as [Hx Hl].
  apply IH; [|exact Hl].
  rewrite <- (Qplus_0_r 0). now apply Qplus_le_compat.
Qed.

Lemma round_half_even_nonneg q : (0 <= q)%Q -> (0 <= round_half_even q)%Z.
Proof.
  intros H. unfold round_half_even.
  assert (Hf : (0 <= Qfloor q)%Z) by (apply (Qfloor_resp_le 0 q H)).
  destruct (_ ?= _)%Q; [destruct (Z.even _)| |]; lia.
Qed.

Lemma round1_nonneg x : (0 <= x)%Q -> (0 <= round1 x)%Q.
Proof.
  intros H. unfold round1, Qdiv.
  apply Qmult_le_0_compat.
  - change 0%Q with (inject_Z 0). rewrite <- Zle_Qle.
    apply round_half_even_nonneg. apply Qmult_le_0_compat; [exact H|discriminate].
  - discriminate.
Qed.

Lemma indexed_value_nonneg pv p :
  (forall r, In r pv -> (0 <= pv_value r)%Q) ->
  (forall v, value p = Some v -> (0 <= v)%Q) ->
  (0 <= Claimed.indexed_value pv p)%Q.
Proof.
  intros Hpv Hp. unfold Claimed.indexed_value.
  destruct (List.find _ pv) as [r|] eqn:E.
  - apply find_some in E as [Hr _]. now apply Hpv.
  - destruct (value p) as [v|]; simpl; [now apply Hp|apply Qle_refl].
Qed.

Lemma side_value_nonneg players pv :
  (forall r, In r pv -> (0 <= pv_value r)%Q) ->
  (forall p v, In p players -> value p = Some v -> (0 <= v)%Q) ->
  (0 <= _calculate_trade_side_value players pv)%Q.
Proof.
  intros Hpv Hp. rewrite side_value_sum. unfold py_sum.
  apply fold_plus_nonneg; [apply Qle_refl|].
  apply Forall_forall. intros x Hx.
  apply list_elem_of_In, in_map_iff in Hx as (p & <- & Hin).
  destruct (String.eqb (sleeper_id p) "").
  - destruct (value p) as [v|] eqn:E; simpl; [|apply Qle_refl].
    now apply (Hp p v).
  - apply indexed_value_nonneg; [exact Hpv|].
    intros v. now apply Hp.
Qed.

Lemma py_max_pos a b : (0 < a)%Q -> (0 < py_max a b)%Q.
Proof.
  intros Ha. unfold py_max. destruct (Qltb a b) eqn:E; [|exact Ha].
  apply Qltb_lt in E. eapply Qlt_trans; eassumption.
Qed.

Lemma threshold_percent : (FAIRNESS_THRESHOLD * 100 == 12)%Q.
Proof. reflexivity. Qed.

Lemma Qeqb_eq x y : Qeqb x y = true <-> (x == y)%Q.
Proof. apply Qeq_bool_iff. Qed.

(** C5 (as stated) fails: with sides worth 100.0 and 87.96 neither side is
    zero and the reported [value_delta_pct] is 12.0, which does not exceed
    the 12 percent threshold, yet the candidate fails the gate. *)
Lemma rounded_delta_at_threshold_fails_gate :
  let a := _calculate_trade_side_value (team_a_sends near_threshold_trade) [] in
  let b := _calculate_trade_side_value (team_b_sends near_threshold_trade) [] in
  let res := check_fairness_constraint near_threshold_trade [] in
  ~ (a == 0)%Q /\ ~ (b == 0)%Q /\
  (snd res == round1 (Qabs (a - b) / py_max a b * 100))%Q /\
  (snd res == 12)%Q /\ ~ (12 < snd res)%Q /\
  fst res = false.
Proof.
  vm_compute. repeat split; intros H; discriminate H.
Qed.

(** C5 (amended). The side values are sums over the players sent, each
    counted at its value in the valuation index, or at the value embedded
    on the record when its identifier is empty or not in the index.  When a
    side sums to 0 the gate fails and reports 100.0.  Otherwise it reports
    [round(|A - B| / max(A, B) * 100, 1)] and fails exactly when the
    unrounded percentage exceeds 12.  For non-negative player values the
    reported percentage is never negative. *)
Theorem fairness_gate_spec (trade : Trade) (player_values : DataFrame) :
  let a := _calculate_trade_side_value (team_a_sends trade) player_values in
  let b := _calculate_trade_side_value (team_b_sends trade) player_values in
  let raw := (Qabs (a - b) / py_max a b * 100)%Q in
  let res := check_fairness_constraint trade player_values in
  (forall players,
     _calculate_trade_side_value players player_values =
     py_sum (map (fun p => if String.eqb (sleeper_id p) "" then default 0%Q (value p)
                           else Claimed.indexed_value player_values p) players)) /\
  ((a == 0)%Q \/ (b == 0)%Q -> res = (false, 100%Q)) /\
  (~ (a == 0)%Q -> ~ (b == 0)%Q -> snd res = round1 raw) /\
  (fst res = false <-> (a == 0)%Q \/ (b == 0)%Q \/ (12 < raw)%Q) /\
  ((forall r, In r player_values -> (0 <= pv_value r)%Q) ->
   (forall p v, In p (team_a_sends trade ++ team_b_sends trade) ->
      value p = Some v -> (0 <= v)%Q) ->
   (0 <= snd res)%Q).
Proof.
  intros a b raw res.
  split; [intros players; apply side_value_sum|].
  unfold res, check_fairness_constraint. fold a b. fold raw.
  destruct (Qeqb a 0) eqn:Ea; [|destruct (Qeqb b 0) eqn:Eb]; simpl.
  - apply Qeqb_eq in Ea.
    repeat split; auto; try (intros; contradiction).
    intros _ _. discriminate.
  - apply Qeqb_eq in Eb.
    repeat split; auto; try (intros; contradiction).
    intros _ _. discriminate.
  - assert (Ha : ~ (a == 0)%Q) by (intros H; apply Qeqb_eq in H; congruence).
    assert (Hb : ~ (b == 0)%Q) by (intros H; apply Qeqb_eq in H; congruence).
    split; [intros [H|H]; contradiction|].
    split; [reflexivity|].
    split.
    + rewrite Qleb_gt, threshold_percent. tauto.
    + intros Hpv Hp. apply round1_nonneg.
      assert (Ha0 : (0 <= a)%Q).
      { apply side_value_nonneg; [exact Hpv|].
        intros p v Hin. apply Hp. apply in_app_iff. now left. }
      assert (Hapos : (0 < a)%Q).
      { apply Qle_lteq in Ha0 as [H|H]; [exact H|]. symmetry in H. contradiction. }
      unfold raw, Qdiv.
      apply Qmult_le_0_compat; [|discriminate].
      apply Qmult_le_0_compat; [apply Qabs_nonneg|].
      apply Qlt_le_weak, Qinv_lt_0_compat. now apply py_max_pos.
Qed.

End ValidatorFacts.

(** ** Trade graph *)

Module GraphFacts.
Import Num Config Matcher.

Lemma edge_empty (u v : string) : edge ∅ u v = Raise KeyError.
Proof. unfold edge. now rewrite lookup_empty. Qed.

Lemma edge_add_node (G : Graph) (n u v : string) :
  edge (add_node G n) u v = edge G u v.
Proof.
  unfold add_node, edge. destruct (G !! n) eqn:En; [reflexivity|].
  destruct (decide (n = u)) as [->|Hne].
  - rewrite lookup_insert_eq, En. now rewrite lookup_empty.
  - now rewrite lookup_insert_ne.
Qed.

Lemma edge_add_nodes (l : list string) (G : Graph) (u v : string) :
  edge (fold_left add_node l G) u v = edge G u v.
Proof.
  revert G. induction l as [|n l IH]; intros G; simpl; [reflexivity|].
  rewrite IH. apply edge_add_node.
Qed.

Lemma adj_default (G : Graph) (u v : string) :
  match default ∅ (G !! u) !! v with Some d => Ok d | None => Raise KeyError end
  = edge G u v.
Proof.
  unfold edge. destruct (G !! u); simpl; [reflexivity|]. now rewrite lookup_empty.
Qed.

(** The data found between two nodes after [add_edge]. *)
Lemma edge_add_edge (G : Graph) (a b : string) (d : EdgeData) (u v : string) :
  edge (add_edge G a b d) u v =
  if bool_decide ((u = a /\ v = b) \/ (u = b /\ v = a)) then Ok d else edge G u v.
Proof.
  unfold add_edge.
  set (G1 := add_node (add_node G a) b).
  assert (H1 : forall x y, edge G1 x y = edge G x y).
  { intros x y. unfold G1. now rewrite !edge_add_node. }
  set (G2 := <[a := <[b := d]> (default ∅ (G1 !! a))]> G1).
  assert (H2 : forall x y, edge G2 x y =
            if bool_decide (x = a /\ y = b) then Ok d else edge G x y).
  { intros x y. unfold G2, edge at 1.
    destruct (decide (x = a)) as [->|Hx].
    - rewrite lookup_insert_eq.
      destruct (decide (y = b)) as [->|Hy].
      + rewrite lookup_insert_eq. now rewrite bool_decide_eq_true_2.
      + rewrite lookup_insert_ne by congruence.
        rewrite bool_decide_eq_false_2 by tauto.
        rewrite adj_default. apply H1.
    - rewrite lookup_insert_ne by congruence.
      rewrite bool_decide_eq_false_2 by tauto. apply H1. }
  unfold edge at 1.
  destruct (decide (u = b)) as [->|Hu].
  - rewrite lookup_insert_eq.
    destruct (decide (v = a)) as [->|Hv].
    + rewrite lookup_insert_eq. now rewrite bool_decide_eq_true_2 by tauto.
    + rewrite lookup_insert_ne by congruence.
      rewrite adj_default, H2.
      destruct (decide (b = a /\ v = b)) as [[-> ->]|Hn].
      * now rewrite !bool_decide_eq_true_2 by tauto.
      * rewrite (bool_decide_eq_false_2 _ Hn).
        rewrite bool_decide_eq_false_2; [reflexivity|]. intros [[? ?]|[? ?]]; tauto.
  - rewrite lookup_insert_ne by congruence.
    fold (edge G2 u v). rewrite H2.
    destruct (decide (u = a /\ v = b)) as [Hy|Hn].
    + now rewrite !bool_decide_eq_true_2 by tauto.
    + rewrite (bool_decide_eq_false_2 _ Hn).
      rewrite bool_decide_eq_false_2; [reflexivity|]. intros [?|[? ?]]; tauto.
Qed.

Lemma edge_node (G : Graph) (u v : string) (d : EdgeData) :
  edge G u v = Ok d -> is_Some (G !! u).
Proof.
  unfold edge. destruct (G !! u); [eauto|discriminate].
Qed.

(** An edge that is present stays present (possibly with newer data) while
    further trades are added. *)
Lemma add_trade_edges_keeps (ts : list Trade) (G : Graph) (i : nat) (u v : string) :
  (exists d, edge G u v = Ok d) ->
  exists d, edge (add_trade_edges G i ts) u v = Ok d.
Proof.
  revert G i. induction ts as [|t ts IH]; intros G i H; simpl; [exact H|].
  apply IH. rewrite edge_add_edge.
  destruct (bool_decide _); [eauto|exact H].
Qed.

Lemma add_trade_edges_has (ts : list Trade) (G : Graph) (i : nat) (t : Trade) :
  In t ts ->
  (exists d, edge (add_trade_edges G i ts) (team_a t) (team_b t) = Ok d) /\
  (exists d, edge (add_trade_edges G i ts) (team_b t) (team_a t) = Ok d).
Proof.
  revert G i. induction ts as [|t' ts IH]; intros G i Hin; simpl; [destruct Hin|].
  destruct Hin as [->|Hin]; [|now apply IH].
  split; apply add_trade_edges_keeps; rewrite edge_add_edge;
    rewrite bool_decide_eq_true_2 by tauto; eauto.
Qed.

Lemma add_trade_edges_sound (all ts : list Trade) (G : Graph) (i : nat) :
  (forall t, In t ts -> In t all) ->
  edge_sound all G -> edge_sound all (add_trade_edges G i ts).
Proof.
  revert G i. induction ts as [|t ts IH]; intros G i Hsub HG; simpl; [exact HG|].
  apply IH; [intros t' Ht'; apply Hsub; now right|].
  intros u v d. rewrite edge_add_edge.
  destruct (bool_decide _) eqn:E.
  - apply bool_decide_eq_true in E. intros [= <-]. simpl.
    split; [apply Hsub; now left|].
    destruct E as [[-> ->]|[-> ->]]; auto.
  - apply HG.
Qed.

Lemma build_trade_graph_sound (ts : list Trade) : edge_sound ts (build_trade_graph ts).
Proof.
  unfold build_trade_graph. apply add_trade_edges_sound; [auto|].
  intros u v d. unfold add_nodes_from. rewrite edge_add_nodes, edge_empty.
  discriminate.
Qed.

Lemma build_trade_graph_has (ts : list Trade) (t : Trade) :
  In t ts ->
  exists d, edge (build_trade_graph ts) (team_a t) (team_b t) = Ok d /\
            is_Some (build_trade_graph ts !! team_a t) /\
            is_Some (build_trade_graph ts !! team_b t).
Proof.
  intros Hin. unfold build_trade_graph.
  destruct (add_trade_edges_has ts
              (add_nodes_from ∅ (fold_left (fun teams trade =>
                 teams ∪ {[team_a trade]} ∪ {[team_b trade]}) ts ∅)) 0 t Hin)
    as [[d Hd] [d' Hd']].
  exists d. split; [exact Hd|]. split; eapply edge_node; eassumption.
Qed.

End GraphFacts.

(** ** Optimal assignment selector *)

Module MatcherFacts.
Import Num NumFacts Config Matcher GraphFacts.

Lemma filter_all {A} (f : A -> bool) (l : list A) :
  (forall x, In x l -> f x = true) -> List.filter f l = l.
Proof.
  induction l as [|a l IH]; intros H; [reflexivity|].
  simpl. rewrite (H a (or_introl eq_refl)). f_equal. apply IH.
  intros x Hx. apply H. now right.
Qed.

(** C3. On a list whose trades all have [value_delta_pct] at most 12.0 and
    both gains at least 3.0, widening the fairness threshold to 15 or 20
    percent and lowering the starter-gain threshold to 1.0 return the list
    itself, so the rebuilt graphs are the graph of the failed attempt; and
    on any list these steps only drop trades, they never add one. *)
Theorem relaxations_are_identity (trades : list Trade) :
  (forall t, In t trades ->
     (default 0 (value_delta_pct t) <= 12)%Q /\
     (3 <= default 0 (team_a_gain t))%Q /\
     (3 <= default 0 (team_b_gain t))%Q) ->
  (_widen_fairness_threshold trades (15 # 100) = trades /\
   _widen_fairness_threshold trades (20 # 100) = trades /\
   _lower_starter_gain_threshold trades 1 = trades) /\
  (build_trade_graph (_widen_fairness_threshold trades (15 # 100))
     = build_trade_graph trades /\
   build_trade_graph (_widen_fairness_threshold trades (20 # 100))
     = build_trade_graph trades /\
   build_trade_graph (_lower_starter_gain_threshold trades 1)
     = build_trade_graph trades) /\
  (forall (any : list Trade) (threshold : Q) (t : Trade),
     (In t (_widen_fairness_threshold any threshold) -> In t any) /\
     (In t (_lower_starter_gain_threshold any threshold) -> In t any)).
Proof.
  intros H.
  assert (H15 : _widen_fairness_threshold trades (15 # 100) = trades).
  { apply filter_all. intros t Ht. destruct (H t Ht) as (Hv & _ & _).
    apply Qleb_le. eapply Qle_trans; [exact Hv|]. discriminate. }
  assert (H20 : _widen_fairness_threshold trades (20 # 100) = trades).
  { apply filter_all. intros t Ht. destruct (H t Ht) as (Hv & _ & _).
    apply Qleb_le. eapply Qle_trans; [exact Hv|]. discriminate. }
  assert (H1 : _lower_starter_gain_threshold trades 1 = trades).
  { apply filter_all. intros t Ht. destruct (H t Ht) as (_ & Ha & Hb).
    apply andb_true_iff. split; apply Qleb_le;
      (eapply Qle_trans; [|eassumption]); discriminate. }
  split; [auto|]. split; [rewrite H15, H20, H1; auto|].
  intros any threshold t. split; intros Hin; apply filter_In in Hin; tauto.
Qed.

(** *** Validation of the selection *)

Lemma collect_teams_seen (ts : list Trade) (seen : gset string) (t : Trade) :
  In t ts -> team_a t ∈ seen \/ team_b t ∈ seen -> collect_teams seen ts = None.
Proof.
  revert seen. induction ts as [|t' ts IH]; intros seen Hin Hseen; [destruct Hin|].
  simpl. destruct (bool_decide _ || bool_decide _) eqn:E; [reflexivity|].
  apply orb_false_iff in E as [Ea Eb].
  apply bool_decide_eq_false in Ea, Eb.
  destruct Hin as [->|Hin]; [tauto|].
  apply IH; [exact Hin|]. set_solver.
Qed.

Lemma collect_teams_shared (ts : list Trade) (seen : gset string) :
  shares_team ts -> collect_teams seen ts = None.
Proof.
  intros (l1 & t1 & l2 & t2 & l3 & -> & Hshare).
  revert seen. induction l1 as [|t l1 IH]; intros seen; simpl.
  - destruct (bool_decide _ || bool_decide _); [reflexivity|].
    apply (collect_teams_seen _ _ t2); [apply in_app_iff; right; now left|].
    destruct Hshare as [H|[H|[H|H]]]; rewrite <- H; set_solver.
  - destruct (bool_decide _ || bool_decide _); [reflexivity|]. apply IH.
Qed.

Lemma collect_teams_nodup (ts : list Trade) (seen S : gset string) :
  collect_teams seen ts = Some S ->
  (forall t, In t ts -> team_a t <> team_b t) ->
  NoDup (teams_of ts) /\ (forall x, In x (teams_of ts) -> x ∉ seen).
Proof.
  revert seen. induction ts as [|t ts IH]; intros seen Hc Hd; simpl.
  - split; [constructor|intros x []].
  - simpl in Hc. destruct (bool_decide _ || bool_decide _) eqn:E; [discriminate|].
    apply orb_false_iff in E as [Ea Eb].
    apply bool_decide_eq_false in Ea, Eb.
    destruct (IH _ Hc) as [Hnd Hout]; [intros t' Ht'; apply Hd; now right|].
    assert (Hab : team_a t <> team_b t) by (apply Hd; now left).
    split.
    + apply NoDup_cons. split.
      * intros Hin. apply list_elem_of_In in Hin. destruct Hin as [H|Hin]; [congruence|].
        apply Hout in Hin. set_solver.
      * apply NoDup_cons. split; [|exact Hnd].
        intros Hin. apply list_elem_of_In in Hin. apply Hout in Hin. set_solver.
    + intros x [<-|[<-|Hin]]; [exact Ea|exact Eb|].
      apply Hout in Hin. set_solver.
Qed.

Lemma collect_teams_some (ts : list Trade) (seen : gset string) :
  NoDup (teams_of ts) -> (forall x, In x (teams_of ts) -> x ∉ seen) ->
  collect_teams seen ts = Some (seen ∪ list_to_set (teams_of ts)).
Proof.
  revert seen. induction ts as [|t ts IH]; intros seen Hnd Hout; simpl.
  - f_equal. set_solver.
  - simpl in Hnd. apply NoDup_cons in Hnd as [Ha Hnd].
    apply NoDup_cons in Hnd as [Hb Hnd].
    rewrite bool_decide_eq_false_2 by (apply Hout; simpl; auto).
    rewrite bool_decide_eq_false_2 by (apply Hout; simpl; auto).
    simpl. rewrite IH.
    + f_equal. set_solver.
    + exact Hnd.
    + intros x Hx. assert (x ∉ seen) by (apply Hout; simpl; auto).
      assert (x <> team_a t).
      { intros ->. apply Ha. apply list_elem_of_In. now right. }
      assert (x <> team_b t).
      { intros ->. apply Hb. now apply list_elem_of_In. }
      set_solver.
Qed.

Section WithMatching.
Variable max_weight_matching : Graph -> bool -> Res (list (string * string)).

Local Abbreviation fpm := (find_perfect_matching max_weight_matching).

Lemma fpm_size_mismatch (G : Graph) (target_teams : nat) :
  size G <> target_teams -> fpm G target_teams = Ok None.
Proof.
  intros Hne. unfold find_perfect_matching, find_perfect_matching_body.
  apply Nat.eqb_neq in Hne. now rewrite Hne.
Qed.

Lemma fpm_odd_nodes (G : Graph) (target_teams : nat) :
  size G mod 2 <> 0 -> fpm G target_teams = Ok None.
Proof.
  intros Hne. unfold find_perfect_matching, find_perfect_matching_body.
  apply Nat.eqb_neq in Hne. rewrite Hne. simpl.
  destruct (negb _); reflexivity.
Qed.

Lemma find_perfect_matching_ok (G : Graph) (target_teams : nat) :
  exists r, fpm G target_teams = Ok r.
Proof.
  unfold find_perfect_matching.
  destruct (find_perfect_matching_body _ _ _); eauto.
Qed.

(** C9. [find_perfect_matching] never raises, and it answers [None] when
    the node count differs from the target, when the node count is odd,
    when the matching has a number of pairs other than [target_teams / 2]
    (fewer, in particular) and when the matching primitive raises; so an
    odd number of teams gives [None]. *)
Theorem find_perfect_matching_no_solution (G : Graph) (target_teams : nat) :
  (exists r, find_perfect_matching max_weight_matching G target_teams = Ok r) /\
  (size G <> target_teams -> find_perfect_matching max_weight_matching G target_teams = Ok None) /\
  (size G mod 2 <> 0 -> find_perfect_matching max_weight_matching G target_teams = Ok None) /\
  (forall matching,
     max_weight_matching G true = Ok matching ->
     length matching <> target_teams / 2 -> find_perfect_matching max_weight_matching G target_teams = Ok None) /\
  (forall e, max_weight_matching G true = Raise e -> find_perfect_matching max_weight_matching G target_teams = Ok None) /\
  (target_teams mod 2 <> 0 -> find_perfect_matching max_weight_matching G target_teams = Ok None).
Proof.
  split; [|split; [apply fpm_size_mismatch|split; [apply fpm_odd_nodes|]]].
  - unfold find_perfect_matching.
    destruct (find_perfect_matching_body _ _ _); eauto.
  - unfold find_perfect_matching, find_perfect_matching_body.
    split; [|split].
    + intros matching HM Hlen. rewrite HM.
      apply Nat.eqb_neq in Hlen. rewrite Hlen. simpl.
      destruct (negb _); [reflexivity|]. destruct (negb _); reflexivity.
    + intros e HM. rewrite HM.
      destruct (negb _); [reflexivity|]. destruct (negb _); reflexivity.
    + intros Hto. destruct (Nat.eq_dec (size G) target_teams) as [Heq|Hne].
      * apply fpm_odd_nodes. now rewrite Heq.
      * now apply fpm_size_mismatch.
Qed.

Lemma retry_perfect_eq (relaxed : list Trade) :
  retry_perfect max_weight_matching relaxed =
  fpm (build_trade_graph relaxed) TOTAL_TEAMS.
Proof.
  destruct relaxed as [|t ts]; [|reflexivity].
  symmetry. apply fpm_size_mismatch. vm_compute. discriminate.
Qed.





(** *** Where the selected trades come from *)

Lemma extract_trades_distinct (ts : list Trade) (matching : list (string * string))
    (selected : list Trade) :
  (forall u v, In (u, v) matching -> u <> v) ->
  extract_trades (build_trade_graph ts) matching = Ok selected ->
  forall t, In t selected -> team_a t <> team_b t.
Proof.
  revert selected. induction matching as [|[u v] M IH]; intros selected Hm He; simpl in He.
  - injection He as <-. intros t [].
  - destruct (edge _ u v) as [d|] eqn:Ed; [|discriminate].
    destruct (extract_trades _ M) as [sel|] eqn:Es; [|discriminate].
    injection He as <-. intros t [<-|Hin].
    + apply build_trade_graph_sound in Ed as [_ Hends].
      assert (u <> v) by (apply Hm; now left).
      destruct Hends as [[-> ->]|[-> ->]]; congruence.
    + eapply IH; [|reflexivity|exact Hin]. intros a b Hab. apply Hm. now right.
Qed.

Hypothesis matching_no_loops :
  forall G maxcardinality matching u v,
    max_weight_matching G maxcardinality = Ok matching ->
    In (u, v) matching -> u <> v.

Lemma fpm_distinct (ts selected : list Trade) (n : nat) :
  fpm (build_trade_graph ts) n = Ok (Some selected) ->
  forall t, In t selected -> team_a t <> team_b t.
Proof using matching_no_loops.
  unfold find_perfect_matching, find_perfect_matching_body.
  destruct (negb _); [discriminate|]. destruct (negb _); [discriminate|].
  destruct (max_weight_matching _ true) as [M|] eqn:EM; [|discriminate].
  destruct (negb _); [discriminate|].
  destruct (extract_trades _ M) as [sel|] eqn:Es; [|discriminate].
  intros [= <-]. eapply extract_trades_distinct; [|exact Es].
  intros u v. eapply matching_no_loops. exact EM.
Qed.

Lemma retry_distinct (ts selected : list Trade) :
  retry_perfect max_weight_matching ts = Ok (Some selected) ->
  forall t, In t selected -> team_a t <> team_b t.
Proof using matching_no_loops.
  rewrite retry_perfect_eq. apply fpm_distinct.
Qed.

Lemma partial_distinct (ts selected : list Trade) :
  _find_best_partial_matching max_weight_matching ts = Ok (Some selected) ->
  forall t, In t selected -> team_a t <> team_b t.
Proof using matching_no_loops.
  unfold _find_best_partial_matching. destruct ts as [|t0 ts]; [discriminate|].
  destruct (max_weight_matching _ false) as [M|] eqn:EM; [|discriminate].
  destruct M as [|m M]; [discriminate|].
  destruct (extract_trades _ (m :: M)) as [sel|] eqn:Es; [|discriminate].
  intros [= <-]. eapply extract_trades_distinct; [|exact Es].
  intros u v. eapply matching_no_loops. exact EM.
Qed.

Lemma relax_distinct (ts selected : list Trade) rosters pv :
  relax_constraints_and_retry max_weight_matching ts rosters pv = Ok (Some selected) ->
  forall t, In t selected -> team_a t <> team_b t.
Proof using matching_no_loops.
  unfold relax_constraints_and_retry.
  repeat (match goal with
          | |- context [retry_perfect _ ?l] =>
              let E := fresh "E" in
              destruct (retry_perfect max_weight_matching l) as [?r|?e] eqn:E;
              [|discriminate];
              destruct (truthy _);
              [intros [= ->]; eapply retry_distinct; exact E|clear E]
          end).
  destruct (_find_best_partial_matching _ ts) as [rp|ep] eqn:E; [|discriminate].
  destruct (truthy rp); [|discriminate].
  intros [= ->]. eapply partial_distinct; exact E.
Qed.

Lemma candidate_distinct (ts selected : list Trade) rosters pv :
  candidate_selection max_weight_matching ts rosters pv = Ok (Some selected) ->
  forall t, In t selected -> team_a t <> team_b t.
Proof using matching_no_loops.
  unfold candidate_selection.
  destruct (fpm _ _) as [[sel|]|] eqn:E; [| |discriminate].
  - intros [= <-]. eapply fpm_distinct; exact E.
  - apply relax_distinct.
Qed.

(** C4. Assuming the matching primitive never pairs a node with itself:
    the team identifiers of a selection returned by
    [select_optimal_trades] are pairwise distinct.  A candidate selection
    with a team identifier in two of its trades is discarded (the result is
    the empty list).  A non-empty selection with pairwise distinct team
    identifiers is kept whatever its length and coverage: the validator
    answers true and prints warnings only, one when the trade count is not
    6 and one when the number of teams covered is not 12. *)
Theorem selection_has_no_duplicate_team :
  (forall valid_trades team_rosters player_values selected,
     select_optimal_trades max_weight_matching valid_trades team_rosters player_values
       = Ok selected ->
     NoDup (teams_of selected)) /\
  (forall candidate, shares_team candidate ->
     fst (validate_matching_constraints candidate) = false /\
     validated_selection (Some candidate) = []) /\
  (forall candidate, candidate <> [] -> NoDup (teams_of candidate) ->
     fst (validate_matching_constraints candidate) = true /\
     validated_selection (Some candidate) = candidate /\
     ~ In ConstraintViolation (snd (validate_matching_constraints candidate)) /\
     (length candidate <> MAX_TRADES_PER_WEEK <->
      In (WarnTradeCount (length candidate) MAX_TRADES_PER_WEEK)
         (snd (validate_matching_constraints candidate))) /\
     (length (teams_of candidate) <> TOTAL_TEAMS <->
      In (WarnCoverage (length (teams_of candidate)) TOTAL_TEAMS)
         (snd (validate_matching_constraints candidate)))).
Proof using matching_no_loops.
  split; [|split].
  - intros ts rosters pv selected. unfold select_optimal_trades.
    destruct ts as [|t0 ts]; [intros [= <-]; constructor|].
    destruct (candidate_selection _ _ _ _) as [c|] eqn:Ec; [|discriminate].
    intros [= <-]. unfold validated_selection.
    destruct c as [[|t c]|]; [constructor| |constructor].
    unfold validate_matching_constraints.
    destruct (collect_teams ∅ (t :: c)) as [S|] eqn:ES; cbn [fst]; [|constructor].
    apply (collect_teams_nodup (t :: c) ∅ S ES).
    eapply candidate_distinct. exact Ec.
  - intros c Hs.
    assert (Hv : fst (validate_matching_constraints c) = false).
    { unfold validate_matching_constraints. destruct c as [|t c]; [reflexivity|].
      now rewrite (collect_teams_shared _ ∅ Hs). }
    split; [exact Hv|]. unfold validated_selection.
    destruct c as [|t c]; [reflexivity|]. now rewrite Hv.
  - intros c Hne Hnd.
    destruct c as [|t c]; [congruence|].
    unfold validated_selection, validate_matching_constraints.
    rewrite (collect_teams_some (t :: c) ∅ Hnd) by set_solver.
    cbn [fst snd].
    assert (Hsz : size ((∅ : gset string) ∪ list_to_set (teams_of (t :: c)))
                  = length (teams_of (t :: c))).
    { rewrite union_empty_l_L. apply size_list_to_set. exact Hnd. }
    rewrite Hsz. clear Hsz.
    set (n := length (t :: c)). set (m := length (teams_of (t :: c))).
    split; [reflexivity|]. split; [reflexivity|].
    destruct (Nat.eqb_spec n MAX_TRADES_PER_WEEK) as [En|En];
      destruct (Nat.eqb_spec m TOTAL_TEAMS) as [Em|Em]; cbn [negb app];
      (split; [intros Hin; simpl in Hin; intuition discriminate|]);
      (split; (split; [intros Hne'|intros Hin]));
      try contradiction; try (simpl in Hin; intuition discriminate);
      try assumption; simpl; auto.
Qed.

End WithMatching.

End MatcherFacts.

(** ** Roster simulation on the heap *)

Module HeapFacts.
Import Num Heap.

Lemma extends_refl s : extends s s.
Proof. split; reflexivity. Qed.

Lemma extends_trans s1 s2 s3 : extends s1 s2 -> extends s2 s3 -> extends s1 s3.
Proof. intros [H1 H2] [H3 H4]. split; etransitivity; eassumption. Qed.

Lemma live_extends s s' r : extends s s' -> live s r -> live s' r.
Proof.
  intros [Hd Hl] (o & Ho & Hp). exists o. split.
  - eapply lookup_weaken; eassumption.
  - intros l Hl'. destruct (Hp l Hl') as [items Hi]. exists items.
    eapply lookup_weaken; eassumption.
Qed.

Lemma roster_ok_live s r : roster_ok s r = true <-> live s r.
Proof.
  unfold roster_ok, live. split.
  - destruct (dicts s !! r) as [o|]; [|discriminate]. intros H. exists o.
    split; [reflexivity|]. intros l Hl. rewrite Hl in H.
    now apply bool_decide_eq_true in H.
  - intros (o & -> & Hp). destruct (ro_players o) as [l|]; [|reflexivity].
    apply bool_decide_eq_true. now apply Hp.
Qed.

Lemma fresh_dict s : dicts s !! fresh (dom (dicts s)) = None.
Proof. apply not_elem_of_dom, is_fresh. Qed.

Lemma fresh_list s : lists s !! fresh (dom (lists s)) = None.
Proof. apply not_elem_of_dom, is_fresh. Qed.

Lemma dict_copy_spec s r :
  live s r ->
  exists c s', dict_copy r s = Ok (c, s') /\ extends s s' /\ live s' c.
Proof.
  intros (o & Ho & Hp). unfold dict_copy, bind, read_dict, new_dict. rewrite Ho.
  eexists _, _. split; [reflexivity|]. split.
  - split; cbn; [|reflexivity]. apply insert_subseteq, fresh_dict.
  - exists o. cbn. split; [apply lookup_insert_eq|exact Hp].
Qed.

Lemma dict_is_empty_spec s r :
  live s r -> exists b, dict_is_empty r s = Ok (b, s).
Proof.
  intros (o & Ho & _). unfold dict_is_empty, bind, read_dict, ret. rewrite Ho. eauto.
Qed.

Lemma load_roster_spec s r :
  live s r -> exists ro, load_roster r s = Ok (ro, s).
Proof.
  intros (o & Ho & Hp). unfold load_roster, bind, read_dict, read_list, ret.
  rewrite Ho. destruct (ro_players o) as [l|]; [|eauto].
  destruct (Hp l eq_refl) as [items Hi]. rewrite Hi. eauto.
Qed.

Lemma load_roster_extends s s' r :
  live s r -> extends s s' ->
  exists ro, load_roster r s = Ok (ro, s) /\ load_roster r s' = Ok (ro, s').
Proof.
  intros (o & Ho & Hp) [Hd Hl]. unfold load_roster, bind, read_dict, read_list, ret.
  rewrite Ho, (lookup_weaken _ _ _ _ Ho Hd).
  destruct (ro_players o) as [l|]; [|eauto].
  destruct (Hp l eq_refl) as [items Hi].
  rewrite Hi, (lookup_weaken _ _ _ _ Hi Hl). eauto.
Qed.

Lemma starter_values_spec s r pv :
  live s r -> exists v, Heap.calculate_starter_values r pv s = Ok (v, s).
Proof.
  intros H. destruct (load_roster_spec s r H) as [ro Hro].
  unfold Heap.calculate_starter_values, bind, ret. rewrite Hro. eauto.
Qed.

(** A loop whose body only rewrites the list at [pid] only rewrites the
    list at [pid]. *)
Lemma for_each_writes {A} (body : A -> M unit) (pid : loc) :
  (forall x s items, lists s !! pid = Some items ->
     exists items', body x s = Ok (tt, mkStore (dicts s) (<[pid := items']> (lists s)))) ->
  forall l s items, lists s !! pid = Some items ->
     exists items', for_each l body s = Ok (tt, mkStore (dicts s) (<[pid := items']> (lists s))).
Proof.
  intros Hbody l. induction l as [|x l IH]; intros s items Hi; simpl.
  - exists items. unfold ret. rewrite insert_id by exact Hi. now destruct s.
  - unfold bind. destruct (Hbody x s items Hi) as [i1 ->].
    destruct (IH (mkStore (dicts s) (<[pid := i1]> (lists s))) i1) as [i2 H2].
    { cbn. apply lookup_insert_eq. }
    rewrite H2. cbn. rewrite insert_insert_eq. eauto.
Qed.

Lemma write_list_spec s pid items items' :
  lists s !! pid = Some items ->
  write_list pid items' s = Ok (tt, mkStore (dicts s) (<[pid := items']> (lists s))).
Proof. intros H. unfold write_list. now rewrite H. Qed.

Lemma unchanged_spec s pid items :
  lists s !! pid = Some items ->
  exists items', ret tt s = Ok (tt, mkStore (dicts s) (<[pid := items']> (lists s))).
Proof.
  intros H. exists items. unfold ret. rewrite insert_id by exact H. now destruct s.
Qed.

Lemma simulate_spec s roster removes adds :
  live s roster ->
  exists r' s',
    _simulate_trade_roster roster removes adds s = Ok (r', s') /\
    extends s s' /\ live s' r'.
Proof.
  intros (o & Ho & Hp).
  unfold _simulate_trade_roster.
  unfold bind at 1. unfold dict_copy, bind at 1, read_dict, new_dict. rewrite Ho.
  set (ur := fresh (dom (dicts s))).
  assert (Hur : dicts s !! ur = None) by apply fresh_dict.
  set (s1 := mkStore (<[ur := o]> (dicts s)) (lists s)).
  (* the players list and its copy *)
  assert (Hcopy : exists pid s2 items,
    (let* players := get_players ur in list_copy players) s1 = Ok (pid, s2) /\
    dicts s2 = dicts s1 /\ lists s ⊆ lists s2 /\
    lists s !! pid = None /\ lists s2 !! pid = Some items).
  { unfold bind, get_players, bind, read_dict. cbn. rewrite lookup_insert_eq.
    destruct (ro_players o) as [pl|] eqn:Ep.
    - destruct (Hp pl eq_refl) as [items Hi].
      unfold ret, list_copy, bind, read_list, new_list. cbn. rewrite Hi.
      eexists _, _, items. split; [reflexivity|]. cbn.
      split; [reflexivity|]. split; [apply insert_subseteq, fresh_list|].
      split; [apply fresh_list|apply lookup_insert_eq].
    - unfold new_list, list_copy, bind, read_list, new_list. cbn.
      rewrite lookup_insert_eq. cbn.
      set (tmp := fresh (dom (lists s))).
      set (pid := fresh (dom (<[tmp := []]> (lists s)))).
      assert (Hpid : <[tmp := []]> (lists s) !! pid = None)
        by apply not_elem_of_dom, is_fresh.
      apply lookup_insert_None in Hpid as [Hpid Hne].
      eexists pid, _, []. split; [reflexivity|]. cbn.
      split; [reflexivity|]. split.
      + etransitivity; [apply insert_subseteq, fresh_list|].
        apply insert_subseteq. fold tmp.
        apply lookup_insert_None. split; [exact Hpid|exact Hne].
      + split; [exact Hpid|apply lookup_insert_eq]. }
  destruct Hcopy as (pid & s2 & items & Hrun & Hd2 & Hl2 & Hfresh & Hpid).
  unfold bind in Hrun. unfold bind at 1.
  destruct (get_players ur s1) as [[players sp]|] eqn:Eg; [|discriminate].
  unfold bind at 1. rewrite Hrun.
  (* the loop over the players removed *)
  unfold bind at 1.
  edestruct (for_each_writes
    (fun player : Player =>
       if negb (String.eqb (sleeper_id player) "")
       then let* present := list_contains pid (sleeper_id player) in
            if present then list_remove pid (sleeper_id player) else ret tt
       else ret tt) pid) as [i3 H3]; [|exact Hpid|rewrite H3].
  { intros x s0 its Hits.
    destruct (negb _); [|eapply unchanged_spec; exact Hits].
    unfold bind, list_contains, bind, read_list, ret. rewrite Hits.
    destruct (str_in _ its); [|eapply unchanged_spec; exact Hits].
    unfold list_remove, bind, read_list. rewrite Hits.
    eexists. eapply write_list_spec. exact Hits. }
  (* the loop over the players added *)
  unfold bind at 1.
  assert (Hadd : forall (x : Player) s0 its, lists s0 !! pid = Some its ->
    exists items',
      (if negb (String.eqb (sleeper_id x) "")
       then list_append pid (sleeper_id x) else ret tt) s0
      = Ok (tt, mkStore (dicts s0) (<[pid := items']> (lists s0)))).
  { intros x s0 its Hits.
    destruct (negb _); [|eapply unchanged_spec; exact Hits].
    unfold list_append, bind, read_list. rewrite Hits.
    eexists. eapply write_list_spec. exact Hits. }
  destruct (for_each_writes
              (fun player : Player =>
                 if negb (String.eqb (sleeper_id player) "")
                 then list_append pid (sleeper_id player) else ret tt)
              pid Hadd adds
              (mkStore (dicts s2) (<[pid := i3]> (lists s2))) i3) as [i4 H4];
    [cbn; apply lookup_insert_eq|].
  rewrite H4. clear Hadd.
  unfold bind, set_players, ret. cbn. rewrite Hd2. cbn. rewrite lookup_insert_eq.
  eexists _, _. split; [reflexivity|]. split.
  - split; cbn.
    + rewrite insert_insert_eq. apply insert_subseteq, Hur.
    + rewrite insert_insert_eq. apply insert_subseteq_r; [exact Hfresh|exact Hl2].
  - eexists. cbn. split; [apply lookup_insert_eq|]. cbn.
    intros l [= <-]. rewrite lookup_insert_eq. eauto.
Qed.

Lemma dict_get_In {V} (d : Dict V) (k : string) (v : V) :
  dict_get d k = Some v -> In (k, v) d.
Proof.
  induction d as [|[k' v'] d IH]; simpl; [discriminate|].
  destruct (String.eqb k' k) eqn:E.
  - apply String.eqb_eq in E. intros [= ->]. left. now subst.
  - intros H. right. now apply IH.
Qed.

Lemma rosters_ok_live s (team_rosters : Dict loc) team r :
  rosters_ok s team_rosters = true -> In (team, r) team_rosters -> live s r.
Proof.
  unfold rosters_ok. rewrite forallb_forall. intros H Hin.
  apply roster_ok_live. apply (H (team, r) Hin).
Qed.

(** C10. On a store where every roster of [team_rosters] is a dictionary
    whose players entry is a list, [calculate_starter_impact] returns, and
    in the store it leaves every object that existed before the call is
    unchanged: the roster dictionaries and the players lists of the caller
    read the same before and after.  The mutations of
    [_simulate_trade_roster] go to copies allocated during the call. *)
Theorem starter_impact_preserves_rosters (trade : Trade) (team_rosters : Dict loc)
    (player_values : DataFrame) (s : Store) :
  rosters_ok s team_rosters = true ->
  exists gains s',
    calculate_starter_impact trade team_rosters player_values s = Ok (gains, s') /\
    (forall l o, dicts s !! l = Some o -> dicts s' !! l = Some o) /\
    (forall l items, lists s !! l = Some items -> lists s' !! l = Some items) /\
    (forall team r, In (team, r) team_rosters ->
       exists roster,
         load_roster r s = Ok (roster, s) /\ load_roster r s' = Ok (roster, s')).
Proof.
  intros Hok.
  assert (Hgoal : exists gains s',
    calculate_starter_impact trade team_rosters player_values s = Ok (gains, s') /\
    extends s s').
  { unfold calculate_starter_impact.
    destruct (dict_get team_rosters (team_a trade)) as [ra|] eqn:Ea;
      [|eexists _, _; split; [reflexivity|apply extends_refl]].
    destruct (dict_get team_rosters (team_b trade)) as [rb|] eqn:Eb;
      [|eexists _, _; split; [reflexivity|apply extends_refl]].
    assert (La : live s ra) by (eapply rosters_ok_live, dict_get_In; eassumption).
    assert (Lb : live s rb) by (eapply rosters_ok_live, dict_get_In; eassumption).
    destruct (dict_is_empty_spec s ra La) as [ea Hea].
    destruct (dict_is_empty_spec s rb Lb) as [eb Heb].
    unfold bind at 1. rewrite Hea. unfold bind at 1. rewrite Heb.
    destruct (ea || eb); [eexists _, _; split; [reflexivity|apply extends_refl]|].
    destruct (starter_values_spec s ra player_values La) as [va Hva].
    destruct (starter_values_spec s rb player_values Lb) as [vb Hvb].
    unfold bind at 1. rewrite Hva. unfold bind at 1. rewrite Hvb.
    destruct (dict_copy_spec s ra La) as (ca & s1 & Hca & X1 & Lca).
    unfold bind at 1. rewrite Hca.
    destruct (simulate_spec s1 ca (team_a_sends trade) (team_b_sends trade) Lca)
      as (na & s2 & Hna & X2 & Lna).
    unfold bind at 1. rewrite Hna.
    assert (X02 : extends s s2) by (eapply extends_trans; eassumption).
    destruct (dict_copy_spec s2 rb (live_extends _ _ _ X02 Lb))
      as (cb & s3 & Hcb & X3 & Lcb).
    unfold bind at 1. rewrite Hcb.
    destruct (simulate_spec s3 cb (team_b_sends trade) (team_a_sends trade) Lcb)
      as (nb & s4 & Hnb & X4 & Lnb).
    unfold bind at 1. rewrite Hnb.
    assert (X24 : extends s2 s4) by (eapply extends_trans; eassumption).
    destruct (starter_values_spec s4 na player_values (live_extends _ _ _ X24 Lna))
      as [wa Hwa].
    destruct (starter_values_spec s4 nb player_values Lnb) as [wb Hwb].
    unfold bind at 1. rewrite Hwa. unfold bind at 1. rewrite Hwb.
    eexists _, _. split; [reflexivity|].
    eapply extends_trans; eassumption. }
  destruct Hgoal as (gains & s' & Hrun & Hext).
  exists gains, s'. split; [exact Hrun|].
  split; [|split].
  - intros l o Hl. eapply lookup_weaken; [exact Hl|apply Hext].
  - intros l items Hl. eapply lookup_weaken; [exact Hl|apply Hext].
  - intros team r Hin. apply load_roster_extends; [|exact Hext].
    eapply rosters_ok_live; eassumption.
Qed.

End HeapFacts.

(** ** The theorems at the example data *)

Module Instances.
Import Num Config Lineup Classifier Generator Validator Matcher Examples.

(** An unknown roster against the test valuation table: six zeros. *)
Lemma starter_values_total_witness :
  (forall r, In r sample_player_values ->
     str_in (pv_sleeper_id r) (roster_players roster_no_match) = false) /\
  calculate_starter_values roster_no_match sample_player_values =
  [("QB", 0%Q); ("RB", 0%Q); ("WR", 0%Q); ("TE", 0%Q); ("FLEX", 0%Q); ("TOTAL", 0%Q)].
Proof.
  assert (H : forall r, In r sample_player_values ->
     str_in (pv_sleeper_id r) (roster_players roster_no_match) = false).
  { intros r Hr. simpl in Hr.
    repeat (destruct Hr as [<-|Hr]; [reflexivity|]). destruct Hr. }
  split; [exact H|].
  exact (proj2 (proj2 (LineupFacts.starter_values_total
                         roster_no_match sample_player_values)) H).
Defined.

(** Team A of the example deltas. *)
Lemma needs_surplus_classification_witness :
  NoDup (dict_keys sample_team_deltas) /\
  In ("Team A", deltas_a) sample_team_deltas /\
  exists ns,
    dict_get (identify_needs_surplus sample_team_deltas) "Team A" = Some ns /\
    (In "TE" tradeable_positions /\ ~ In "TE" (surplus ns)) /\
    (In "FLEX" tradeable_positions /\ ~ In "FLEX" (needs ns)) /\
    In "RB" (needs ns) /\ In "QB" (surplus ns).
Proof.
  assert (Hnd : NoDup (dict_keys sample_team_deltas)) by compute_done.
  assert (Hin : In ("Team A", deltas_a) sample_team_deltas) by (now left).
  split; [exact Hnd|]. split; [exact Hin|].
  destruct (ClassifierFacts.needs_surplus_classification
              sample_team_deltas "Team A" deltas_a Hnd Hin)
    as (ns & Hget & Hd & Hcls & _).
  exists ns. split; [exact Hget|].
  assert (HTE : In "TE" tradeable_positions) by (vm_compute; tauto).
  assert (HFL : In "FLEX" tradeable_positions) by (vm_compute; tauto).
  assert (HRB : In "RB" tradeable_positions) by (vm_compute; tauto).
  assert (HQB : In "QB" tradeable_positions) by (vm_compute; tauto).
  split; [split; [exact HTE|]|split; [split; [exact HFL|]|split]].
  - intros H. apply (Hcls "TE" HTE) in H. vm_compute in H. discriminate H.
  - intros H. apply (Hcls "FLEX" HFL) in H. vm_compute in H. discriminate H.
  - apply (Hcls "RB" HRB). reflexivity.
  - apply (Hcls "QB" HQB). reflexivity.
Defined.

(** C8 (as stated) fails: WR is a surplus position of Team A and RB one of
    Team B, the two intersections are not empty, [wr1] is among A's top
    three at WR and [rb1] among B's top three at RB, yet no candidate sends
    [wr1]: Team B has no need at WR. *)
Lemma surplus_position_without_candidate :
  let a_to_b : gset string := list_to_set (surplus needs_a) ∩ list_to_set (needs needs_b) in
  let b_to_a : gset string := list_to_set (surplus needs_b) ∩ list_to_set (needs needs_a) in
  let res := _find_complementary_trades "Team A" needs_a "Team B" needs_b sample_enriched in
  a_to_b <> ∅ /\ b_to_a <> ∅ /\
  In "WR" (surplus needs_a) /\ In "RB" (surplus needs_b) /\
  In wr1 (firstn 3 (Claimed.players_at sample_enriched "Team A" "WR")) /\
  In rb1 (firstn 3 (Claimed.players_at sample_enriched "Team B" "RB")) /\
  ~ (exists t, In t res /\ ttype t = Some "1-for-1" /\
               team_a_sends t = [wr1] /\ team_b_sends t = [rb1]).
Proof.
  cbv zeta.
  split; [compute_done|]. split; [compute_done|].
  split; [vm_compute; tauto|]. split; [vm_compute; tauto|].
  split; [vm_compute; tauto|]. split; [vm_compute; tauto|].
  intros (t & Hin & _ & Hsend & _).
  vm_compute in Hin. destruct Hin as [<-|[]]. discriminate Hsend.
Qed.

(** The two example teams: the only 1-for-1 candidate is QB for RB. *)
Lemma complementary_trades_spec_witness :
  let a_to_b : gset string := list_to_set (surplus needs_a) ∩ list_to_set (needs needs_b) in
  let b_to_a : gset string := list_to_set (surplus needs_b) ∩ list_to_set (needs needs_a) in
  a_to_b <> ∅ /\ b_to_a <> ∅ /\
  In (candidate "1-for-1" "Team A" "Team B" [qb1] [rb1] ["RB"] ["QB"])
     (_find_complementary_trades "Team A" needs_a "Team B" needs_b sample_enriched).
Proof.
  cbv zeta.
  assert (Ha : (list_to_set (surplus needs_a) ∩ list_to_set (needs needs_b) : gset string) <> ∅)
    by compute_done.
  assert (Hb : (list_to_set (surplus needs_b) ∩ list_to_set (needs needs_a) : gset string) <> ∅)
    by compute_done.
  split; [exact Ha|]. split; [exact Hb|].
  destruct (GeneratorFacts.complementary_trades_spec
              "Team A" needs_a "Team B" needs_b sample_enriched) as (_ & H & _).
  apply (H Ha Hb). exists "QB", "RB", qb1, rb1.
  split; [compute_done|]. split; [compute_done|].
  split; [vm_compute; tauto|]. split; [vm_compute; tauto|]. reflexivity.
Defined.

(** A quarterback for a running back, against the test valuation table. *)
Lemma fairness_gate_spec_witness :
  (forall r, In r sample_player_values -> (0 <= pv_value r)%Q) /\
  (forall p v, In p (team_a_sends (one_for_one qb1 rb1) ++ team_b_sends (one_for_one qb1 rb1)) ->
     value p = Some v -> (0 <= v)%Q) /\
  (0 <= snd (check_fairness_constraint (one_for_one qb1 rb1) sample_player_values))%Q.
Proof.
  assert (H1 : forall r, In r sample_player_values -> (0 <= pv_value r)%Q).
  { intros r Hr. simpl in Hr.
    repeat (destruct Hr as [<-|Hr]; [vm_compute; discriminate|]). destruct Hr. }
  assert (H2 : forall p v,
     In p (team_a_sends (one_for_one qb1 rb1) ++ team_b_sends (one_for_one qb1 rb1)) ->
     value p = Some v -> (0 <= v)%Q).
  { intros p v Hp Hv. simpl in Hp.
    repeat (destruct Hp as [<-|Hp]; [injection Hv as <-; vm_compute; discriminate|]).
    destruct Hp. }
  split; [exact H1|]. split; [exact H2|].
  destruct (ValidatorFacts.fairness_gate_spec (one_for_one qb1 rb1) sample_player_values)
    as (_ & _ & _ & _ & H).
  exact (H H1 H2).
Defined.

(** The validated trades of the matcher's tests pass all three steps
    unchanged. *)
Lemma relaxations_are_identity_witness :
  (forall t, In t sample_valid_trades ->
     (default 0 (value_delta_pct t) <= 12)%Q /\
     (3 <= default 0 (team_a_gain t))%Q /\
     (3 <= default 0 (team_b_gain t))%Q) /\
  _widen_fairness_threshold sample_valid_trades (15 # 100) = sample_valid_trades /\
  _lower_starter_gain_threshold sample_valid_trades 1 = sample_valid_trades.
Proof.
  assert (H : forall t, In t sample_valid_trades ->
     (default 0 (value_delta_pct t) <= 12)%Q /\
     (3 <= default 0 (team_a_gain t))%Q /\
     (3 <= default 0 (team_b_gain t))%Q).
  { intros t Ht. simpl in Ht.
    repeat (destruct Ht as [<-|Ht];
            [repeat split; vm_compute; discriminate|]).
    destruct Ht. }
  split; [exact H|].
  destruct (MatcherFacts.relaxations_are_identity sample_valid_trades H)
    as ((H15 & _ & H1) & _).
  split; [exact H15|exact H1].
Defined.



Lemma pair_matching_no_loops :
  forall (G : Graph) (maxcardinality : bool) (matching : list (string * string)) (u v : string),
    pair_matching G maxcardinality = Ok matching -> In (u, v) matching -> u <> v.
Proof.
  intros G mc M u v [= <-] [[= <- <-]|[]]. discriminate.
Defined.

(** One trade selected by partial matching: two distinct teams. *)
Lemma selection_has_no_duplicate_team_witness :
  select_optimal_trades pair_matching sample_valid_trades [] [] = Ok [trade_1_2] /\
  NoDup (teams_of [trade_1_2]).
Proof.
  assert (H : select_optimal_trades pair_matching sample_valid_trades [] [] = Ok [trade_1_2])
    by reflexivity.
  split; [exact H|].
  exact (proj1 (MatcherFacts.selection_has_no_duplicate_team
                  pair_matching pair_matching_no_loops)
               sample_valid_trades [] [] [trade_1_2] H).
Defined.

(** Three teams: no solution. *)
Lemma find_perfect_matching_no_solution_witness :
  3 mod 2 <> 0 /\ find_perfect_matching pair_matching odd_graph 3 = Ok None.
Proof.
  assert (H : 3 mod 2 <> 0) by (vm_compute; discriminate).
  split; [exact H|].
  destruct (MatcherFacts.find_perfect_matching_no_solution pair_matching odd_graph 3)
    as (_ & _ & _ & _ & _ & Hodd).
  exact (Hodd H).
Defined.

(** The analyzer's test rosters and trade. *)
Lemma starter_impact_preserves_rosters_witness :
  Heap.rosters_ok sample_store sample_team_rosters = true /\
  exists gains s',
    Heap.calculate_starter_impact sample_trade sample_team_rosters
      sample_player_values sample_store = Ok (gains, s') /\
    Heap.lists s' !! 1%positive = Some ["421"; "4046"; "6794"] /\
    Heap.lists s' !! 2%positive = Some ["4035"; "515"; "858"].
Proof.
  assert (H : Heap.rosters_ok sample_store sample_team_rosters = true) by reflexivity.
  split; [exact H|].
  destruct (HeapFacts.starter_impact_preserves_rosters
              sample_trade sample_team_rosters sample_player_values sample_store H)
    as (gains & s' & Hrun & _ & Hl & _).
  exists gains, s'. split; [exact Hrun|].
  split; apply Hl; reflexivity.
Defined.

End Instances.

(** ** Rounding *)

Module RoundFacts.
Import Num NumFacts.

Lemma round_half_even_bounds q :
  (Qfloor q <= round_half_even q <= Qfloor q + 1)%Z.
Proof.
  unfold round_half_even. destruct (_ ?= _)%Q; [destruct (Z.even _)| |]; lia.
Qed.

Lemma round_half_even_mono x y :
  (x <= y)%Q -> (round_half_even x <= round_half_even y)%Z.
Proof.
  intros Hxy. pose proof (Qfloor_resp_le x y Hxy) as Hf.
  destruct (Z.eq_dec (Qfloor x) (Qfloor y)) as [Heq|Hne].
  - unfold round_half_even. rewrite <- Heq.
    assert (Hr : (x - inject_Z (Qfloor x) <= y - inject_Z (Qfloor x))%Q).
    { apply Qplus_le_compat; [exact Hxy|apply Qle_refl]. }
    destruct (x - inject_Z (Qfloor x) ?= 1 # 2)%Q eqn:Cx;
      destruct (y - inject_Z (Qfloor x) ?= 1 # 2)%Q eqn:Cy;
      try (destruct (Z.even (Qfloor x)); lia); try lia; exfalso.
    + apply Qeq_alt in Cx. apply Qlt_alt in Cy. rewrite Cx in Hr.
      exact (Qlt_not_le _ _ Cy Hr).
    + apply Qgt_alt in Cx. apply Qeq_alt in Cy. rewrite Cy in Hr.
      exact (Qlt_not_le _ _ Cx Hr).
    + apply Qgt_alt in Cx. apply Qlt_alt in Cy.
      apply (Qlt_irrefl (1 # 2)). eapply Qlt_le_trans; [exact Cx|].
      eapply Qle_trans; [exact Hr|]. now apply Qlt_le_weak.
  - pose proof (round_half_even_bounds x). pose proof (round_half_even_bounds y). lia.
Qed.

Lemma round_half_even_comp x y : (x == y)%Q -> round_half_even x = round_half_even y.
Proof.
  intros H. apply Z.le_antisymm; apply round_half_even_mono; rewrite H; apply Qle_refl.
Qed.

Lemma round1_mono x y : (x <= y)%Q -> (round1 x <= round1 y)%Q.
Proof.
  intros H. unfold round1, Qdiv. apply Qmult_le_compat_r; [|discriminate].
  rewrite <- Zle_Qle. apply round_half_even_mono.
  apply Qmult_le_compat_r; [exact H|discriminate].
Qed.

Lemma round1_comp x y : (x == y)%Q -> round1 x = round1 y.
Proof.
  intros H. unfold round1. f_equal. f_equal. apply round_half_even_comp. now rewrite H.
Qed.

End RoundFacts.

(** ** More on the scorer and the fairness test *)

Module ScoreFacts.
Import Num NumFacts Config Validator Viability RoundFacts.

Lemma py_max_0_nonneg x : (0 <= py_max 0 x)%Q.
Proof.
  unfold py_max. destruct (Qltb 0 x) eqn:E; [|apply Qle_refl].
  apply Qltb_lt in E. now apply Qlt_le_weak.
Qed.

Lemma py_max_0_mono x y : (x <= y)%Q -> (py_max 0 x <= py_max 0 y)%Q.
Proof.
  intros H. unfold py_max.
  destruct (Qltb 0 x) eqn:Ex; destruct (Qltb 0 y) eqn:Ey.
  - exact H.
  - apply Qltb_lt in Ex. apply Qltb_ge in Ey.
    exfalso. apply (Qlt_irrefl 0). eapply Qlt_le_trans; [exact Ex|].
    eapply Qle_trans; eassumption.
  - apply Qltb_lt in Ey. now apply Qlt_le_weak.
  - apply Qle_refl.
Qed.

Lemma py_max_0_comp x y : (x == y)%Q -> (py_max 0 x == py_max 0 y)%Q.
Proof.
  intros H. apply Qle_antisym; apply py_max_0_mono; rewrite H; apply Qle_refl.
Qed.

Lemma Qltb_comp x x' y y' : (x == x')%Q -> (y == y')%Q -> Qltb x y = Qltb x' y'.
Proof. intros Hx Hy. unfold Qltb. now rewrite Hx, Hy. Qed.

(** The penalty for low gains, as [score_trade] computes it. *)
Lemma low_gain_penalty_mono a a' b b' :
  (a <= a')%Q -> (b <= b')%Q ->
  ((if Qltb a' MIN_STARTER_GAIN || Qltb b' MIN_STARTER_GAIN then 0 + 20 else 0)
   <= (if Qltb a MIN_STARTER_GAIN || Qltb b MIN_STARTER_GAIN then 0 + 20 else 0))%Q.
Proof.
  intros Ha Hb.
  destruct (Qltb a' MIN_STARTER_GAIN || Qltb b' MIN_STARTER_GAIN) eqn:E';
    destruct (Qltb a MIN_STARTER_GAIN || Qltb b MIN_STARTER_GAIN) eqn:E;
    try discriminate.
  exfalso. apply orb_false_iff in E as [E1 E2].
  apply Qltb_ge in E1, E2.
  apply orb_true_iff in E' as [E'|E']; apply Qltb_lt in E'.
  - apply (Qlt_irrefl a'). eapply Qlt_le_trans; [exact E'|].
    exact (Qle_trans _ _ _ E1 Ha).
  - apply (Qlt_irrefl b'). eapply Qlt_le_trans; [exact E'|].
    exact (Qle_trans _ _ _ E2 Hb).
Qed.

(** X1. The score is never negative; it does not change when the two
    teams of the trade are exchanged together with their gains, nor when
    the sign of the value difference is flipped. *)
Theorem score_trade_nonneg_symmetric (trade : Trade) (a b v : Q) :
  (0 <= score_trade trade a b v)%Q /\
  (score_trade (swap_teams trade) b a v == score_trade trade a b v)%Q /\
  (score_trade trade a b (- v) == score_trade trade a b v)%Q.
Proof.
  split; [apply py_max_0_nonneg|]. split.
  - unfold score_trade, swap_teams. cbn [team_a_sends team_b_sends ttype].
    rewrite (orb_comm (Qltb b MIN_STARTER_GAIN)).
    rewrite (Nat.add_comm (length (team_b_sends trade))).
    apply py_max_0_comp.
    rewrite (Qplus_comm b a). reflexivity.
  - unfold score_trade.
    assert (Habs : (Qabs (- v) == Qabs v)%Q) by apply Qabs_opp.
    rewrite (Qltb_comp _ FAIRNESS_THRESHOLD _ (Qabs v) (Qeq_refl _) Habs).
    apply py_max_0_comp.
    destruct (Qltb FAIRNESS_THRESHOLD (Qabs v)); rewrite Habs; reflexivity.
Qed.

(** X2. The score does not decrease when the gains of the teams grow. *)
Theorem score_trade_monotone_in_gains (trade : Trade) (a a' b b' v : Q) :
  (a <= a')%Q -> (b <= b')%Q ->
  (score_trade trade a b v <= score_trade trade a' b' v)%Q.
Proof.
  intros Ha Hb. unfold score_trade. apply py_max_0_mono.
  pose proof (low_gain_penalty_mono a a' b b' Ha Hb) as Hrisk.
  set (fp := if Qltb FAIRNESS_THRESHOLD (Qabs v) then _ else _).
  set (bonus := match ttype trade with Some _ => _ | None => _ end).
  set (r := if Qltb a MIN_STARTER_GAIN || Qltb b MIN_STARTER_GAIN then _ else _) in *.
  set (r' := if Qltb a' MIN_STARTER_GAIN || Qltb b' MIN_STARTER_GAIN then _ else _) in *.
  set (extra := inject_Z _).
  assert (Hbase : (a + b <= a' + b')%Q) by (now apply Qplus_le_compat).
  destruct (4 <? _)%nat.
  - apply Qplus_le_compat.
    + apply Qplus_le_compat; [|apply Qle_refl].
      apply Qplus_le_compat; [exact Hbase|apply Qle_refl].
    + apply Qopp_le_compat. apply Qplus_le_compat; [exact Hrisk|apply Qle_refl].
  - apply Qplus_le_compat.
    + apply Qplus_le_compat; [|apply Qle_refl].
      apply Qplus_le_compat; [exact Hbase|apply Qle_refl].
    + now apply Qopp_le_compat.
Qed.

End ScoreFacts.

(** ** More on the fairness test *)

Module FairnessFacts.
Import Num NumFacts Config Validator Viability RoundFacts.

Lemma py_max_sym a b : (py_max b a == py_max a b)%Q.
Proof.
  unfold py_max.
  destruct (Qltb b a) eqn:E1; destruct (Qltb a b) eqn:E2; try reflexivity.
  - apply Qltb_lt in E1, E2. exfalso. apply (Qlt_irrefl a).
    eapply Qlt_trans; eassumption.
  - apply Qltb_ge in E1, E2. now apply Qle_antisym.
Qed.

Lemma py_max_ge_l a b : (a <= py_max a b)%Q.
Proof.
  unfold py_max. destruct (Qltb a b) eqn:E; [|apply Qle_refl].
  apply Qltb_lt in E. now apply Qlt_le_weak.
Qed.

Lemma py_max_ge_r a b : (b <= py_max a b)%Q.
Proof.
  unfold py_max. destruct (Qltb a b) eqn:E; [apply Qle_refl|].
  now apply Qltb_ge in E.
Qed.

Lemma Qeqb_comp x x' : (x == x')%Q -> Qeqb x 0 = Qeqb x' 0.
Proof.
  intros H. unfold Qeqb.
  destruct (Qeq_bool x 0) eqn:E1; destruct (Qeq_bool x' 0) eqn:E2; try reflexivity.
  - apply Qeq_bool_iff in E1. rewrite H in E1. apply Qeq_bool_iff in E1. congruence.
  - apply Qeq_bool_iff in E2. rewrite <- H in E2. apply Qeq_bool_iff in E2. congruence.
Qed.

(** X3. The fairness test gives the same answer and the same percentage
    when the two sides of the trade are exchanged. *)
Theorem fairness_symmetric (trade : Trade) (player_values : DataFrame) :
  check_fairness_constraint (swap_teams trade) player_values
  = check_fairness_constraint trade player_values.
Proof.
  unfold check_fairness_constraint, swap_teams. cbn [team_a_sends team_b_sends].
  set (a := _calculate_trade_side_value (team_a_sends trade) player_values).
  set (b := _calculate_trade_side_value (team_b_sends trade) player_values).
  rewrite (orb_comm (Qeqb b 0)).
  destruct (Qeqb a 0 || Qeqb b 0); [reflexivity|].
  assert (Hraw : (Qabs (b - a) / py_max b a * 100 == Qabs (a - b) / py_max a b * 100)%Q).
  { rewrite (Qabs_Qminus b a), (py_max_sym a b). reflexivity. }
  f_equal.
  - unfold Qleb. now rewrite Hraw.
  - now apply round1_comp.
Qed.

Lemma raw_percentage_le_100 a b :
  (0 <= a)%Q -> (0 <= b)%Q -> (0 < py_max a b)%Q ->
  (Qabs (a - b) / py_max a b * 100 <= 100)%Q.
Proof.
  intros Ha Hb Hm.
  assert (H1 : (Qabs (a - b) <= py_max a b)%Q).
  { apply Qabs_Qle_condition. split.
    - apply Qle_trans with (- b)%Q.
      + apply Qopp_le_compat, py_max_ge_r.
      + rewrite <- (Qplus_0_l (- b)). unfold Qminus.
        apply Qplus_le_compat; [exact Ha|apply Qle_refl].
    - apply Qle_trans with a; [|apply py_max_ge_l].
      unfold Qminus. rewrite <- (Qplus_0_r a) at 2.
      apply Qplus_le_compat; [apply Qle_refl|].
      change 0%Q with (- 0)%Q. now apply Qopp_le_compat. }
  assert (H2 : (Qabs (a - b) / py_max a b <= 1)%Q).
  { apply Qle_shift_div_r; [exact Hm|]. now rewrite Qmult_1_l. }
  apply Qle_trans with (1 * 100)%Q; [|discriminate].
  apply Qmult_le_compat_r; [exact H2|discriminate].
Qed.

(** X4. A trade that passes the fairness test is reported with a
    percentage of at most 12.0; and whatever the answer, for non-negative
    player values the reported percentage is at most 100.0. *)
Theorem fairness_percentage_bounds (trade : Trade) (player_values : DataFrame) :
  (fst (check_fairness_constraint trade player_values) = true ->
   (snd (check_fairness_constraint trade player_values) <= 12)%Q) /\
  ((forall r, In r player_values -> (0 <= pv_value r)%Q) ->
   (forall p v, In p (team_a_sends trade ++ team_b_sends trade) ->
      value p = Some v -> (0 <= v)%Q) ->
   (snd (check_fairness_constraint trade player_values) <= 100)%Q).
Proof.
  unfold check_fairness_constraint.
  set (a := _calculate_trade_side_value (team_a_sends trade) player_values).
  set (b := _calculate_trade_side_value (team_b_sends trade) player_values).
  destruct (Qeqb a 0 || Qeqb b 0) eqn:E; cbn [fst snd].
  - split; [discriminate|]. intros _ _. apply Qle_refl.
  - apply orb_false_iff in E as [Ea Eb]. split.
    + intros Hfair. apply Qleb_le in Hfair.
      apply Qle_trans with (round1 12); [|vm_compute; discriminate].
      apply round1_mono. eapply Qle_trans; [exact Hfair|]. discriminate.
    + intros Hpv Hp.
      assert (Ha0 : (0 <= a)%Q).
      { apply ValidatorFacts.side_value_nonneg; [exact Hpv|].
        intros p v Hin. apply Hp. apply in_app_iff. now left. }
      assert (Hb0 : (0 <= b)%Q).
      { apply ValidatorFacts.side_value_nonneg; [exact Hpv|].
        intros p v Hin. apply Hp. apply in_app_iff. now right. }
      assert (Hapos : (0 < a)%Q).
      { apply Qle_lteq in Ha0 as [H|H]; [exact H|].
        symmetry in H. apply Qeq_bool_iff in H. unfold Qeqb in Ea. congruence. }
      apply Qle_trans with (round1 100); [|vm_compute; discriminate].
      apply round1_mono. apply raw_percentage_le_100; [exact Ha0|exact Hb0|].
      now apply ValidatorFacts.py_max_pos.
Qed.

End FairnessFacts.

(** ** Roster viability *)

Module ViabilityFacts.
Import Config Generator Viability.

Lemma count_at_cons pos p l :
  count_at pos (p :: l) = ((if has_position pos p then 1 else 0) + count_at pos l)%Z.
Proof.
  unfold count_at. simpl. destruct (has_position pos p); simpl; lia.
Qed.

(** The count of a position after a loop of increments. *)
Lemma bump_fold (d : Z) (players : list Player) (c : Dict Z) (pos : string) :
  dict_get (fold_left (bump d) players c) pos
  = option_map (fun n => (n + d * count_at pos players)%Z) (dict_get c pos).
Proof.
  revert c. induction players as [|p l IH]; intros c; simpl.
  - unfold count_at. simpl. destruct (dict_get c pos); simpl; f_equal; lia.
  - rewrite IH, count_at_cons. unfold bump, has_position.
    destruct (position p) as [q|]; [|destruct (dict_get c pos); simpl; f_equal; lia].
    destruct (dict_get c q) as [n|] eqn:Eq.
    + destruct (String.eqb q pos) eqn:E.
      * apply String.eqb_eq in E. subst q.
        rewrite dict_get_set_eq, Eq. simpl. f_equal. lia.
      * assert (q <> pos) by (now apply String.eqb_neq).
        rewrite dict_get_set_ne by assumption.
        destruct (dict_get c pos); simpl; f_equal; lia.
    + destruct (String.eqb q pos) eqn:E.
      * apply String.eqb_eq in E. subst q. rewrite Eq. reflexivity.
      * destruct (dict_get c pos); simpl; f_equal; lia.
Qed.

Lemma counts_after_get (roster sends receives : list Player) (pos : string) :
  In pos ["QB"; "RB"; "WR"; "TE"] ->
  dict_get_or (counts_after roster sends receives) pos 0%Z
  = (count_at pos roster - count_at pos sends + count_at pos receives)%Z.
Proof.
  intros Hpos. unfold dict_get_or, counts_after. rewrite !bump_fold.
  destruct Hpos as [<-|[<-|[<-|[<-|[]]]]]; simpl; lia.
Qed.

(** The test made for one team, in closed form. *)
Lemma team_viable_spec (team_rosters : Dict TeamData) (team : string)
    (sends receives : list Player) :
  team_viable team_rosters team sends receives = true <->
  (forall td, dict_get team_rosters team = Some td ->
     forall pos required, In (pos, required) min_starters ->
       (required <= count_at pos (td_players td) - count_at pos sends
                    + count_at pos receives)%Z).
Proof.
  unfold team_viable. destruct (dict_get team_rosters team) as [td|].
  - rewrite forallb_forall. split.
    + intros H td' [= <-] pos required Hin.
      specialize (H (pos, required) Hin). cbn [fst snd] in H.
      apply negb_true_iff, Z.ltb_ge in H.
      rewrite counts_after_get in H; [exact H|].
      simpl in Hin. destruct Hin as [[= <- _]|[[= <- _]|[[= <- _]|[[= <- _]|[]]]]];
        simpl; auto.
    + intros H [pos required] Hin. cbn [fst snd].
      apply negb_true_iff, Z.ltb_ge.
      rewrite counts_after_get; [now apply (H td eq_refl)|].
      simpl in Hin. destruct Hin as [[= <- _]|[[= <- _]|[[= <- _]|[[= <- _]|[]]]]];
        simpl; auto.
  - split; [intros _ td [=]|reflexivity].
Qed.

(** X6. A trade is viable exactly when, for each of its two teams that
    is in [team_rosters] and for each of QB, RB, WR, TE, the number of
    rostered players at the position, minus those sent, plus those
    received, reaches the required starters (1, 2, 2, 1).  A team that is
    not in [team_rosters] is not checked. *)
Theorem roster_viability_spec (trade : Trade) (team_rosters : Dict TeamData) :
  check_roster_viability trade team_rosters = true <->
  (forall team sends receives,
     In (team, sends, receives)
        [(team_a trade, team_a_sends trade, team_b_sends trade);
         (team_b trade, team_b_sends trade, team_a_sends trade)] ->
     forall td, dict_get team_rosters team = Some td ->
     forall pos required,
       In (pos, required) [("QB", 1%Z); ("RB", 2%Z); ("WR", 2%Z); ("TE", 1%Z)] ->
       (required <= count_at pos (td_players td) - count_at pos sends
                    + count_at pos receives)%Z).
Proof.
  unfold check_roster_viability. rewrite andb_true_iff, !team_viable_spec.
  change min_starters with [("QB", 1%Z); ("RB", 2%Z); ("WR", 2%Z); ("TE", 1%Z)].
  split.
  - intros [Ha Hb] team sends receives [[= <- <- <-]|[[= <- <- <-]|[]]].
    + exact Ha.
    + exact Hb.
  - intros H. split.
    + apply (H _ _ _ (or_introl eq_refl)).
    + apply (H _ _ _ (or_intror (or_introl eq_refl))).
Qed.

Lemma forallb_agree {A} (f g : A -> bool) (l : list A) :
  (forall x, In x l -> f x = g x) -> forallb f l = forallb g l.
Proof.
  induction l as [|a l IH]; intros H; simpl; [reflexivity|].
  rewrite (H a (or_introl eq_refl)), IH; [reflexivity|].
  intros x Hx. apply H. now right.
Qed.

(** X7. A trade in which both sides send the same number of players at
    each of the four positions is viable exactly when the trade without
    any player is: the answer depends on the rosters only. *)
Theorem balanced_trade_viability (trade : Trade) (team_rosters : Dict TeamData) :
  (forall pos, In pos ["QB"; "RB"; "WR"; "TE"] ->
     count_at pos (team_a_sends trade) = count_at pos (team_b_sends trade)) ->
  check_roster_viability trade team_rosters
  = check_roster_viability
      (mkTrade (ttype trade) (team_a trade) (team_b trade) [] []
               (positions_addressed trade) None None None None None)
      team_rosters.
Proof.
  intros Hbal. unfold check_roster_viability. cbn [team_a team_b team_a_sends team_b_sends].
  assert (Hteam : forall team s r,
    (forall pos, In pos ["QB"; "RB"; "WR"; "TE"] -> count_at pos s = count_at pos r) ->
    team_viable team_rosters team s r = team_viable team_rosters team [] []).
  { intros team s r Hsr. unfold team_viable.
    destruct (dict_get team_rosters team) as [td|]; [|reflexivity].
    apply forallb_agree. intros [pos required] Hin. cbn [fst snd].
    assert (Hpos : In pos ["QB"; "RB"; "WR"; "TE"]).
    { simpl in Hin. destruct Hin as [[= <- _]|[[= <- _]|[[= <- _]|[[= <- _]|[]]]]];
        simpl; auto. }
    rewrite !counts_after_get by exact Hpos.
    rewrite (Hsr pos Hpos).
    replace (count_at pos []) with 0%Z by reflexivity.
    do 2 f_equal. lia. }
  rewrite (Hteam (team_a trade) _ _ Hbal).
  rewrite (Hteam (team_b trade) (team_b_sends trade) (team_a_sends trade)); [reflexivity|].
  intros pos Hpos. symmetry. now apply Hbal.
Qed.

End ViabilityFacts.

(** ** More on the trade graph *)

Module GraphMoreFacts.
Import Num Config Matcher GraphFacts.

Lemma node_add_node (G : Graph) (n m : string) :
  is_Some (add_node G n !! m) <-> is_Some (G !! m) \/ m = n.
Proof.
  unfold add_node. destruct (G !! n) eqn:En.
  - split; [auto|]. intros [H| ->]; [exact H|]. rewrite En. eauto.
  - destruct (decide (n = m)) as [->|Hne].
    + rewrite lookup_insert_eq. split; eauto.
    + rewrite lookup_insert_ne by exact Hne. split; [auto|].
      intros [H| ->]; [exact H|congruence].
Qed.

Lemma node_add_nodes (l : list string) (G : Graph) (m : string) :
  is_Some (fold_left add_node l G !! m) <-> is_Some (G !! m) \/ In m l.
Proof.
  revert G. induction l as [|n l IH]; intros G; simpl; [tauto|].
  rewrite IH, node_add_node. split; [intros [[H|H]|H]|intros [H|[H|H]]]; auto.
Qed.

Lemma node_add_edge (G : Graph) (u v : string) (d : EdgeData) (m : string) :
  is_Some (add_edge G u v d !! m) <-> is_Some (G !! m) \/ m = u \/ m = v.
Proof.
  unfold add_edge.
  set (G1 := add_node (add_node G u) v).
  assert (H1 : is_Some (G1 !! m) <-> is_Some (G !! m) \/ m = u \/ m = v).
  { unfold G1. rewrite !node_add_node. tauto. }
  destruct (decide (m = v)) as [->|Hv].
  - rewrite lookup_insert_eq. split; eauto.
  - rewrite lookup_insert_ne by congruence.
    destruct (decide (m = u)) as [->|Hu].
    + rewrite lookup_insert_eq. split; eauto.
    + rewrite lookup_insert_ne by congruence. exact H1.
Qed.

Lemma node_add_trade_edges (ts : list Trade) (G : Graph) (i : nat) (m : string) :
  is_Some (add_trade_edges G i ts !! m) <-> is_Some (G !! m) \/ In m (teams_of ts).
Proof.
  revert G i. induction ts as [|t ts IH]; intros G i; simpl; [tauto|].
  rewrite IH, node_add_edge. split.
  - intros [[H|[H|H]]|H]; auto.
  - intros [H|[H|[H|H]]]; auto.
Qed.

Lemma teams_set_fold (ts : list Trade) (acc : gset string) (m : string) :
  m ∈ fold_left (fun teams trade => teams ∪ {[team_a trade]} ∪ {[team_b trade]}) ts acc
  <-> m ∈ acc \/ In m (teams_of ts).
Proof.
  revert acc. induction ts as [|t ts IH]; intros acc; simpl; [tauto|].
  rewrite IH. rewrite !elem_of_union, !elem_of_singleton.
  split; [intros [[[H|H]|H]|H]|intros [H|[H|[H|H]]]]; auto.
Qed.

Lemma size_list_to_set_le (l : list string) :
  size (list_to_set l : gset string) <= length l.
Proof.
  induction l as [|x l IH].
  - rewrite list_to_set_nil, size_empty. simpl. lia.
  - rewrite list_to_set_cons, size_union_alt, size_singleton.
    assert (size (list_to_set l ∖ {[x]} : gset string)
            <= size (list_to_set l : gset string))
      by (apply subseteq_size; set_solver).
    simpl. lia.
Qed.

(** X8. The nodes of the graph built from a list of trades are exactly
    the teams that occur in a trade of the list; so there are at most
    twice as many nodes as trades. *)
Theorem build_trade_graph_nodes (valid_trades : list Trade) :
  (forall team, is_Some (build_trade_graph valid_trades !! team)
                <-> In team (teams_of valid_trades)) /\
  size (build_trade_graph valid_trades) <= 2 * length valid_trades.
Proof.
  assert (Hnodes : forall team, is_Some (build_trade_graph valid_trades !! team)
                                <-> In team (teams_of valid_trades)).
  { intros team. unfold build_trade_graph, add_nodes_from.
    rewrite node_add_trade_edges, node_add_nodes, lookup_empty.
    rewrite GeneratorFacts.In_elements, teams_set_fold.
    split; [intros [[H|[H|H]]|H]|intros H]; auto.
    - destruct H as [? [=]].
    - set_solver. }
  split; [exact Hnodes|].
  assert (Hdom : dom (build_trade_graph valid_trades) ⊆ list_to_set (teams_of valid_trades)).
  { intros team Ht. apply elem_of_dom, Hnodes in Ht.
    apply elem_of_list_to_set, list_elem_of_In. exact Ht. }
  rewrite <- size_dom.
  apply Nat.le_trans with (size (list_to_set (teams_of valid_trades) : gset string)).
  - apply subseteq_size. exact Hdom.
  - apply Nat.le_trans with (length (teams_of valid_trades)).
    + apply size_list_to_set_le.
    + clear. induction valid_trades as [|t ts IH]; simpl; lia.
Qed.




End GraphMoreFacts.

(** ** More on the selector *)

Module SelectorFacts.
Import Num NumFacts Config Matcher GraphFacts.

Lemma extract_trades_length (G : Graph) (matching : list (string * string))
    (selected : list Trade) :
  extract_trades G matching = Ok selected -> length selected = length matching.
Proof.
  revert selected. induction matching as [|[u v] M IH]; intros selected; simpl.
  - intros [= <-]. reflexivity.
  - destruct (edge G u v); [|discriminate].
    destruct (extract_trades G M) as [sel|]; [|discriminate].
    intros [= <-]. simpl. f_equal. now apply IH.
Qed.

Lemma extract_trades_from (ts : list Trade) (matching : list (string * string))
    (selected : list Trade) :
  extract_trades (build_trade_graph ts) matching = Ok selected ->
  forall t, In t selected -> In t ts.
Proof.
  revert selected. induction matching as [|[u v] M IH]; intros selected; simpl.
  - intros [= <-] t [].
  - destruct (edge _ u v) as [d|] eqn:Ed; [|discriminate].
    destruct (extract_trades _ M) as [sel|] eqn:Es; [|discriminate].
    intros [= <-] t [<-|Hin].
    + now apply build_trade_graph_sound in Ed.
    + eapply IH; [reflexivity|exact Hin].
Qed.

Lemma extract_trades_ok (G : Graph) (matching : list (string * string)) :
  (forall u v, In (u, v) matching -> exists d, edge G u v = Ok d) ->
  exists selected, extract_trades G matching = Ok selected.
Proof.
  induction matching as [|[u v] M IH]; intros H; simpl; [eauto|].
  destruct (H u v (or_introl eq_refl)) as [d ->].
  destruct IH as [sel ->]; [|eauto].
  intros a b Hab. apply H. now right.
Qed.

(** X14. Widening is cumulative: filtering at a threshold after
    filtering at a larger one gives the list filtered at the smaller one,
    and every trade kept at a threshold is kept at any larger one. *)
Theorem widen_fairness_cumulative (trades : list Trade) (low high : Q) :
  (low <= high)%Q ->
  _widen_fairness_threshold (_widen_fairness_threshold trades high) low
  = _widen_fairness_threshold trades low /\
  (forall t, In t (_widen_fairness_threshold trades low) ->
             In t (_widen_fairness_threshold trades high)).
Proof.
  intros Hle.
  assert (Himp : forall t,
    Qleb (default 0%Q (value_delta_pct t)) (low * 100) = true ->
    Qleb (default 0%Q (value_delta_pct t)) (high * 100) = true).
  { intros t H. apply Qleb_le in H. apply Qleb_le.
    eapply Qle_trans; [exact H|]. apply Qmult_le_compat_r; [exact Hle|discriminate]. }
  split.
  - unfold _widen_fairness_threshold.
    induction trades as [|t ts IH]; simpl; [reflexivity|].
    destruct (Qleb _ (high * 100)) eqn:Eh; simpl.
    + destruct (Qleb _ (low * 100)); [f_equal|]; exact IH.
    + destruct (Qleb _ (low * 100)) eqn:El; [|exact IH].
      apply Himp in El. congruence.
  - intros t Ht. apply filter_In in Ht as [Hin Hl]. apply filter_In.
    split; [exact Hin|now apply Himp].
Qed.

Section WithMatching.
Variable max_weight_matching : Graph -> bool -> Res (list (string * string)).

Local Abbreviation fpm := (find_perfect_matching max_weight_matching).
Local Abbreviation partial := (_find_best_partial_matching max_weight_matching).

(** X10. When [find_perfect_matching] returns trades, the graph has
    [target_teams] nodes, an even number, and exactly [target_teams / 2]
    trades are returned; when [_find_best_partial_matching] returns
    trades, it returns at least one. *)
Theorem matching_result_sizes (G : Graph) (target_teams : nat)
    (trades selected : list Trade) :
  (find_perfect_matching max_weight_matching G target_teams = Ok (Some selected) ->
   size G = target_teams /\ target_teams mod 2 = 0 /\
   length selected = target_teams / 2) /\
  (_find_best_partial_matching max_weight_matching trades = Ok (Some selected) ->
   1 <= length selected).
Proof.
  split.
  - unfold find_perfect_matching, find_perfect_matching_body.
    destruct (size G =? target_teams)%nat eqn:E1; cbn [negb]; [|discriminate].
    destruct (size G mod 2 =? 0)%nat eqn:E2; cbn [negb]; [|discriminate].
    destruct (max_weight_matching G true) as [M|]; [|discriminate].
    destruct (length M =? target_teams / 2)%nat eqn:E3; cbn [negb]; [|discriminate].
    destruct (extract_trades G M) as [sel|] eqn:Es; [|discriminate].
    intros [= <-]. apply Nat.eqb_eq in E1, E2, E3.
    split; [exact E1|]. split; [now rewrite <- E1|].
    rewrite (extract_trades_length _ _ _ Es). exact E3.
  - unfold _find_best_partial_matching. destruct trades as [|t0 ts]; [discriminate|].
    destruct (max_weight_matching _ false) as [[|m M]|]; try discriminate.
    destruct (extract_trades _ (m :: M)) as [sel|] eqn:Es; [|discriminate].
    intros [= <-]. rewrite (extract_trades_length _ _ _ Es). simpl. lia.
Qed.

Lemma fpm_from (ts selected : list Trade) (n : nat) :
  fpm (build_trade_graph ts) n = Ok (Some selected) ->
  forall t, In t selected -> In t ts.
Proof.
  unfold find_perfect_matching, find_perfect_matching_body.
  destruct (negb _); [discriminate|]. destruct (negb _); [discriminate|].
  destruct (max_weight_matching _ true) as [M|]; [|discriminate].
  destruct (negb _); [discriminate|].
  destruct (extract_trades _ M) as [sel|] eqn:Es; [|discriminate].
  intros [= <-]. eapply extract_trades_from. exact Es.
Qed.

Lemma retry_from (ts selected : list Trade) :
  retry_perfect max_weight_matching ts = Ok (Some selected) ->
  forall t, In t selected -> In t ts.
Proof.
  unfold retry_perfect. destruct ts as [|t0 ts]; [discriminate|]. apply fpm_from.
Qed.

Lemma partial_from (ts selected : list Trade) :
  partial ts = Ok (Some selected) -> forall t, In t selected -> In t ts.
Proof.
  unfold _find_best_partial_matching. destruct ts as [|t0 ts]; [discriminate|].
  destruct (max_weight_matching _ false) as [[|m M]|]; try discriminate.
  destruct (extract_trades _ (m :: M)) as [sel|] eqn:Es; [|discriminate].
  intros [= <-]. eapply extract_trades_from. exact Es.
Qed.

Lemma relax_from (ts selected : list Trade) rosters pv :
  relax_constraints_and_retry max_weight_matching ts rosters pv = Ok (Some selected) ->
  forall t, In t selected -> In t ts.
Proof.
  unfold relax_constraints_and_retry, _allow_uneven_trades.
  destruct (retry_perfect _ (_widen_fairness_threshold ts (15 # 100))) as [r1|] eqn:E1;
    [|discriminate].
  destruct (truthy r1).
  { intros [= ->] t Ht. eapply retry_from in E1; [|exact Ht].
    now apply filter_In in E1. }
  destruct (retry_perfect _ (_widen_fairness_threshold ts (20 # 100))) as [r2|] eqn:E2;
    [|discriminate].
  destruct (truthy r2).
  { intros [= ->] t Ht. eapply retry_from in E2; [|exact Ht].
    now apply filter_In in E2. }
  destruct (retry_perfect _ (_lower_starter_gain_threshold ts 1)) as [r3|] eqn:E3;
    [|discriminate].
  destruct (truthy r3).
  { intros [= ->] t Ht. eapply retry_from in E3; [|exact Ht].
    now apply filter_In in E3. }
  destruct (retry_perfect _ ts) as [r4|] eqn:E4; [|discriminate].
  destruct (truthy r4).
  { intros [= ->]. eapply retry_from. exact E4. }
  destruct (partial ts) as [r5|] eqn:E5; [|discriminate].
  destruct (truthy r5); [|discriminate].
  intros [= ->]. eapply partial_from. exact E5.
Qed.

(** X11. Whatever the matching primitive answers, every trade that
    [select_optimal_trades] returns is one of the trades it was given. *)
Theorem selected_trades_are_given (valid_trades : list Trade)
    (team_rosters : Dict TeamData) (player_values : DataFrame) (selected : list Trade) :
  select_optimal_trades max_weight_matching valid_trades team_rosters player_values
    = Ok selected ->
  forall t, In t selected -> In t valid_trades.
Proof.
  unfold select_optimal_trades. destruct valid_trades as [|t0 ts]; [intros [= <-] t []|].
  destruct (candidate_selection _ _ _ _) as [c|] eqn:Ec; [|discriminate].
  intros [= <-] t Ht. unfold validated_selection in Ht.
  destruct c as [[|t1 c]|]; [destruct Ht| |destruct Ht].
  destruct (fst (validate_matching_constraints (t1 :: c))); [|destruct Ht].
  revert t Ht. unfold candidate_selection in Ec.
  destruct (fpm _ _) as [[sel|]|] eqn:E; [| |discriminate].
  - injection Ec as ->. eapply fpm_from. exact E.
  - eapply relax_from. exact Ec.
Qed.

(** X13. When the first perfect-matching attempt on a list of validated
    trades (value difference at most 12.0, both gains at least 3.0) gives
    no solution, none of the four relaxation steps can give one: the
    selection is the partial matching, or nothing. *)
Theorem ladder_reduces_to_partial (valid_trades : list Trade)
    (team_rosters : Dict TeamData) (player_values : DataFrame) :
  (forall t, In t valid_trades ->
     (default 0 (value_delta_pct t) <= 12)%Q /\
     (3 <= default 0 (team_a_gain t))%Q /\
     (3 <= default 0 (team_b_gain t))%Q) ->
  find_perfect_matching max_weight_matching (build_trade_graph valid_trades) TOTAL_TEAMS
    = Ok None ->
  candidate_selection max_weight_matching valid_trades team_rosters player_values
  = match _find_best_partial_matching max_weight_matching valid_trades with
    | Raise e => Raise e
    | Ok r => if truthy r then Ok r else Ok None
    end.
Proof.
  intros Hvalid Hfail.
  assert (H15 : _widen_fairness_threshold valid_trades (15 # 100) = valid_trades).
  { apply MatcherFacts.filter_all. intros t Ht. destruct (Hvalid t Ht) as (Hv & _ & _).
    apply Qleb_le. eapply Qle_trans; [exact Hv|]. discriminate. }
  assert (H20 : _widen_fairness_threshold valid_trades (20 # 100) = valid_trades).
  { apply MatcherFacts.filter_all. intros t Ht. destruct (Hvalid t Ht) as (Hv & _ & _).
    apply Qleb_le. eapply Qle_trans; [exact Hv|]. discriminate. }
  assert (H1 : _lower_starter_gain_threshold valid_trades 1 = valid_trades).
  { apply MatcherFacts.filter_all. intros t Ht. destruct (Hvalid t Ht) as (_ & Ha & Hb).
    apply andb_true_iff. split; apply Qleb_le;
      (eapply Qle_trans; [|eassumption]); discriminate. }
  assert (Hretry : retry_perfect max_weight_matching valid_trades = Ok None).
  { unfold retry_perfect. destruct valid_trades; [reflexivity|exact Hfail]. }
  unfold candidate_selection. rewrite Hfail.
  unfold relax_constraints_and_retry, _allow_uneven_trades.
  rewrite H15, H20, H1, Hretry. reflexivity.
Qed.

Hypothesis matching_returns_edges :
  forall G maxcardinality,
    exists matching,
      max_weight_matching G maxcardinality = Ok matching /\
      forall u v, In (u, v) matching -> exists d, edge G u v = Ok d.

Lemma partial_ok (ts : list Trade) : exists r, partial ts = Ok r.
Proof using matching_returns_edges.
  unfold _find_best_partial_matching. destruct ts as [|t0 ts]; [eauto|].
  destruct (matching_returns_edges (build_trade_graph (t0 :: ts)) false)
    as (M & -> & HM).
  destruct M as [|m M]; [eauto|].
  destruct (extract_trades_ok _ (m :: M) HM) as [sel ->]. eauto.
Qed.

(** X12. If the matching primitive always answers, and only with pairs
    of adjacent nodes, [select_optimal_trades] always returns a list: no
    exception leaves it. *)
Theorem select_optimal_trades_returns (valid_trades : list Trade)
    (team_rosters : Dict TeamData) (player_values : DataFrame) :
  exists selected,
    select_optimal_trades max_weight_matching valid_trades team_rosters player_values
    = Ok selected.
Proof using matching_returns_edges.
  unfold select_optimal_trades. destruct valid_trades as [|t0 ts]; [eauto|].
  assert (Hc : exists c,
    candidate_selection max_weight_matching (t0 :: ts) team_rosters player_values = Ok c).
  { unfold candidate_selection.
    destruct (MatcherFacts.find_perfect_matching_ok max_weight_matching
                (build_trade_graph (t0 :: ts)) TOTAL_TEAMS) as [[sel|] ->]; [eauto|].
    unfold relax_constraints_and_retry.
    repeat (match goal with
            | |- context [retry_perfect _ ?l] =>
                rewrite (MatcherFacts.retry_perfect_eq max_weight_matching l);
                destruct (MatcherFacts.find_perfect_matching_ok max_weight_matching
                            (build_trade_graph l) TOTAL_TEAMS) as [?r ->];
                destruct (truthy _); [eauto|]
            end).
    destruct (partial_ok (t0 :: ts)) as [rp ->]. destruct (truthy rp); eauto. }
  destruct Hc as [c ->]. eauto.
Qed.

End WithMatching.

End SelectorFacts.

(** ** More on the candidate generator *)

Module GeneratorMoreFacts.
Import Num Classifier Generator Pairs GeneratorFacts.

Lemma In_firstn {A} (n : nat) (l : list A) (x : A) : In x (firstn n l) -> In x l.
Proof.
  revert n. induction l as [|a l IH]; intros [|n]; simpl; try tauto.
  intros [H|H]; [now left|right; eapply IH; eassumption].
Qed.

Lemma In_skipn {A} (n : nat) (l : list A) (x : A) : In x (skipn n l) -> In x l.
Proof.
  revert n. induction l as [|a l IH]; intros [|n]; simpl; try tauto.
  intros H. right. eapply IH; eassumption.
Qed.

Lemma with_suffix_In {A} (l : list A) (x : A) (r : list A) :
  In (x, r) (with_suffix l) -> In x l /\ (forall y, In y r -> In y l).
Proof.
  induction l as [|a l IH]; simpl; [tauto|].
  intros [[= <- <-]|H].
  - split; [now left|auto].
  - destruct (IH H) as [H1 H2]. split; [now right|]. intros y Hy. right. now apply H2.
Qed.

(** A player of a team's pool at a position is a record of the enriched
    roster with that position. *)
Lemma players_at_roster (enriched_data : option (Dict TeamData)) (team pos : string)
    (p : Player) :
  In p (Claimed.players_at enriched_data team pos) ->
  exists d td, enriched_data = Some d /\ dict_get d team = Some td /\
               In p (td_players td) /\ position p = Some pos.
Proof.
  unfold Claimed.players_at. destruct enriched_data as [d|]; [|intros []].
  destruct (dict_get d team) as [td|] eqn:Et; [|intros []].
  destruct (str_in pos _); [|intros []].
  intros H. apply stable_sort_In, filter_In in H as [Hin Hpos].
  exists d, td. repeat split; try assumption.
  unfold has_position in Hpos. destruct (position p) as [q|]; [|discriminate].
  apply String.eqb_eq in Hpos. now subst.
Qed.

Lemma second_pool_In (players : Dict (list Player)) (pos1 pos2 : string) (p : Player) :
  In p (second_pool players pos1 pos2) -> In p (dict_get_or players pos2 []).
Proof.
  unfold second_pool. destruct (negb _); intros H.
  - eapply In_firstn; eassumption.
  - eapply In_skipn, In_firstn; eassumption.
Qed.

(** Where the players of a 2-for-2 candidate come from. *)
Lemma in_2_for_2_players name_a pa (A : gset string) name_b pb (B : gset string)
    (t : Trade) :
  In t (_generate_2_for_2_trades name_a pa A name_b pb B) ->
  team_a t = name_a /\ team_b t = name_b /\
  exists a_pos1 a_pos2 b_pos1 b_pos2 a_p1 a_p2 b_p1 b_p2,
    a_pos1 ∈ A /\ a_pos2 ∈ A /\ b_pos1 ∈ B /\ b_pos2 ∈ B /\
    In a_p1 (dict_get_or pa a_pos1 []) /\ In a_p2 (dict_get_or pa a_pos2 []) /\
    In b_p1 (dict_get_or pb b_pos1 []) /\ In b_p2 (dict_get_or pb b_pos2 []) /\
    sleeper_id a_p1 <> sleeper_id a_p2 /\ sleeper_id b_p1 <> sleeper_id b_p2 /\
    team_a_sends t = [a_p1; a_p2] /\ team_b_sends t = [b_p1; b_p2].
Proof.
  unfold _generate_2_for_2_trades. intros H.
  apply in_flat_map in H as ([a_pos1 a_rest] & Ha1 & H).
  apply in_flat_map in H as (a_pos2 & Ha2 & H).
  apply in_flat_map in H as ([b_pos1 b_rest] & Hb1 & H).
  apply in_flat_map in H as (b_pos2 & Hb2 & H).
  apply in_flat_map in H as (a_p1 & Hp1 & H).
  apply in_flat_map in H as (a_p2 & Hp2 & H).
  destruct (String.eqb (sleeper_id a_p1) (sleeper_id a_p2)) eqn:Ea; [destruct H|].
  apply in_flat_map in H as (b_p1 & Hq1 & H).
  apply in_flat_map in H as (b_p2 & Hq2 & H).
  destruct (String.eqb (sleeper_id b_p1) (sleeper_id b_p2)) eqn:Eb; [destruct H|].
  destruct H as [<-|[]].
  apply with_suffix_In in Ha1 as [Ha1 Hra]. apply with_suffix_In in Hb1 as [Hb1 Hrb].
  apply Hra in Ha2. apply Hrb in Hb2.
  apply In_elements in Ha1, Ha2, Hb1, Hb2.
  apply String.eqb_neq in Ea, Eb.
  split; [reflexivity|]. split; [reflexivity|].
  exists a_pos1, a_pos2, b_pos1, b_pos2, a_p1, a_p2, b_p1, b_p2.
  repeat split; try assumption.
  - eapply In_firstn; eassumption.
  - eapply second_pool_In; eassumption.
  - eapply In_firstn; eassumption.
  - eapply second_pool_In; eassumption.
Qed.

(** Every player sent comes from the pool of its team at a position of
    the team's list. *)
Lemma complementary_players (name_a : string) (team_a_data : NeedsSurplus)
    (name_b : string) (team_b_data : NeedsSurplus)
    (enriched_data : option (Dict TeamData)) (t : Trade) :
  In t (_find_complementary_trades name_a team_a_data name_b team_b_data enriched_data) ->
  team_a t = name_a /\ team_b t = name_b /\
  team_a_sends t <> [] /\ team_b_sends t <> [] /\
  (forall p, In p (team_a_sends t) ->
     exists pos, In pos (surplus team_a_data) /\ In pos (needs team_b_data) /\
                 In p (Claimed.players_at enriched_data name_a pos)) /\
  (forall p, In p (team_b_sends t) ->
     exists pos, In pos (surplus team_b_data) /\ In pos (needs team_a_data) /\
                 In p (Claimed.players_at enriched_data name_b pos)).
Proof.
  unfold _find_complementary_trades.
  destruct (_ || _); [intros []|].
  set (A := (list_to_set (surplus team_a_data) ∩ list_to_set (needs team_b_data) : gset string)).
  set (B := (list_to_set (surplus team_b_data) ∩ list_to_set (needs team_a_data) : gset string)).
  assert (HA : forall pos, pos ∈ A ->
            In pos (surplus team_a_data) /\ In pos (needs team_b_data)).
  { intros pos H. apply elem_of_intersection in H as [H1 H2].
    apply elem_of_list_to_set, list_elem_of_In in H1.
    apply elem_of_list_to_set, list_elem_of_In in H2. auto. }
  assert (HB : forall pos, pos ∈ B ->
            In pos (surplus team_b_data) /\ In pos (needs team_a_data)).
  { intros pos H. apply elem_of_intersection in H as [H1 H2].
    apply elem_of_list_to_set, list_elem_of_In in H1.
    apply elem_of_list_to_set, list_elem_of_In in H2. auto. }
  rewrite in_app_iff. intros [H|H].
  - apply in_1_for_1 in H as (a_pos & b_pos & a & b & Ha & Hb & Hpa & Hpb & ->).
    cbn. repeat split; try discriminate.
    + intros p [<-|[]]. exists a_pos. destruct (HA _ Ha). repeat split; try assumption.
      rewrite <- team_players_at. eapply In_firstn; eassumption.
    + intros p [<-|[]]. exists b_pos. destruct (HB _ Hb). repeat split; try assumption.
      rewrite <- team_players_at. eapply In_firstn; eassumption.
  - apply in_2_for_2_players in H
      as (Hta & Htb & a1 & a2 & b1 & b2 & p1 & p2 & q1 & q2 &
          Ha1 & Ha2 & Hb1 & Hb2 & Hp1 & Hp2 & Hq1 & Hq2 & _ & _ & Hsa & Hsb).
    rewrite Hsa, Hsb. repeat split; try assumption; try discriminate.
    + intros p [<-|[<-|[]]].
      * exists a1. destruct (HA _ Ha1). repeat split; try assumption.
        now rewrite <- team_players_at.
      * exists a2. destruct (HA _ Ha2). repeat split; try assumption.
        now rewrite <- team_players_at.
    + intros p [<-|[<-|[]]].
      * exists b1. destruct (HB _ Hb1). repeat split; try assumption.
        now rewrite <- team_players_at.
      * exists b2. destruct (HB _ Hb2). repeat split; try assumption.
        now rewrite <- team_players_at.
Qed.

(** X15. In every candidate between two teams, each player a team sends
    is a record of that team's enriched roster, at a position where the
    team has a surplus and the other team a need. *)
Theorem candidates_send_owned_surplus (name_a : string) (team_a_data : NeedsSurplus)
    (name_b : string) (team_b_data : NeedsSurplus)
    (enriched_data : option (Dict TeamData)) (t : Trade) :
  In t (_find_complementary_trades name_a team_a_data name_b team_b_data enriched_data) ->
  team_a t = name_a /\ team_b t = name_b /\
  (forall p, In p (team_a_sends t) ->
     exists d td pos,
       enriched_data = Some d /\ dict_get d name_a = Some td /\
       In p (td_players td) /\ position p = Some pos /\
       In pos (surplus team_a_data) /\ In pos (needs team_b_data)) /\
  (forall p, In p (team_b_sends t) ->
     exists d td pos,
       enriched_data = Some d /\ dict_get d name_b = Some td /\
       In p (td_players td) /\ position p = Some pos /\
       In pos (surplus team_b_data) /\ In pos (needs team_a_data)).
Proof.
  intros H. apply complementary_players in H as (Ha & Hb & _ & _ & Hsa & Hsb).
  split; [exact Ha|]. split; [exact Hb|]. split.
  - intros p Hp. destruct (Hsa p Hp) as (pos & H1 & H2 & H3).
    apply players_at_roster in H3 as (d & td & ? & ? & ? & ?).
    exists d, td, pos. auto 10.
  - intros p Hp. destruct (Hsb p Hp) as (pos & H1 & H2 & H3).
    apply players_at_roster in H3 as (d & td & ? & ? & ? & ?).
    exists d, td, pos. auto 10.
Qed.

(** X16. A candidate is either 1-for-1, with one player on each side, or
    2-for-2, with two players on each side whose identifiers differ: no
    player is sent twice. *)
Theorem candidates_shape (name_a : string) (team_a_data : NeedsSurplus)
    (name_b : string) (team_b_data : NeedsSurplus)
    (enriched_data : option (Dict TeamData)) (t : Trade) :
  In t (_find_complementary_trades name_a team_a_data name_b team_b_data enriched_data) ->
  (ttype t = Some "1-for-1" /\
   exists a b, team_a_sends t = [a] /\ team_b_sends t = [b]) \/
  (ttype t = Some "2-for-2" /\
   exists a1 a2 b1 b2,
     team_a_sends t = [a1; a2] /\ team_b_sends t = [b1; b2] /\
     sleeper_id a1 <> sleeper_id a2 /\ sleeper_id b1 <> sleeper_id b2).
Proof.
  unfold _find_complementary_trades.
  destruct (_ || _); [intros []|].
  rewrite in_app_iff. intros [H|H].
  - left. apply in_1_for_1 in H as (a_pos & b_pos & a & b & _ & _ & _ & _ & ->).
    split; [reflexivity|]. exists a, b. split; reflexivity.
  - right. pose proof (in_2_for_2 _ _ _ _ _ _ _ H) as (Hty & _ & _).
    apply in_2_for_2_players in H
      as (_ & _ & a1 & a2 & b1 & b2 & p1 & p2 & q1 & q2 &
          _ & _ & _ & _ & _ & _ & _ & _ & Hda & Hdb & Hsa & Hsb).
    split; [exact Hty|]. exists p1, p2, q1, q2. auto.
Qed.

(** X17. Without enriched data, or when one of the two teams has no
    entry in it, no candidate is generated, whatever the needs and the
    surplus of the teams. *)
Theorem no_roster_no_candidate (name_a : string) (team_a_data : NeedsSurplus)
    (name_b : string) (team_b_data : NeedsSurplus)
    (enriched_data : option (Dict TeamData)) :
  (enriched_data = None \/
   (exists d, enriched_data = Some d /\
              (dict_get d name_a = None \/ dict_get d name_b = None))) ->
  _find_complementary_trades name_a team_a_data name_b team_b_data enriched_data = [].
Proof.
  intros Hno.
  destruct (_find_complementary_trades _ _ _ _ _) as [|t ts] eqn:E; [reflexivity|].
  exfalso.
  assert (Hin : In t (_find_complementary_trades name_a team_a_data name_b team_b_data
                        enriched_data)) by (rewrite E; now left).
  apply complementary_players in Hin as (_ & _ & Hna & Hnb & Hsa & Hsb).
  destruct (team_a_sends t) as [|p ps] eqn:Ea; [congruence|].
  destruct (team_b_sends t) as [|q qs] eqn:Eb; [congruence|].
  destruct (Hsa p (or_introl eq_refl)) as (pos & _ & _ & Hp).
  destruct (Hsb q (or_introl eq_refl)) as (pos' & _ & _ & Hq).
  apply players_at_roster in Hp as (d & td & Hd & Htd & _).
  apply players_at_roster in Hq as (d' & td' & Hd' & Htd' & _).
  destruct Hno as [Hno|(d0 & Hd0 & [Hno|Hno])]; congruence.
Qed.

End GeneratorMoreFacts.

(** ** The loop over pairs of teams *)

Module PairsFacts.
Import Num Classifier Generator Pairs GeneratorFacts.

Lemma res_concat_map_ok {A B} (f : A -> Res (list B)) (l : list A) :
  (forall x, In x l -> exists ys, f x = Ok ys) ->
  exists zs, res_concat_map f l = Ok zs /\
             forall z, In z zs <-> exists x ys, In x l /\ f x = Ok ys /\ In z ys.
Proof.
  induction l as [|a l IH]; intros H; simpl.
  - exists []. split; [reflexivity|]. intros z. split; [intros []|].
    intros (x & ys & [] & _).
  - destruct (H a (or_introl eq_refl)) as [ys Hys]. rewrite Hys.
    destruct IH as (zs & -> & Hzs); [intros x Hx; apply H; now right|].
    exists (ys ++ zs). split; [reflexivity|]. intros z. rewrite in_app_iff, Hzs. split.
    + intros [Hz|(x & ys' & Hx & Hf & Hz)].
      * exists a, ys. auto.
      * exists x, ys'. auto.
    + intros (x & ys' & [<-|Hx] & Hf & Hz).
      * left. congruence.
      * right. exists x, ys'. auto.
Qed.

Lemma with_later_split {A} (l : list A) (x : A) (r : list A) :
  In (x, r) (with_later l) -> exists l1, l = l1 ++ x :: r.
Proof.
  induction l as [|a l IH]; simpl; [intros []|].
  intros [[= <- <-]|H].
  - exists []. reflexivity.
  - destruct (IH H) as [l1 ->]. exists (a :: l1). reflexivity.
Qed.

Lemma dict_get_key {V} (d : Dict V) (k : string) :
  In k (dict_keys d) -> exists v, dict_get d k = Some v.
Proof.
  induction d as [|[k' v'] d IH]; simpl; [intros []|].
  destruct (String.eqb k' k) eqn:E; [eauto|].
  intros [H|H]; [|now apply IH].
  apply String.eqb_neq in E. contradiction.
Qed.

(** X18. A valuation table in which an identifier occurs twice makes
    candidate generation raise.  Otherwise it returns, and every candidate
    is one of [_find_complementary_trades] for two teams of
    [team_needs_surplus], the first listed before the second: each
    unordered pair is visited once, and with distinct team names no
    candidate pairs a team with itself. *)
Theorem generate_candidate_trades_pairs (team_needs_surplus : Dict NeedsSurplus)
    (player_values : DataFrame) (enriched_data : option (Dict TeamData)) :
  (~ NoDup (map pv_sleeper_id player_values) ->
   generate_candidate_trades team_needs_surplus player_values enriched_data
   = Raise LibraryError) /\
  (NoDup (map pv_sleeper_id player_values) ->
   exists candidates,
     generate_candidate_trades team_needs_surplus player_values enriched_data
     = Ok candidates /\
     forall t, In t candidates ->
       (exists l1 l2 l3,
          dict_keys team_needs_surplus = l1 ++ team_a t :: l2 ++ team_b t :: l3) /\
       (NoDup (dict_keys team_needs_surplus) -> team_a t <> team_b t) /\
       exists team_a_data team_b_data,
         dict_get team_needs_surplus (team_a t) = Some team_a_data /\
         dict_get team_needs_surplus (team_b t) = Some team_b_data /\
         In t (_find_complementary_trades (team_a t) team_a_data
                 (team_b t) team_b_data enriched_data)).
Proof.
  unfold generate_candidate_trades. split.
  - intros Hdup. now rewrite bool_decide_eq_false_2.
  - intros Hnd. rewrite bool_decide_eq_true_2 by exact Hnd. cbn [negb].
    set (g := fun name_a name_b : string =>
      match needs_of team_needs_surplus name_a with
      | Raise e => Raise e
      | Ok team_a_data =>
          match needs_of team_needs_surplus name_b with
          | Raise e => Raise e
          | Ok team_b_data =>
              Ok (_find_complementary_trades name_a team_a_data name_b team_b_data
                    enriched_data)
          end
      end).
    assert (Hg : forall name_a name_b,
      In name_a (dict_keys team_needs_surplus) ->
      In name_b (dict_keys team_needs_surplus) ->
      exists da db,
        dict_get team_needs_surplus name_a = Some da /\
        dict_get team_needs_surplus name_b = Some db /\
        g name_a name_b
        = Ok (_find_complementary_trades name_a da name_b db enriched_data)).
    { intros na nb Ha Hb.
      destruct (dict_get_key _ _ Ha) as [da Hda].
      destruct (dict_get_key _ _ Hb) as [db Hdb].
      exists da, db. unfold g, needs_of. now rewrite Hda, Hdb. }
    assert (Hin : forall x r, In (x, r) (with_later (dict_keys team_needs_surplus)) ->
      In x (dict_keys team_needs_surplus) /\
      forall y, In y r -> In y (dict_keys team_needs_surplus)).
    { intros x r H. destruct (with_later_split _ _ _ H) as [l1 ->].
      split; [apply in_app_iff; right; now left|].
      intros y Hy. apply in_app_iff. right. now right. }
    destruct (res_concat_map_ok
                (fun '(name_a, later) => res_concat_map (g name_a) later)
                (with_later (dict_keys team_needs_surplus))) as (cands & Hrun & Hc).
    { intros [x r] Hx. destruct (Hin x r Hx) as [Hxk Hrk].
      destruct (res_concat_map_ok (g x) r) as (zs & Hzs & _); [|eauto].
      intros y Hy. destruct (Hg x y Hxk (Hrk y Hy)) as (da & db & _ & _ & ->). eauto. }
    exists cands. split; [exact Hrun|].
    intros t Ht. apply Hc in Ht as ([x r] & ys & Hx & Hf & Ht).
    destruct (Hin x r Hx) as [Hxk Hrk].
    destruct (res_concat_map_ok (g x) r) as (zs & Hzs & Hz).
    { intros y Hy. destruct (Hg x y Hxk (Hrk y Hy)) as (da & db & _ & _ & ->). eauto. }
    rewrite Hzs in Hf. injection Hf as <-.
    apply Hz in Ht as (y & ys' & Hy & Hgy & Ht).
    destruct (Hg x y Hxk (Hrk y Hy)) as (da & db & Hda & Hdb & Hgxy).
    rewrite Hgxy in Hgy. injection Hgy as <-.
    destruct (GeneratorMoreFacts.complementary_players _ _ _ _ _ _ Ht)
      as (Hta & Htb & _).
    rewrite Hta, Htb.
    destruct (with_later_split _ _ _ Hx) as [l1 Hl1].
    apply in_split in Hy as (l2 & l3 & ->).
    split; [exists l1, l2, l3; exact Hl1|]. split.
    + intros Hkeys Heq. rewrite Hl1 in Hkeys.
      apply NoDup_app in Hkeys as (_ & _ & Hkeys).
      apply NoDup_cons in Hkeys as [Hnotin _].
      apply Hnotin. rewrite Heq. apply list_elem_of_In, in_app_iff. right. now left.
    + exists da, db. auto.
Qed.

End PairsFacts.

(** ** Rounding thresholds *)

Module RoundMoreFacts.
Import Num NumFacts RoundFacts.

Lemma Qfloor_lt_Z (q : Q) (z : Z) : (q < inject_Z z)%Q -> (Qfloor q < z)%Z.
Proof.
  intros H. rewrite Zlt_Qlt. eapply Qle_lt_trans; [apply Qfloor_le|exact H].
Qed.

Lemma Qfloor_ge_Z (q : Q) (z : Z) : (inject_Z z <= q)%Q -> (z <= Qfloor q)%Z.
Proof.
  intros H. rewrite <- (Qfloor_Z z) at 1. now apply Qfloor_resp_le.
Qed.

Lemma round_half_even_low (q : Q) :
  (q < - (41 # 2))%Q -> (round_half_even q <= -21)%Z.
Proof.
  intros H.
  assert (Hf : (Qfloor q < -20)%Z).
  { apply Qfloor_lt_Z. eapply Qlt_trans; [exact H|]. reflexivity. }
  destruct (Z.eq_dec (Qfloor q) (-21)%Z) as [Heq|Hne].
  - unfold round_half_even. rewrite Heq.
    assert (Hc : (q - inject_Z (-21) ?= 1 # 2)%Q = Lt).
    { apply Qlt_alt.
      apply Qplus_lt_l with (z := inject_Z (-21)).
      assert (E : (q - inject_Z (-21) + inject_Z (-21) == q)%Q) by ring.
      rewrite E. eapply Qlt_le_trans; [exact H|]. discriminate. }
    rewrite Hc. lia.
  - pose proof (round_half_even_bounds q). lia.
Qed.

Lemma round_half_even_high (q : Q) :
  ((41 # 2) < q)%Q -> (21 <= round_half_even q)%Z.
Proof.
  intros H.
  assert (Hf : (20 <= Qfloor q)%Z).
  { apply Qfloor_ge_Z. apply Qlt_le_weak. eapply Qlt_trans; [|exact H]. reflexivity. }
  destruct (Z.eq_dec (Qfloor q) 20%Z) as [Heq|Hne].
  - unfold round_half_even. rewrite Heq.
    assert (Hc : (q - inject_Z 20 ?= 1 # 2)%Q = Gt).
    { apply Qgt_alt.
      apply Qplus_lt_l with (z := inject_Z 20).
      assert (E : (q - inject_Z 20 + inject_Z 20 == q)%Q) by ring.
      rewrite E. eapply Qle_lt_trans; [|exact H]. discriminate. }
    rewrite Hc. lia.
  - pose proof (round_half_even_bounds q). lia.
Qed.

(** The rounded value is below -2.0 exactly when the value is below
    -2.05. *)
Lemma round1_below_minus_2 (x : Q) : (round1 x < -2)%Q <-> (x < - (205 # 100))%Q.
Proof.
  split.
  - intros H. apply Qnot_le_lt. intros Hge.
    apply round1_mono in Hge. apply (Qlt_irrefl (-2)).
    eapply Qle_lt_trans; [|exact H].
    eapply Qle_trans; [|exact Hge]. vm_compute. discriminate.
  - intros H.
    assert (Hq : (x * 10 < - (41 # 2))%Q).
    { apply Qlt_le_trans with (- (205 # 100) * 10)%Q; [|discriminate].
      apply Qmult_lt_compat_r; [reflexivity|exact H]. }
    apply round_half_even_low in Hq. unfold round1.
    apply Qle_lt_trans with (inject_Z (-21) / 10)%Q; [|reflexivity].
    unfold Qdiv. apply Qmult_le_compat_r; [|discriminate].
    now rewrite <- Zle_Qle.
Qed.

(** The rounded value is above 2.0 exactly when the value is above 2.05. *)
Lemma round1_above_2 (x : Q) : (2 < round1 x)%Q <-> ((205 # 100) < x)%Q.
Proof.
  split.
  - intros H. apply Qnot_le_lt. intros Hle.
    apply round1_mono in Hle. apply (Qlt_irrefl 2).
    eapply Qlt_le_trans; [exact H|].
    eapply Qle_trans; [exact Hle|]. vm_compute. discriminate.
  - intros H.
    assert (Hq : ((41 # 2) < x * 10)%Q).
    { apply Qle_lt_trans with ((205 # 100) * 10)%Q; [discriminate|].
      apply Qmult_lt_compat_r; [reflexivity|exact H]. }
    apply round_half_even_high in Hq. unfold round1.
    apply Qlt_le_trans with (inject_Z 21 / 10)%Q; [reflexivity|].
    unfold Qdiv. apply Qmult_le_compat_r; [|discriminate].
    now rewrite <- Zle_Qle.
Qed.

(** Rounding moves a number by at most one half. *)
Lemma round_half_even_near (q : Q) :
  (q - (1 # 2) <= inject_Z (round_half_even q) <= q + (1 # 2))%Q.
Proof.
  pose proof (Qfloor_le q) as Hlo.
  pose proof (Qlt_floor q) as Hhi.
  rewrite inject_Z_plus in Hhi. change (inject_Z 1) with 1%Q in Hhi.
  unfold round_half_even.
  destruct (q - inject_Z (Qfloor q) ?= 1 # 2)%Q eqn:C.
  - apply Qeq_alt in C.
    destruct (Z.even (Qfloor q));
      [|rewrite inject_Z_plus; change (inject_Z 1) with 1%Q]; lra.
  - apply Qlt_alt in C. lra.
  - apply Qgt_alt in C. rewrite inject_Z_plus. change (inject_Z 1) with 1%Q. lra.
Qed.

(** Rounding to one decimal moves a number by at most 0.05. *)
Lemma round1_near (x : Q) : (x - (1 # 20) <= round1 x <= x + (1 # 20))%Q.
Proof.
  pose proof (round_half_even_near (x * 10)) as [Hlo Hhi].
  unfold round1.
  set (z := inject_Z (round_half_even (x * 10))) in *.
  split.
  - apply Qle_shift_div_l; [reflexivity|]. lra.
  - apply Qle_shift_div_r; [reflexivity|]. lra.
Qed.

(** The rounded value reaches 3.0 exactly when the value reaches 2.95. *)
Lemma round1_at_least_3 (x : Q) : (3 <= round1 x)%Q <-> ((295 # 100) <= x)%Q.
Proof.
  split.
  - intros H. pose proof (round1_near x) as [_ Hhi]. lra.
  - intros H. apply round1_mono in H.
    eapply Qle_trans; [|exact H]. vm_compute. discriminate.
Qed.

End RoundMoreFacts.

(** ** Positional deltas and the classifier *)

Module DeltasFacts.
Import Num NumFacts RoundFacts RoundMoreFacts Lineup Classifier Deltas ClassifierFacts.

Local Open Scope Q_scope.

Lemma dict_set_fresh {V} (d : Dict V) (k : string) (v : V) :
  ~ In k (dict_keys d) -> dict_set d k v = d ++ [(k, v)].
Proof.
  induction d as [|[k' v'] d IH]; simpl; intros H; [reflexivity|].
  destruct (String.eqb k' k) eqn:E.
  - apply String.eqb_eq in E. tauto.
  - rewrite IH by tauto. reflexivity.
Qed.

(** A loop that stores one entry per item of a dictionary builds the
    dictionary with the same keys in the same order. *)
Lemma fold_set_map {V W} (f : V -> W) (l : Dict V) (acc : Dict W) :
  NoDup (dict_keys acc ++ dict_keys l) ->
  fold_left (fun a item => dict_set a (fst item) (f (snd item))) l acc
  = acc ++ map (fun item => (fst item, f (snd item))) l.
Proof.
  revert acc. induction l as [|[k v] l IH]; intros acc Hnd; simpl.
  - now rewrite app_nil_r.
  - rewrite dict_set_fresh.
    + rewrite IH.
      * now rewrite <- app_assoc.
      * unfold dict_keys in *. rewrite map_app. simpl. rewrite <- app_assoc. exact Hnd.
    + intros Hin. simpl in Hnd. apply NoDup_app in Hnd as (_ & Hd & _).
      apply (Hd k); [now apply list_elem_of_In|].
      apply list_elem_of_In. now left.
Qed.

Lemma compute_positional_deltas_map (all_team_starters : Dict (Dict Q))
    (league_medians : option (Dict Q)) :
  NoDup (dict_keys all_team_starters) ->
  compute_positional_deltas all_team_starters league_medians
  = map (fun item =>
           (fst item,
            team_deltas_of (snd item)
              (default (_calculate_league_medians all_team_starters) league_medians)))
        all_team_starters.
Proof.
  intros Hnd. unfold compute_positional_deltas.
  destruct all_team_starters as [|a r] eqn:Hall; [reflexivity|].
  destruct league_medians as [m|]; cbn [default];
    apply (fold_set_map (fun sv => team_deltas_of sv _) (a :: r) []); exact Hnd.
Qed.

Lemma team_deltas_of_value (starter_values league_medians : Dict Q) (pos : string) :
  In pos POSITIONS6 ->
  dict_get_or (team_deltas_of starter_values league_medians) pos 0
  = round1 (dict_get_or starter_values pos 0 - dict_get_or league_medians pos 0).
Proof.
  intros Hpos. unfold team_deltas_of. cbn [POSITIONS6 fold_left].
  simpl in Hpos.
  repeat (destruct Hpos as [<-|Hpos]; [reflexivity|]). destruct Hpos.
Qed.

Lemma deltas_get (all_team_starters : Dict (Dict Q)) (league_medians : option (Dict Q))
    (team : string) (starter_values : Dict Q) :
  NoDup (dict_keys all_team_starters) ->
  In (team, starter_values) all_team_starters ->
  dict_get (identify_needs_surplus
              (compute_positional_deltas all_team_starters league_medians)) team
  = Some (team_needs_surplus
            (team_deltas_of starter_values
               (default (_calculate_league_medians all_team_starters) league_medians))).
Proof.
  intros Hnd Hin. rewrite compute_positional_deltas_map by exact Hnd.
  unfold identify_needs_surplus. apply identify_fold_get.
  - unfold dict_keys. rewrite map_map. exact Hnd.
  - apply in_map_iff. exists (team, starter_values). split; [reflexivity|exact Hin].
Qed.

Lemma needs_from_values (starter_values medians : Dict Q) (pos : string) :
  In pos tradeable_positions ->
  (In pos (needs (team_needs_surplus (team_deltas_of starter_values medians))) <->
   (dict_get_or starter_values pos 0 - dict_get_or medians pos 0 < - (205 # 100))%Q) /\
  (In pos (surplus (team_needs_surplus (team_deltas_of starter_values medians))) <->
   ((205 # 100) < dict_get_or starter_values pos 0 - dict_get_or medians pos 0)%Q).
Proof.
  intros Hpos.
  assert (Hp6 : In pos POSITIONS6) by (simpl in *; tauto).
  unfold team_needs_surplus; cbn [needs surplus].
  rewrite !stable_sort_In, classify_fold_needs, classify_fold_surplus.
  rewrite (team_deltas_of_value _ _ _ Hp6).
  rewrite round1_below_minus_2, round1_above_2.
  cbn [fst snd In]. tauto.
Qed.

(** X19. Through the deltas and the classifier, with the league medians
    given: a tradeable position at which the starter value of the team is
    at least 2.1 below the median is a need of the team, and one at which
    it is at most 2.0 below is not; at least 2.1 above is a surplus, at
    most 2.0 above is not (in between, the answer depends on the rounding
    of the delta to one decimal).  No position is both a need and a
    surplus. *)
Theorem needs_surplus_from_starters (all_team_starters : Dict (Dict Q))
    (league_medians : Dict Q) (team : string) (starter_values : Dict Q) :
  NoDup (dict_keys all_team_starters) ->
  In (team, starter_values) all_team_starters ->
  exists ns,
    dict_get (identify_needs_surplus
                (compute_positional_deltas all_team_starters (Some league_medians))) team
    = Some ns /\
    forall pos, In pos tradeable_positions ->
      let difference :=
        dict_get_or starter_values pos 0 - dict_get_or league_medians pos 0 in
      (difference <= - (21 # 10) -> In pos (needs ns)) /\
      (- (2) <= difference -> ~ In pos (needs ns)) /\
      ((21 # 10) <= difference -> In pos (surplus ns)) /\
      (difference <= 2 -> ~ In pos (surplus ns)) /\
      ~ (In pos (needs ns) /\ In pos (surplus ns)).
Proof.
  intros Hnd Hin.
  exists (team_needs_surplus (team_deltas_of starter_values league_medians)).
  split; [apply (deltas_get all_team_starters (Some league_medians)); assumption|].
  intros pos Hpos difference.
  destruct (needs_from_values starter_values league_medians pos Hpos) as [Hn Hs].
  rewrite Hn, Hs. unfold difference.
  split; [intros; lra|]. split; [intros; lra|].
  split; [intros; lra|]. split; [intros; lra|].
  intros [H1 H2]. lra.
Qed.

Lemma collect_team_six (a b c d e f : list Q) (ts : Dict Q) :
  collect_team
    [("QB", a); ("RB", b); ("WR", c); ("TE", d); ("FLEX", e); ("TOTAL", f)] ts
  = [("QB", a ++ [dict_get_or ts "QB" 0%Q]); ("RB", b ++ [dict_get_or ts "RB" 0%Q]);
     ("WR", c ++ [dict_get_or ts "WR" 0%Q]); ("TE", d ++ [dict_get_or ts "TE" 0%Q]);
     ("FLEX", e ++ [dict_get_or ts "FLEX" 0%Q]);
     ("TOTAL", f ++ [dict_get_or ts "TOTAL" 0%Q])].
Proof. reflexivity. Qed.

Lemma collect_fold_six (tss : list (Dict Q)) (a b c d e f : list Q) :
  fold_left collect_team tss
    [("QB", a); ("RB", b); ("WR", c); ("TE", d); ("FLEX", e); ("TOTAL", f)]
  = [("QB", a ++ map (fun ts => dict_get_or ts "QB" 0%Q) tss);
     ("RB", b ++ map (fun ts => dict_get_or ts "RB" 0%Q) tss);
     ("WR", c ++ map (fun ts => dict_get_or ts "WR" 0%Q) tss);
     ("TE", d ++ map (fun ts => dict_get_or ts "TE" 0%Q) tss);
     ("FLEX", e ++ map (fun ts => dict_get_or ts "FLEX" 0%Q) tss);
     ("TOTAL", f ++ map (fun ts => dict_get_or ts "TOTAL" 0%Q) tss)].
Proof.
  revert a b c d e f. induction tss as [|ts tss IH]; intros; cbn [fold_left map].
  - now rewrite !app_nil_r.
  - rewrite collect_team_six, IH. now rewrite <- !app_assoc.
Qed.

(** The medians of a league with at least one team, in closed form. *)
Lemma league_medians_value (all_team_starters : Dict (Dict Q)) (pos : string) :
  all_team_starters <> [] -> In pos POSITIONS6 ->
  dict_get_or (_calculate_league_medians all_team_starters) pos 0
  = round1 (median (position_column all_team_starters pos)).
Proof.
  intros Hne Hpos. unfold _calculate_league_medians, position_column.
  change (fold_left (fun acc pos => dict_set acc pos ([] : list Q)) POSITIONS6 [])
    with [("QB", @nil Q); ("RB", @nil Q); ("WR", @nil Q); ("TE", @nil Q);
          ("FLEX", @nil Q); ("TOTAL", @nil Q)].
  rewrite collect_fold_six.
  destruct all_team_starters as [|[t ts] r]; [congruence|].
  unfold dict_values. cbn [map snd app fold_left fst].
  simpl in Hpos.
  repeat (destruct Hpos as [<-|Hpos]; [reflexivity|]). destruct Hpos.
Qed.

Lemma median_bounds (l : list Q) (lo hi : Q) :
  l <> [] -> (forall x, In x l -> (lo <= x <= hi)%Q) -> (lo <= median l <= hi)%Q.
Proof.
  intros Hne Hall. unfold median.
  set (s := stable_sort Qleb l).
  assert (Hs : forall x, In x s -> (lo <= x <= hi)%Q).
  { intros x Hx. apply Hall. apply (stable_sort_In Qleb). exact Hx. }
  assert (Hlen : (0 < length s)%nat).
  { unfold s. rewrite (Permutation_length (stable_sort_perm Qleb l)).
    destruct l; [congruence|simpl; lia]. }
  assert (Hnth : forall i, (i < length s)%nat -> (lo <= nth i s 0 <= hi)%Q).
  { intros i Hi. apply Hs. apply nth_In. exact Hi. }
  assert (H2 : (length s / 2 < length s)%nat) by (apply Nat.div_lt; lia).
  destruct (Nat.even (length s)).
  - destruct (Hnth (length s / 2 - 1)%nat ltac:(lia)) as [A1 A2].
    destruct (Hnth _ H2) as [B1 B2].
    split.
    + apply Qle_shift_div_l; [reflexivity|]. lra.
    + apply Qle_shift_div_r; [reflexivity|]. lra.
  - apply Hnth. exact H2.
Qed.

Lemma position_column_bounds (all_team_starters : Dict (Dict Q)) (pos : string)
    (lo hi : Q) :
  (forall team sv, In (team, sv) all_team_starters ->
     (lo <= dict_get_or sv pos 0 <= hi)%Q) ->
  forall x, In x (position_column all_team_starters pos) -> (lo <= x <= hi)%Q.
Proof.
  intros Hall x Hx. unfold position_column, dict_values in Hx.
  rewrite map_map in Hx. apply in_map_iff in Hx as ([team sv] & <- & Hin).
  now apply (Hall team sv).
Qed.

Lemma position_column_nonempty (all_team_starters : Dict (Dict Q)) (pos : string) :
  all_team_starters <> [] -> position_column all_team_starters pos <> [].
Proof. destruct all_team_starters; [congruence|discriminate]. Qed.

(** X20. The league median of a position lies between the rounded smallest
    and the rounded largest starter value of the teams at that position;
    in a league of one team it is that team's rounded value. *)
Theorem league_median_between (all_team_starters : Dict (Dict Q)) (pos : string)
    (lo hi : Q) :
  all_team_starters <> [] -> In pos POSITIONS6 ->
  (forall team sv, In (team, sv) all_team_starters ->
     (lo <= dict_get_or sv pos 0 <= hi)%Q) ->
  (round1 lo <= dict_get_or (_calculate_league_medians all_team_starters) pos 0
   <= round1 hi)%Q.
Proof.
  intros Hne Hpos Hall. rewrite league_medians_value by assumption.
  destruct (median_bounds (position_column all_team_starters pos) lo hi) as [Hlo Hhi].
  - now apply position_column_nonempty.
  - now apply position_column_bounds.
  - split; now apply round1_mono.
Qed.

(** X21. When the starter values of all teams at a tradeable position are
    within 1.9 of each other, no team has a need or a surplus at that
    position (with the medians computed from the league). *)
Theorem close_values_no_need_no_surplus (all_team_starters : Dict (Dict Q))
    (team : string) (starter_values : Dict Q) (pos : string) (lo hi : Q) :
  NoDup (dict_keys all_team_starters) ->
  In (team, starter_values) all_team_starters ->
  In pos tradeable_positions ->
  (forall team' sv, In (team', sv) all_team_starters ->
     (lo <= dict_get_or sv pos 0 <= hi)%Q) ->
  (hi - lo <= 19 # 10)%Q ->
  exists ns,
    dict_get (identify_needs_surplus
                (compute_positional_deltas all_team_starters None)) team = Some ns /\
    ~ In pos (needs ns) /\ ~ In pos (surplus ns).
Proof.
  intros Hnd Hin Hpos Hall Hspread. eexists. split; [eapply deltas_get; eassumption|].
  cbn [default].
  assert (Hne : all_team_starters <> []) by (intros ->; destruct Hin).
  assert (Hp6 : In pos POSITIONS6) by (simpl in *; tauto).
  destruct (needs_from_values starter_values
              (_calculate_league_medians all_team_starters) pos Hpos) as [Hn Hs].
  rewrite Hn, Hs. rewrite league_medians_value by assumption.
  destruct (median_bounds (position_column all_team_starters pos) lo hi) as [Hlo Hhi].
  { now apply position_column_nonempty. }
  { now apply position_column_bounds. }
  pose proof (round1_near (median (position_column all_team_starters pos))) as [R1 R2].
  destruct (Hall team starter_values Hin) as [V1 V2].
  split; intros H; lra.
Qed.

End DeltasFacts.

(** ** The lineup: starters and FLEX *)

Module StartersFacts.
Import Num NumFacts Config Lineup Starters LineupFacts.

Lemma ascii_compare_refl a : Ascii.compare a a = Eq.
Proof. unfold Ascii.compare. apply N.compare_refl. Qed.

Lemma ascii_compare_lt_trans a b c :
  Ascii.compare a b = Lt -> Ascii.compare b c = Lt -> Ascii.compare a c = Lt.
Proof. unfold Ascii.compare. rewrite !N.compare_lt_iff. lia. Qed.

Lemma string_compare_refl s : String.compare s s = Eq.
Proof.
  pose proof (String.compare_antisym s s) as H.
  destruct (String.compare s s); simpl in H; congruence.
Qed.

Lemma string_compare_lt_trans a b c :
  String.compare a b = Lt -> String.compare b c = Lt -> String.compare a c = Lt.
Proof.
  revert b c. induction a as [|x a IH]; intros [|y b] [|z c]; simpl; try easy.
  destruct (Ascii.compare x y) eqn:Exy; destruct (Ascii.compare y z) eqn:Eyz;
    try easy; intros H1 H2.
  - apply Ascii.compare_eq_iff in Exy, Eyz. subst. rewrite ascii_compare_refl. eauto.
  - apply Ascii.compare_eq_iff in Exy. subst. now rewrite Eyz.
  - apply Ascii.compare_eq_iff in Eyz. subst. now rewrite Exy.
  - now rewrite (ascii_compare_lt_trans _ _ _ Exy Eyz).
Qed.

Lemma row_before_total x y : row_before x y = false -> row_before y x = true.
Proof.
  unfold row_before. rewrite (String.compare_antisym (pv_position y)).
  destruct (String.compare (pv_position x) (pv_position y)); simpl; try easy.
  intros H. apply Qleb_gt in H. apply Qleb_le. now apply Qlt_le_weak.
Qed.

Lemma row_before_trans x y z :
  row_before x y = true -> row_before y z = true -> row_before x z = true.
Proof.
  unfold row_before.
  destruct (String.compare (pv_position x) (pv_position y)) eqn:Exy; try easy;
    destruct (String.compare (pv_position y) (pv_position z)) eqn:Eyz; try easy;
    intros H1 H2.
  - apply String.compare_eq_iff in Exy, Eyz. rewrite Exy, Eyz, string_compare_refl.
    apply Qleb_le in H1, H2. apply Qleb_le. eapply Qle_trans; eassumption.
  - apply String.compare_eq_iff in Exy. now rewrite Exy, Eyz.
  - apply String.compare_eq_iff in Eyz. now rewrite <- Eyz, Exy.
  - now rewrite (string_compare_lt_trans _ _ _ Exy Eyz).
Qed.

Lemma value_desc_total x y : value_desc x y = false -> value_desc y x = true.
Proof.
  unfold value_desc. intros H. apply Qleb_gt in H. apply Qleb_le. now apply Qlt_le_weak.
Qed.

Lemma value_desc_trans x y z :
  value_desc x y = true -> value_desc y z = true -> value_desc x z = true.
Proof.
  unfold value_desc. intros H1 H2. apply Qleb_le in H1, H2. apply Qleb_le.
  eapply Qle_trans; eassumption.
Qed.

(** The rows of one position, out of a table sorted by position and
    descending value, are in descending order of value. *)
Lemma pos_rows_sorted (pos : string) (l : DataFrame) :
  StronglySorted (fun a b => row_before a b = true) l ->
  StronglySorted (fun a b => (pv_value b <= pv_value a)%Q)
                 (List.filter (fun r => String.eqb (pv_position r) pos) l).
Proof.
  induction 1 as [|x l Hs IH Hall]; simpl; [constructor|].
  destruct (String.eqb (pv_position x) pos) eqn:Ex; [|exact IH].
  constructor; [exact IH|].
  apply Forall_forall. intros y Hy. apply list_elem_of_In in Hy.
  apply filter_In in Hy as [Hy Ey].
  rewrite Forall_forall in Hall. specialize (Hall y (proj2 (list_elem_of_In _ _) Hy)).
  apply String.eqb_eq in Ex, Ey. unfold row_before in Hall.
  rewrite Ex, Ey, string_compare_refl in Hall. now apply Qleb_le.
Qed.

Lemma sorted_firstn_skipn {A} (R : A -> A -> Prop) (l : list A) (n : nat) :
  StronglySorted R l ->
  forall a b, In a (firstn n l) -> In b (skipn n l) -> R a b.
Proof.
  intros Hs. revert n. induction Hs as [|x l Hs IH Hall]; intros n a b Ha Hb.
  - rewrite firstn_nil in Ha. destruct Ha.
  - destruct n as [|n]; [destruct Ha|].
    simpl in Ha, Hb. destruct Ha as [<-|Ha].
    + rewrite Forall_forall in Hall. apply Hall. apply list_elem_of_In.
      apply (GeneratorMoreFacts.In_skipn n). exact Hb.
    + eapply IH; eassumption.
Qed.


Lemma filter_agree {A} (f g : A -> bool) (l : list A) :
  (forall x, In x l -> f x = g x) -> List.filter f l = List.filter g l.
Proof.
  induction l as [|a l IH]; intros H; simpl; [reflexivity|].
  rewrite (H a (or_introl eq_refl)), IH; [reflexivity|].
  intros x Hx. apply H. now right.
Qed.

Lemma filter_twice {A} (f g : A -> bool) (l : list A) :
  List.filter g (List.filter f l) = List.filter (fun x => f x && g x) l.
Proof.
  induction l as [|a l IH]; simpl; [reflexivity|].
  destruct (f a); simpl; [destruct (g a)|]; now rewrite IH.
Qed.

Lemma filter_perm {A} (f : A -> bool) (l l' : list A) :
  Permutation l l' -> Permutation (List.filter f l) (List.filter f l').
Proof.
  induction 1 as [|x l l' H IH|x y l|l l' l'' H1 IH1 H2 IH2]; simpl.
  - constructor.
  - destruct (f x); [now constructor|exact IH].
  - destruct (f x), (f y); try reflexivity. apply perm_swap.
  - etransitivity; eassumption.
Qed.

Lemma starter_values_explicit (team_roster : TeamRoster) (player_values : DataFrame) :
  calculate_starter_values team_roster player_values =
  let sv :=
    [("QB", py_sum (map pv_value (starters team_roster player_values "QB")));
     ("RB", py_sum (map pv_value (starters team_roster player_values "RB")));
     ("WR", py_sum (map pv_value (starters team_roster player_values "WR")));
     ("TE", py_sum (map pv_value (starters team_roster player_values "TE")));
     ("FLEX", match stable_sort value_desc (flex_eligible team_roster player_values) with
              | [] => 0%Q
              | best_flex :: _ => pv_value best_flex
              end)] in
  sv ++ [("TOTAL", py_sum (dict_values sv))].
Proof.
  unfold calculate_starter_values, flex_eligible, remaining, starters, pos_players,
    sorted_team_players.
  destruct (roster_players team_roster) as [|p ps] eqn:Hp.
  { rewrite (filter_none (fun r => str_in (pv_sleeper_id r) [])) by reflexivity.
    reflexivity. }
  destruct (List.filter _ player_values) as [|r rs] eqn:Hf.
  { reflexivity. }
  set (tp := stable_sort row_before (r :: rs)).
  cbn [fold_left]. unfold position_step.
  cbn -[py_sum stable_sort List.filter firstn skipn Qplus].
  destruct (stable_sort value_desc _); reflexivity.
Qed.

Lemma pos_players_perm (team_roster : TeamRoster) (player_values : DataFrame)
    (pos : string) :
  Permutation (pos_players team_roster player_values pos)
              (team_rows_at team_roster player_values pos).
Proof.
  unfold pos_players, sorted_team_players, team_rows_at.
  rewrite <- filter_twice. apply filter_perm. apply stable_sort_perm.
Qed.

Lemma pos_players_sorted (team_roster : TeamRoster) (player_values : DataFrame)
    (pos : string) :
  StronglySorted (fun a b => (pv_value b <= pv_value a)%Q)
                 (pos_players team_roster player_values pos).
Proof.
  apply pos_rows_sorted. apply stable_sort_sorted.
  - apply row_before_total.
  - apply row_before_trans.
Qed.

(** X22. The starter values depend on the roster only through the rows of
    the table it owns: identifiers the table does not have, the order of
    the identifiers and repeated identifiers make no difference. *)
Theorem starter_values_by_membership (roster1 roster2 : TeamRoster)
    (player_values : DataFrame) :
  (forall row, In row player_values ->
     str_in (pv_sleeper_id row) (roster_players roster1)
     = str_in (pv_sleeper_id row) (roster_players roster2)) ->
  calculate_starter_values roster1 player_values
  = calculate_starter_values roster2 player_values.
Proof.
  intros H. rewrite !starter_values_explicit.
  unfold flex_eligible, remaining, starters, pos_players, sorted_team_players.
  now rewrite (filter_agree _ _ _ H).
Qed.

(** X23. At each of QB, RB, WR and TE the entry is the sum of the values
    of the starters; the starters and the remaining players are together
    the rows of the team at the position; there are as many starters as
    the lineup asks for, or all the rows when there are fewer; and no
    remaining player is worth more than a starter. *)
Theorem starters_are_top_valued (team_roster : TeamRoster) (player_values : DataFrame)
    (pos : string) :
  In pos ["QB"; "RB"; "WR"; "TE"] ->
  Permutation (starters team_roster player_values pos
               ++ remaining team_roster player_values pos)
              (team_rows_at team_roster player_values pos) /\
  length (starters team_roster player_values pos)
  = Nat.min (dict_get_or LINEUP_CONFIG pos 0%nat)
            (length (team_rows_at team_roster player_values pos)) /\
  dict_get_or (calculate_starter_values team_roster player_values) pos 0%Q
  = py_sum (map pv_value (starters team_roster player_values pos)) /\
  forall s b,
    In s (starters team_roster player_values pos) ->
    In b (remaining team_roster player_values pos) ->
    (pv_value b <= pv_value s)%Q.
Proof.
  intros Hpos. split; [|split; [|split]].
  - unfold starters, remaining. rewrite firstn_skipn. apply pos_players_perm.
  - unfold starters. rewrite length_firstn.
    now rewrite (Permutation_length (pos_players_perm team_roster player_values pos)).
  - rewrite starter_values_explicit. simpl in Hpos.
    repeat (destruct Hpos as [<-|Hpos]; [reflexivity|]). destruct Hpos.
  - intros s b Hs Hb. unfold starters, remaining in *.
    exact (sorted_firstn_skipn _ _ _ (pos_players_sorted team_roster player_values pos)
             s b Hs Hb).
Qed.

(** X24. The FLEX entry is the largest value among the players left
    after the starters at RB, WR and TE (a quarterback never fills it), and
    0.0 when nobody is left. *)
Theorem flex_is_best_remaining (team_roster : TeamRoster) (player_values : DataFrame) :
  let flex := dict_get_or (calculate_starter_values team_roster player_values) "FLEX" 0%Q in
  (flex_eligible team_roster player_values = [] -> flex = 0%Q) /\
  (flex_eligible team_roster player_values <> [] ->
   exists b, In b (flex_eligible team_roster player_values) /\ flex = pv_value b) /\
  (forall b, In b (flex_eligible team_roster player_values) ->
     (pv_value b <= flex)%Q).
Proof.
  intros flex. unfold flex. rewrite starter_values_explicit.
  change (dict_get_or _ "FLEX" 0%Q)
    with (match stable_sort value_desc (flex_eligible team_roster player_values) with
          | [] => 0%Q
          | best_flex :: _ => pv_value best_flex
          end).
  pose proof (stable_sort_perm value_desc (flex_eligible team_roster player_values)) as Hperm.
  pose proof (stable_sort_sorted value_desc value_desc_total value_desc_trans
                (flex_eligible team_roster player_values)) as Hsorted.
  destruct (stable_sort value_desc (flex_eligible team_roster player_values))
    as [|best rest] eqn:Hs.
  - apply Permutation_nil in Hperm. rewrite Hperm.
    split; [reflexivity|]. split; [congruence|]. intros b [].
  - split; [|split].
    + intros Hnil. rewrite Hnil in Hperm. symmetry in Hperm.
      now apply Permutation_nil in Hperm.
    + intros _. exists best. split; [|reflexivity].
      eapply Permutation_in; [exact Hperm|now left].
    + intros b Hb. apply (Permutation_in _ (Permutation_sym Hperm)) in Hb.
      destruct Hb as [<-|Hb]; [apply Qle_refl|].
      apply StronglySorted_inv in Hsorted as [_ Hall].
      rewrite Forall_forall in Hall.
      specialize (Hall b (proj2 (list_elem_of_In _ _) Hb)).
      unfold value_desc in Hall. now apply Qleb_le.
Qed.

End StartersFacts.

(** ** The roster after a trade and the starter impact *)

Module SimulateFacts.
Import Num NumFacts Heap Simulate Impact HeapFacts RoundMoreFacts.

Lemma store_insert_id (s : Store) (pid : loc) (items : list string) :
  lists s !! pid = Some items ->
  mkStore (dicts s) (<[pid := items]> (lists s)) = s.
Proof. intros H. rewrite insert_id by exact H. now destruct s. Qed.

(** A loop whose body replaces the list at [pid] by a function of it
    folds that function over the list. *)
Lemma for_each_fold {A} (body : A -> M unit) (g : list string -> A -> list string)
    (pid : loc) :
  (forall x s items, lists s !! pid = Some items ->
     body x s = Ok (tt, mkStore (dicts s) (<[pid := g items x]> (lists s)))) ->
  forall l s items, lists s !! pid = Some items ->
    for_each l body s
    = Ok (tt, mkStore (dicts s) (<[pid := fold_left g l items]> (lists s))).
Proof.
  intros Hbody l. induction l as [|x l IH]; intros s items Hi; simpl.
  - unfold ret. now rewrite store_insert_id.
  - unfold bind. rewrite (Hbody x s items Hi).
    rewrite (IH (mkStore (dicts s) (<[pid := g items x]> (lists s))) (g items x)).
    + cbn. now rewrite insert_insert_eq.
    + cbn. apply lookup_insert_eq.
Qed.

Lemma remove_body_spec (pid : loc) (x : Player) (s : Store) (items : list string) :
  lists s !! pid = Some items ->
  (if negb (String.eqb (sleeper_id x) "")
   then let* present := list_contains pid (sleeper_id x) in
        if present then list_remove pid (sleeper_id x) else ret tt
   else ret tt) s
  = Ok (tt, mkStore (dicts s) (<[pid := remove_sent items x]> (lists s))).
Proof.
  intros Hi. unfold remove_sent.
  destruct (negb (String.eqb (sleeper_id x) "")); cbn [andb].
  - unfold bind, list_contains, bind, read_list, ret. rewrite Hi.
    destruct (str_in (sleeper_id x) items).
    + unfold list_remove, bind, read_list. rewrite Hi.
      now apply write_list_spec with (items := items).
    + unfold ret. now rewrite store_insert_id.
  - unfold ret. now rewrite store_insert_id.
Qed.

Lemma add_body_spec (pid : loc) (x : Player) (s : Store) (items : list string) :
  lists s !! pid = Some items ->
  (if negb (String.eqb (sleeper_id x) "")
   then list_append pid (sleeper_id x) else ret tt) s
  = Ok (tt, mkStore (dicts s) (<[pid := add_received items x]> (lists s))).
Proof.
  intros Hi. unfold add_received.
  destruct (negb (String.eqb (sleeper_id x) "")).
  - unfold list_append, bind, read_list. rewrite Hi.
    now apply write_list_spec with (items := items).
  - unfold ret. now rewrite store_insert_id.
Qed.

Lemma load_roster_players (s : Store) (r : loc) (o : RosterObj) (ids : list string) :
  dicts s !! r = Some o -> players_of s o = Some ids ->
  load_roster r s = Ok (mkTeamRoster ids, s).
Proof.
  intros Ho Hp. unfold load_roster, bind, read_dict, read_list, ret. rewrite Ho.
  unfold players_of in Hp. destruct (ro_players o) as [l|].
  - now rewrite Hp.
  - now injection Hp as <-.
Qed.

Lemma players_of_extends (s s' : Store) (o : RosterObj) (ids : list string) :
  extends s s' -> players_of s o = Some ids -> players_of s' o = Some ids.
Proof.
  intros [_ Hl]. unfold players_of. destruct (ro_players o); [|auto].
  intros H. eapply lookup_weaken; eassumption.
Qed.

(** What [_simulate_trade_roster] returns and leaves in the store. *)
Lemma simulate_run (s : Store) (roster : loc) (removes adds : list Player)
    (o : RosterObj) (ids : list string) :
  dicts s !! roster = Some o -> players_of s o = Some ids ->
  exists r' pid s',
    _simulate_trade_roster roster removes adds s = Ok (r', s') /\
    extends s s' /\
    dicts s !! r' = None /\ lists s !! pid = None /\
    dicts s' !! r' = Some (mkRosterObj (ro_roster_id o) (ro_owner_id o) (Some pid)) /\
    lists s' !! pid = Some (simulated_ids ids removes adds).
Proof.
  intros Ho Hp.
  unfold _simulate_trade_roster.
  unfold bind at 1. unfold dict_copy, bind at 1, read_dict, new_dict. rewrite Ho.
  set (ur := fresh (dom (dicts s))).
  assert (Hur : dicts s !! ur = None) by apply fresh_dict.
  set (s1 := mkStore (<[ur := o]> (dicts s)) (lists s)).
  assert (Hcopy : exists pid s2,
    (let* players := get_players ur in list_copy players) s1 = Ok (pid, s2) /\
    dicts s2 = dicts s1 /\ lists s ⊆ lists s2 /\
    lists s !! pid = None /\ lists s2 !! pid = Some ids).
  { unfold bind, get_players, bind, read_dict. cbn. rewrite lookup_insert_eq.
    unfold players_of in Hp.
    destruct (ro_players o) as [pl|] eqn:Ep.
    - unfold ret, list_copy, bind, read_list, new_list. cbn. rewrite Hp.
      eexists _, _. split; [reflexivity|]. cbn.
      split; [reflexivity|]. split; [apply insert_subseteq, fresh_list|].
      split; [apply fresh_list|apply lookup_insert_eq].
    - injection Hp as <-.
      unfold new_list, list_copy, bind, read_list, new_list. cbn.
      rewrite lookup_insert_eq. cbn.
      set (tmp := fresh (dom (lists s))).
      set (pid := fresh (dom (<[tmp := []]> (lists s)))).
      assert (Hpid : <[tmp := []]> (lists s) !! pid = None)
        by apply not_elem_of_dom, is_fresh.
      apply lookup_insert_None in Hpid as [Hpid Hne].
      eexists pid, _. split; [reflexivity|]. cbn.
      split; [reflexivity|]. split.
      + etransitivity; [apply insert_subseteq, fresh_list|].
        apply insert_subseteq. fold tmp.
        apply lookup_insert_None. split; [exact Hpid|exact Hne].
      + split; [exact Hpid|apply lookup_insert_eq]. }
  destruct Hcopy as (pid & s2 & Hrun & Hd2 & Hl2 & Hfresh & Hpid).
  unfold bind in Hrun. unfold bind at 1.
  destruct (get_players ur s1) as [[players sp]|] eqn:Eg; [|discriminate].
  unfold bind at 1. rewrite Hrun.
  unfold bind at 1.
  rewrite (for_each_fold
             (fun player : Player =>
                if negb (String.eqb (sleeper_id player) "")
                then let* present := list_contains pid (sleeper_id player) in
                     if present then list_remove pid (sleeper_id player) else ret tt
                else ret tt)
             remove_sent pid (remove_body_spec pid) removes s2 ids Hpid).
  unfold bind at 1.
  rewrite (for_each_fold
             (fun player : Player =>
                if negb (String.eqb (sleeper_id player) "")
                then list_append pid (sleeper_id player) else ret tt)
             add_received pid (add_body_spec pid) adds _
             (fold_left remove_sent removes ids)) by (cbn; apply lookup_insert_eq).
  unfold bind, set_players, ret. cbn. rewrite Hd2. cbn. rewrite lookup_insert_eq.
  eexists _, pid, _. split; [reflexivity|]. cbn.
  rewrite !insert_insert_eq.
  split; [split; cbn|].
  - apply insert_subseteq, Hur.
  - apply insert_subseteq_r; [exact Hfresh|exact Hl2].
  - split; [exact Hur|]. split; [exact Hfresh|].
    split; apply lookup_insert_eq.
Qed.

(** X25. [_simulate_trade_roster] returns a new roster object with the
    roster and owner identifiers of the roster it is given, whose players
    list is the list of the given roster after the two loops: for each
    player sent, in order, the first occurrence of a non-empty identifier
    that is present is dropped; each non-empty identifier received is
    appended.  The given roster reads as before. *)
Theorem simulate_trade_roster_content (s : Store) (roster : loc)
    (removes adds : list Player) (o : RosterObj) (ids : list string) :
  dicts s !! roster = Some o -> players_of s o = Some ids ->
  exists r' s',
    _simulate_trade_roster roster removes adds s = Ok (r', s') /\
    load_roster r' s' = Ok (mkTeamRoster (simulated_ids ids removes adds), s') /\
    load_roster roster s' = Ok (mkTeamRoster ids, s') /\
    dicts s !! r' = None /\
    exists o', dicts s' !! r' = Some o' /\
               ro_roster_id o' = ro_roster_id o /\ ro_owner_id o' = ro_owner_id o.
Proof.
  intros Ho Hp.
  destruct (simulate_run s roster removes adds o ids Ho Hp)
    as (r' & pid & s' & Hrun & Hext & Hnew & _ & Hr' & Hpid).
  exists r', s'. split; [exact Hrun|]. split; [|split; [|split]].
  - eapply load_roster_players; [exact Hr'|]. exact Hpid.
  - eapply load_roster_players.
    + eapply lookup_weaken; [exact Ho|apply Hext].
    + eapply players_of_extends; eassumption.
  - exact Hnew.
  - eexists. split; [exact Hr'|]. split; reflexivity.
Qed.

Lemma remove_first_In (x y : string) (l : list string) :
  In x (remove_first y l) -> In x l.
Proof.
  induction l as [|a l IH]; simpl; [tauto|].
  destruct (String.eqb a y); simpl; tauto.
Qed.

Lemma remove_first_other (x y : string) (l : list string) :
  x <> y -> In x l -> In x (remove_first y l).
Proof.
  intros Hne. induction l as [|a l IH]; simpl; [tauto|].
  destruct (String.eqb a y) eqn:E; simpl.
  - apply String.eqb_eq in E. subst a. intros [H|H]; [congruence|exact H].
  - tauto.
Qed.

Lemma remove_first_nodup (y : string) (l : list string) :
  NoDup l -> NoDup (remove_first y l) /\ ~ In y (remove_first y l).
Proof.
  induction 1 as [|a l Ha Hl IH]; simpl.
  - split; [constructor|tauto].
  - destruct (String.eqb a y) eqn:E.
    + apply String.eqb_eq in E. subst a. split; [exact Hl|].
      intros H. apply Ha. now apply list_elem_of_In.
    + apply String.eqb_neq in E. destruct IH as [IH1 IH2]. split.
      * constructor; [|exact IH1]. intros H. apply Ha.
        apply list_elem_of_In. eapply remove_first_In. apply list_elem_of_In. exact H.
      * simpl. tauto.
Qed.

Lemma str_in_In (x : string) (l : list string) : str_in x l = true <-> In x l.
Proof.
  unfold str_in. rewrite existsb_exists. split.
  - intros (y & Hy & E). apply String.eqb_eq in E. now subst.
  - intros H. exists x. split; [exact H|apply String.eqb_refl].
Qed.

Lemma remove_sent_In (x : string) (l : list string) (p : Player) :
  In x (remove_sent l p) -> In x l.
Proof.
  unfold remove_sent. destruct (_ && _); [apply remove_first_In|auto].
Qed.

Lemma removes_In (x : string) (removes : list Player) (l : list string) :
  In x (fold_left remove_sent removes l) -> In x l.
Proof.
  revert l. induction removes as [|p ps IH]; intros l; simpl; [auto|].
  intros H. eapply remove_sent_In. apply IH. exact H.
Qed.

Lemma removes_keep (x : string) (removes : list Player) (l : list string) :
  (forall p, In p removes -> sleeper_id p <> x) ->
  In x l -> In x (fold_left remove_sent removes l).
Proof.
  revert l. induction removes as [|p ps IH]; intros l Hp Hx; simpl; [exact Hx|].
  apply IH; [intros q Hq; apply Hp; now right|].
  unfold remove_sent. destruct (_ && _); [|exact Hx].
  apply remove_first_other; [|exact Hx].
  intros ->. now apply (Hp p); [left|].
Qed.

Lemma removes_nodup (removes : list Player) (l : list string) :
  NoDup l -> NoDup (fold_left remove_sent removes l).
Proof.
  revert l. induction removes as [|p ps IH]; intros l Hl; simpl; [exact Hl|].
  apply IH. unfold remove_sent. destruct (_ && _); [|exact Hl].
  now apply remove_first_nodup.
Qed.

Lemma removes_drop (removes : list Player) (l : list string) (p : Player) :
  NoDup l -> In p removes -> sleeper_id p <> "" ->
  ~ In (sleeper_id p) (fold_left remove_sent removes l).
Proof.
  revert l. induction removes as [|q qs IH]; intros l Hl Hp Hne; simpl; [destruct Hp|].
  destruct Hp as [->|Hp].
  - intros H. apply removes_In in H. revert H. unfold remove_sent.
    destruct (String.eqb (sleeper_id p) "") eqn:E;
      [apply String.eqb_eq in E; contradiction|]. cbn [negb andb].
    destruct (str_in (sleeper_id p) l) eqn:Es.
    + now apply remove_first_nodup.
    + intros H. apply str_in_In in H. congruence.
  - apply IH; [|exact Hp|exact Hne].
    unfold remove_sent. destruct (_ && _); [|exact Hl].
    now apply remove_first_nodup.
Qed.

Lemma adds_In (x : string) (adds : list Player) (l : list string) :
  In x (fold_left add_received adds l) <->
  In x l \/ exists p, In p adds /\ sleeper_id p = x /\ x <> "".
Proof.
  revert l. induction adds as [|q qs IH]; intros l; simpl.
  - split; [auto|]. intros [H|(p & [] & _)]. exact H.
  - rewrite IH. unfold add_received.
    destruct (String.eqb (sleeper_id q) "") eqn:E; cbn [negb].
    + apply String.eqb_eq in E. split.
      * intros [H|(p & Hp & Hx)]; [now left|right; exists p; tauto].
      * intros [H|(p & [->|Hp] & Hx & Hne)]; [now left|congruence|].
        right. exists p. tauto.
    + apply String.eqb_neq in E. rewrite in_app_iff. simpl. split.
      * intros [[H|[H|[]]]|(p & Hp & Hx)]; [now left| |right; exists p; tauto].
        right. exists q. subst x. tauto.
      * intros [H|(p & [->|Hp] & Hx & Hne)]; [tauto|tauto|].
        right. exists p. tauto.
Qed.

(** X26. Who is on the roster after the trade.  An identifier on the new
    list was on the old one or is the non-empty identifier of a player
    received; every non-empty identifier received is on it; an identifier
    of the old list that no player sent carries stays; and when the old
    list has no repeated identifier, the non-empty identifier of a player
    sent is gone unless it is received back. *)
Theorem simulated_roster_membership (ids : list string) (removes adds : list Player) :
  (forall x, In x (simulated_ids ids removes adds) ->
     In x ids \/ exists p, In p adds /\ sleeper_id p = x /\ x <> "") /\
  (forall p, In p adds -> sleeper_id p <> "" ->
     In (sleeper_id p) (simulated_ids ids removes adds)) /\
  (forall x, In x ids -> (forall p, In p removes -> sleeper_id p <> x) ->
     In x (simulated_ids ids removes adds)) /\
  (NoDup ids ->
   forall p, In p removes -> sleeper_id p <> "" ->
     (forall q, In q adds -> sleeper_id q <> sleeper_id p) ->
     ~ In (sleeper_id p) (simulated_ids ids removes adds)).
Proof.
  unfold simulated_ids. split; [|split; [|split]].
  - intros x Hx. apply adds_In in Hx as [Hx|Hx]; [|now right].
    left. eapply removes_In. exact Hx.
  - intros p Hp Hne. apply adds_In. right. exists p. tauto.
  - intros x Hx Hp. apply adds_In. left. now apply removes_keep.
  - intros Hnd p Hp Hne Hadds H. apply adds_In in H as [H|(q & Hq & Hx & _)].
    + exact (removes_drop removes ids p Hnd Hp Hne H).
    + exact (Hadds q Hq Hx).
Qed.

Lemma starter_values_run (s : Store) (r : loc) (o : RosterObj) (ids : list string)
    (pv : DataFrame) :
  dicts s !! r = Some o -> players_of s o = Some ids ->
  Heap.calculate_starter_values r pv s
  = Ok (Lineup.calculate_starter_values (mkTeamRoster ids) pv, s).
Proof.
  intros Ho Hp. unfold Heap.calculate_starter_values, bind, ret.
  now rewrite (load_roster_players s r o ids Ho Hp).
Qed.

Lemma dict_copy_run (s : Store) (r : loc) (o : RosterObj) :
  dicts s !! r = Some o ->
  exists c s', dict_copy r s = Ok (c, s') /\ extends s s' /\ dicts s' !! c = Some o.
Proof.
  intros Ho. unfold dict_copy, bind, read_dict, new_dict. rewrite Ho.
  eexists _, _. split; [reflexivity|]. split.
  - split; cbn; [|reflexivity]. apply insert_subseteq, fresh_dict.
  - cbn. apply lookup_insert_eq.
Qed.

(** The run of [calculate_starter_impact] when both teams are in
    [team_rosters]. *)
Lemma starter_impact_run (trade : Trade) (team_rosters : Dict loc)
    (player_values : DataFrame) (s : Store) (ra rb : loc) (oa ob : RosterObj)
    (ids_a ids_b : list string) :
  dict_get team_rosters (team_a trade) = Some ra ->
  dict_get team_rosters (team_b trade) = Some rb ->
  dicts s !! ra = Some oa -> dicts s !! rb = Some ob ->
  players_of s oa = Some ids_a -> players_of s ob = Some ids_b ->
  exists s',
    calculate_starter_impact trade team_rosters player_values s
    = Ok (if is_empty_obj oa || is_empty_obj ob then (0%Q, 0%Q)
          else (gain ids_a (team_a_sends trade) (team_b_sends trade) player_values,
                gain ids_b (team_b_sends trade) (team_a_sends trade) player_values),
          s').
Proof.
  unfold calculate_starter_impact.
  intros Ha Hb Hoa Hob Hpa Hpb. rewrite Ha, Hb.
  unfold bind at 1. unfold dict_is_empty at 1, bind at 1, read_dict, ret. rewrite Hoa.
  unfold bind at 1. unfold dict_is_empty at 1, bind at 1, read_dict, ret. rewrite Hob.
  fold (is_empty_obj oa). fold (is_empty_obj ob).
  destruct (is_empty_obj oa || is_empty_obj ob); [eexists; reflexivity|].
  unfold bind at 1. rewrite (starter_values_run s ra oa ids_a _ Hoa Hpa).
  unfold bind at 1. rewrite (starter_values_run s rb ob ids_b _ Hob Hpb).
  destruct (dict_copy_run s ra oa Hoa) as (ca & s1 & Hca & X1 & Hca1).
  unfold bind at 1. rewrite Hca.
  destruct (simulate_run s1 ca (team_a_sends trade) (team_b_sends trade) oa ids_a Hca1
              (players_of_extends _ _ _ _ X1 Hpa))
    as (na & pa & s2 & Hna & X2 & _ & _ & Hna2 & Hpa2).
  unfold bind at 1. rewrite Hna.
  assert (X02 : extends s s2) by (eapply extends_trans; eassumption).
  assert (Hob2 : dicts s2 !! rb = Some ob)
    by (eapply lookup_weaken; [exact Hob|apply X02]).
  destruct (dict_copy_run s2 rb ob Hob2) as (cb & s3 & Hcb & X3 & Hcb3).
  unfold bind at 1. rewrite Hcb.
  assert (X03 : extends s s3) by (eapply extends_trans; eassumption).
  destruct (simulate_run s3 cb (team_b_sends trade) (team_a_sends trade) ob ids_b Hcb3
              (players_of_extends _ _ _ _ X03 Hpb))
    as (nb & pb & s4 & Hnb & X4 & _ & _ & Hnb4 & Hpb4).
  unfold bind at 1. rewrite Hnb.
  assert (X24 : extends s2 s4) by (eapply extends_trans; eassumption).
  unfold bind at 1.
  rewrite (starter_values_run s4 na _
             (simulated_ids ids_a (team_a_sends trade) (team_b_sends trade)) _
             (lookup_weaken _ _ _ _ Hna2 (proj1 X24))
             (lookup_weaken _ _ _ _ Hpa2 (proj2 X24))).
  unfold bind at 1.
  rewrite (starter_values_run s4 nb _
             (simulated_ids ids_b (team_b_sends trade) (team_a_sends trade)) _
             Hnb4 Hpb4).
  eexists. reflexivity.
Qed.

Lemma starter_impact_missing (trade : Trade) (team_rosters : Dict loc)
    (player_values : DataFrame) (s : Store) :
  dict_get team_rosters (team_a trade) = None \/
  dict_get team_rosters (team_b trade) = None ->
  calculate_starter_impact trade team_rosters player_values s = Ok ((0%Q, 0%Q), s).
Proof.
  unfold calculate_starter_impact.
  intros [H|H]; rewrite H; [reflexivity|].
  destruct (dict_get team_rosters (team_a trade)); reflexivity.
Qed.

(** X27. The starter impact of a trade.  When a team of the trade is not
    in [team_rosters] the gains are (0.0, 0.0) and nothing is allocated.
    When both are, and their roster objects are in the store, the call
    returns; the gains are (0.0, 0.0) if one of the roster dictionaries is
    empty, and otherwise each gain is the rounded difference between the
    TOTAL of the team's roster after the trade and the TOTAL of its
    roster before. *)
Theorem starter_impact_value (trade : Trade) (team_rosters : Dict loc)
    (player_values : DataFrame) (s : Store) :
  (dict_get team_rosters (team_a trade) = None \/
   dict_get team_rosters (team_b trade) = None ->
   calculate_starter_impact trade team_rosters player_values s = Ok ((0%Q, 0%Q), s)) /\
  (forall ra rb oa ob ids_a ids_b,
     dict_get team_rosters (team_a trade) = Some ra ->
     dict_get team_rosters (team_b trade) = Some rb ->
     dicts s !! ra = Some oa -> dicts s !! rb = Some ob ->
     players_of s oa = Some ids_a -> players_of s ob = Some ids_b ->
     exists s',
       calculate_starter_impact trade team_rosters player_values s
       = Ok (if is_empty_obj oa || is_empty_obj ob then (0%Q, 0%Q)
             else (gain ids_a (team_a_sends trade) (team_b_sends trade) player_values,
                   gain ids_b (team_b_sends trade) (team_a_sends trade) player_values),
             s')).
Proof.
  split; [apply starter_impact_missing|].
  intros ra rb oa ob ids_a ids_b. apply starter_impact_run.
Qed.

(** The answer of [check_meaningful_impact] when both teams are in
    [team_rosters]. *)
Lemma meaningful_impact_run (trade : Trade) (team_rosters : Dict loc)
    (player_values : DataFrame) (s : Store) (ra rb : loc) (oa ob : RosterObj)
    (ids_a ids_b : list string) :
  dict_get team_rosters (team_a trade) = Some ra ->
  dict_get team_rosters (team_b trade) = Some rb ->
  dicts s !! ra = Some oa -> dicts s !! rb = Some ob ->
  players_of s oa = Some ids_a -> players_of s ob = Some ids_b ->
  exists b s',
    check_meaningful_impact trade team_rosters player_values s = Ok (b, s') /\
    (b = true <->
     is_empty_obj oa = false /\ is_empty_obj ob = false /\
     (3 <= gain ids_a (team_a_sends trade) (team_b_sends trade) player_values)%Q /\
     (3 <= gain ids_b (team_b_sends trade) (team_a_sends trade) player_values)%Q).
Proof.
  intros Ha Hb Hoa Hob Hpa Hpb. unfold check_meaningful_impact.
  destruct (starter_impact_run trade team_rosters player_values s ra rb oa ob
              ids_a ids_b Ha Hb Hoa Hob Hpa Hpb) as [s' Hrun].
  unfold bind. rewrite Hrun. unfold ret. eexists _, s'. split; [reflexivity|].
  destruct (is_empty_obj oa); [cbn; split; [discriminate|intros (H & _); discriminate]|].
  destruct (is_empty_obj ob); [cbn; split; [discriminate|intros (_ & H & _); discriminate]|].
  cbn [orb fst snd]. rewrite andb_true_iff, !Qleb_le. unfold Config.MIN_STARTER_GAIN.
  tauto.
Qed.

(** X28. A trade with a team that is not in [team_rosters], or with an
    empty roster dictionary, never has a meaningful impact.  Otherwise it
    has one when, for both teams, the TOTAL of the roster after the trade
    exceeds the TOTAL before by at least 3.0, and it has none when for one
    of them the difference is at most 2.9 (in between, the answer depends
    on the rounding of the gain to one decimal). *)
Theorem meaningful_impact_spec (trade : Trade) (team_rosters : Dict loc)
    (player_values : DataFrame) (s : Store) :
  (dict_get team_rosters (team_a trade) = None \/
   dict_get team_rosters (team_b trade) = None ->
   check_meaningful_impact trade team_rosters player_values s = Ok (false, s)) /\
  (forall ra rb oa ob ids_a ids_b,
     dict_get team_rosters (team_a trade) = Some ra ->
     dict_get team_rosters (team_b trade) = Some rb ->
     dicts s !! ra = Some oa -> dicts s !! rb = Some ob ->
     players_of s oa = Some ids_a -> players_of s ob = Some ids_b ->
     let change_a :=
       total_change ids_a (team_a_sends trade) (team_b_sends trade) player_values in
     let change_b :=
       total_change ids_b (team_b_sends trade) (team_a_sends trade) player_values in
     exists b s',
       check_meaningful_impact trade team_rosters player_values s = Ok (b, s') /\
       (is_empty_obj oa = true \/ is_empty_obj ob = true -> b = false) /\
       (is_empty_obj oa = false -> is_empty_obj ob = false ->
        (3 <= change_a)%Q -> (3 <= change_b)%Q -> b = true) /\
       ((change_a <= 29 # 10)%Q \/ (change_b <= 29 # 10)%Q -> b = false)).
Proof.
  split.
  - intros H. unfold check_meaningful_impact, bind.
    now rewrite (starter_impact_missing _ _ _ _ H).
  - intros ra rb oa ob ids_a ids_b Ha Hb Hoa Hob Hpa Hpb change_a change_b.
    destruct (meaningful_impact_run trade team_rosters player_values s ra rb oa ob
                ids_a ids_b Ha Hb Hoa Hob Hpa Hpb) as (b & s' & Hrun & Hb').
    exists b, s'. split; [exact Hrun|].
    unfold gain in Hb'. fold change_a change_b in Hb'.
    rewrite !round1_at_least_3 in Hb'.
    split; [|split].
    + intros He. destruct b; [|reflexivity].
      destruct (proj1 Hb' eq_refl) as (E1 & E2 & _).
      destruct He as [He|He]; congruence.
    + intros E1 E2 Ca Cb. apply Hb'. repeat split; try assumption; lra.
    + intros Hc. destruct b; [|reflexivity].
      destruct (proj1 Hb' eq_refl) as (_ & _ & Ca & Cb).
      destruct Hc as [Hc|Hc]; lra.
Qed.

End SimulateFacts.

(** ** Joining the valuation table and the rosters *)

Module JoinFacts.
Import Num Lineup Starters Join StartersFacts.


Lemma find_app {A} (f : A -> bool) (l1 l2 : list A) :
  List.find f (l1 ++ l2) = match List.find f l1 with
                           | Some x => Some x
                           | None => List.find f l2
                           end.
Proof.
  induction l1 as [|a l1 IH]; simpl; [reflexivity|].
  destruct (f a); [reflexivity|exact IH].
Qed.

Lemma values_dict_fold (player_values : DataFrame) (acc : Dict PlayerValue)
    (player_id : string) :
  dict_get
    (fold_left (fun d player =>
                  let sleeper_id := pv_sleeper_id player in
                  if negb (String.eqb sleeper_id "") then dict_set d sleeper_id player
                  else d)
               player_values acc) player_id
  = if String.eqb player_id "" then dict_get acc player_id
    else match last_row player_values player_id with
         | Some row => Some row
         | None => dict_get acc player_id
         end.
Proof.
  unfold last_row. revert acc.
  induction player_values as [|row pv IH]; intros acc; cbn [fold_left rev].
  - simpl. now destruct (String.eqb player_id "").
  - rewrite IH, find_app. cbn [List.find].
    destruct (String.eqb player_id "") eqn:E0.
    + apply String.eqb_eq in E0. subst player_id.
      destruct (String.eqb (pv_sleeper_id row) "") eqn:E; cbn [negb]; [reflexivity|].
      apply dict_get_set_ne. intros H. apply String.eqb_neq in E. contradiction.
    + destruct (List.find _ (rev pv)); [reflexivity|].
      destruct (String.eqb (pv_sleeper_id row) player_id) eqn:E.
      * apply String.eqb_eq in E. subst player_id.
        rewrite E0. cbn [negb]. apply dict_get_set_eq.
      * apply String.eqb_neq in E.
        destruct (negb _); [|reflexivity].
        now apply dict_get_set_ne.
Qed.

Lemma values_dict_get (player_values : DataFrame) (player_id : string) :
  dict_get (player_values_dict player_values) player_id
  = if String.eqb player_id "" then None else last_row player_values player_id.
Proof.
  unfold player_values_dict. rewrite values_dict_fold. simpl.
  destruct (String.eqb player_id ""); [reflexivity|].
  now destruct (last_row player_values player_id).
Qed.

Lemma last_row_some (player_values : DataFrame) (player_id : string) :
  is_Some (last_row player_values player_id) <->
  str_in player_id (map pv_sleeper_id player_values) = true.
Proof.
  unfold last_row, str_in. rewrite existsb_exists. split.
  - intros [row Hrow]. apply find_some in Hrow as [Hin E].
    apply String.eqb_eq in E. exists (pv_sleeper_id row). split.
    + apply in_map. now apply in_rev.
    + rewrite E. apply String.eqb_refl.
  - intros (x & Hx & E). apply String.eqb_eq in E. subst x.
    apply in_map_iff in Hx as (row & Hid & Hin).
    destruct (List.find _ (rev player_values)) as [r|] eqn:F; [eauto|].
    pose proof (find_none _ _ F row (proj1 (in_rev _ _) Hin)) as Hn. cbn in Hn.
    rewrite Hid, String.eqb_refl in Hn. discriminate.
Qed.

Lemma enrich_ids (player_values : DataFrame) (player_ids : list string) :
  map sleeper_id (enrich (player_values_dict player_values) player_ids)
  = List.filter (fun player_id =>
                   negb (String.eqb player_id "")
                   && str_in player_id (map pv_sleeper_id player_values))
                player_ids.
Proof.
  unfold enrich. induction player_ids as [|x ids IH]; cbn [flat_map List.filter]; [reflexivity|].
  rewrite map_app, IH, values_dict_get.
  destruct (String.eqb x "") eqn:E0; cbn [negb andb]; [reflexivity|].
  destruct (last_row player_values x) as [row|] eqn:L.
  - assert (H : str_in x (map pv_sleeper_id player_values) = true)
      by (apply last_row_some; rewrite L; eauto).
    now rewrite H.
  - destruct (str_in x (map pv_sleeper_id player_values)) eqn:H; [|reflexivity].
    apply last_row_some in H. rewrite L in H. now destruct H.
Qed.

Lemma enrich_rows (player_values : DataFrame) (player_ids : list string) (p : Player) :
  In p (enrich (player_values_dict player_values) player_ids) ->
  exists row,
    last_row player_values (sleeper_id p) = Some row /\
    position p = Some (pv_position row) /\ value p = Some (pv_value row).
Proof.
  unfold enrich. rewrite in_flat_map. intros (x & _ & Hp).
  rewrite values_dict_get in Hp.
  destruct (String.eqb x ""); [destruct Hp|].
  destruct (last_row player_values x) as [row|] eqn:L; [|destruct Hp].
  destruct Hp as [<-|[]]. exists row. cbn. auto.
Qed.

Lemma join_fold_other {V} (name : SleeperRoster -> string) (data : SleeperRoster -> V)
    (l : list SleeperRoster) (acc : Dict V) (k : string) :
  (forall r, In r l -> name r <> k) ->
  dict_get (fold_left (fun d roster => dict_set d (name roster) (data roster)) l acc) k
  = dict_get acc k.
Proof.
  revert acc. induction l as [|r l IH]; intros acc H; simpl; [reflexivity|].
  rewrite IH by (intros r' Hr'; apply H; now right).
  apply dict_get_set_ne. apply H. now left.
Qed.

Lemma join_get (team_rosters : list SleeperRoster) (player_values : DataFrame)
    (user_mappings : Dict string) (l1 l2 : list SleeperRoster) (roster : SleeperRoster) :
  team_rosters = l1 ++ roster :: l2 ->
  (forall r, In r l2 -> team_name_of user_mappings r <> team_name_of user_mappings roster) ->
  dict_get (join_player_data team_rosters player_values user_mappings)
           (team_name_of user_mappings roster)
  = Some (mkTeamData (enrich (player_values_dict player_values) (sr_players roster))).
Proof.
  intros -> Hl2. unfold join_player_data. rewrite fold_left_app. cbn [fold_left].
  rewrite (join_fold_other (team_name_of user_mappings)
             (fun r => mkTeamData (enrich (player_values_dict player_values) (sr_players r))))
    by exact Hl2.
  apply dict_get_set_eq.
Qed.

(** X29. The entry of a roster in the joined data, when no later roster
    has the same team name (a later one replaces it).  Its players are the
    identifiers of the roster that are non-empty and in the table, in the
    order of the roster, once for each time the roster lists them; each
    carries the position and the value of the last row of the table with
    its identifier. *)
Theorem join_player_data_spec (team_rosters : list SleeperRoster)
    (player_values : DataFrame) (user_mappings : Dict string)
    (l1 l2 : list SleeperRoster) (roster : SleeperRoster) :
  team_rosters = l1 ++ roster :: l2 ->
  (forall r, In r l2 -> team_name_of user_mappings r <> team_name_of user_mappings roster) ->
  exists team,
    dict_get (join_player_data team_rosters player_values user_mappings)
             (team_name_of user_mappings roster) = Some team /\
    map sleeper_id (td_players team)
    = List.filter (fun player_id =>
                     negb (String.eqb player_id "")
                     && str_in player_id (map pv_sleeper_id player_values))
                  (sr_players roster) /\
    forall p, In p (td_players team) ->
      exists row,
        last_row player_values (sleeper_id p) = Some row /\
        position p = Some (pv_position row) /\ value p = Some (pv_value row).
Proof.
  intros Hl Hl2. eexists. split; [now apply (join_get _ _ _ l1 l2)|].
  cbn [td_players]. split; [apply enrich_ids|apply enrich_rows].
Qed.

(** X30. When no row of the table has an empty identifier, the roster the
    pipeline builds from the joined data (the identifiers of the enriched
    players) has the starter values of the league roster it comes from. *)
Theorem pipeline_roster_same_lineup (team_rosters : list SleeperRoster)
    (player_values : DataFrame) (user_mappings : Dict string)
    (l1 l2 : list SleeperRoster) (roster : SleeperRoster) :
  team_rosters = l1 ++ roster :: l2 ->
  (forall r, In r l2 -> team_name_of user_mappings r <> team_name_of user_mappings roster) ->
  (forall row, In row player_values -> pv_sleeper_id row <> "") ->
  exists team,
    dict_get (join_player_data team_rosters player_values user_mappings)
             (team_name_of user_mappings roster) = Some team /\
    calculate_starter_values (pipeline_roster team) player_values
    = calculate_starter_values (mkTeamRoster (sr_players roster)) player_values.
Proof.
  intros Hl Hl2 Hne. eexists. split; [now apply (join_get _ _ _ l1 l2)|].
  unfold pipeline_roster. cbn [td_players]. rewrite enrich_ids.
  rewrite !starter_values_explicit.
  unfold flex_eligible, remaining, starters, pos_players, sorted_team_players.
  cbn [roster_players].
  assert (H : forall row, In row player_values ->
    str_in (pv_sleeper_id row)
      (List.filter (fun player_id =>
                      negb (String.eqb player_id "")
                      && str_in player_id (map pv_sleeper_id player_values))
                   (sr_players roster))
    = str_in (pv_sleeper_id row) (sr_players roster)).
  { intros row Hrow. apply eq_true_iff_eq. unfold str_in at 1 3.
    rewrite !existsb_exists. split.
    - intros (x & Hx & E). apply filter_In in Hx as [Hx _]. eauto.
    - intros (x & Hx & E). exists x. split; [|exact E].
      apply filter_In. split; [exact Hx|].
      apply String.eqb_eq in E. subst x.
      apply andb_true_intro. split.
      + apply negb_true_iff, String.eqb_neq. now apply Hne.
      + unfold str_in. apply existsb_exists. exists (pv_sleeper_id row).
        split; [now apply in_map|apply String.eqb_refl]. }
  now rewrite (filter_agree _ _ _ H).
Qed.

End JoinFacts.

(** ** More theorems at the example data *)

Module MoreInstances.
Import Num Config Lineup Classifier Generator Validator Matcher Examples MoreExamples.
Import Viability Pairs Deltas Starters Simulate Impact Join.

Lemma score_trade_monotone_in_gains_witness :
  (3 <= 4)%Q /\ (3 <= 5)%Q /\
  (score_trade fair_trade 3 3 1 <= score_trade fair_trade 4 5 1)%Q.
Proof.
  assert (H1 : (3 <= 4)%Q) by discriminate.
  assert (H2 : (3 <= 5)%Q) by discriminate.
  split; [exact H1|]. split; [exact H2|].
  exact (ScoreFacts.score_trade_monotone_in_gains fair_trade 3 4 3 5 1 H1 H2).
Defined.

Lemma fairness_percentage_bounds_witness :
  fst (check_fairness_constraint fair_trade sample_player_values) = true /\
  (snd (check_fairness_constraint fair_trade sample_player_values) <= 12)%Q.
Proof.
  assert (H : fst (check_fairness_constraint fair_trade sample_player_values) = true)
    by reflexivity.
  split; [exact H|].
  exact (proj1 (FairnessFacts.fairness_percentage_bounds fair_trade sample_player_values) H).
Defined.

Lemma roster_viability_spec_witness :
  check_roster_viability (one_for_one qb1 rb1) deep_rosters = true /\
  (2 <= count_at "RB" (deep_roster "b") - count_at "RB" [rb1] + count_at "RB" [qb1])%Z.
Proof.
  assert (H : check_roster_viability (one_for_one qb1 rb1) deep_rosters = true)
    by reflexivity.
  split; [exact H|].
  assert (H1 : In ("Team B", [rb1], [qb1])
                  [(team_a (one_for_one qb1 rb1), team_a_sends (one_for_one qb1 rb1),
                    team_b_sends (one_for_one qb1 rb1));
                   (team_b (one_for_one qb1 rb1), team_b_sends (one_for_one qb1 rb1),
                    team_a_sends (one_for_one qb1 rb1))]) by (right; now left).
  assert (H2 : In ("RB", 2%Z) [("QB", 1%Z); ("RB", 2%Z); ("WR", 2%Z); ("TE", 1%Z)])
    by (right; now left).
  exact (proj1 (ViabilityFacts.roster_viability_spec (one_for_one qb1 rb1) deep_rosters) H
           "Team B" [rb1] [qb1] H1 (mkTeamData (deep_roster "b")) eq_refl "RB" 2%Z H2).
Defined.

Lemma balanced_trade_viability_witness :
  (forall pos, In pos ["QB"; "RB"; "WR"; "TE"] ->
     count_at pos (team_a_sends qb_swap) = count_at pos (team_b_sends qb_swap)) /\
  check_roster_viability qb_swap deep_rosters
  = check_roster_viability
      (mkTrade (ttype qb_swap) (team_a qb_swap) (team_b qb_swap) [] []
               (positions_addressed qb_swap) None None None None None)
      deep_rosters.
Proof.
  assert (H : forall pos, In pos ["QB"; "RB"; "WR"; "TE"] ->
     count_at pos (team_a_sends qb_swap) = count_at pos (team_b_sends qb_swap)).
  { intros pos Hpos. simpl in Hpos.
    repeat (destruct Hpos as [<-|Hpos]; [reflexivity|]). destruct Hpos. }
  split; [exact H|].
  exact (ViabilityFacts.balanced_trade_viability qb_swap deep_rosters H).
Defined.

Lemma build_trade_graph_nodes_witness :
  In "Team3" (teams_of sample_valid_trades) /\
  is_Some (build_trade_graph sample_valid_trades !! "Team3").
Proof.
  assert (H : In "Team3" (teams_of sample_valid_trades)) by (vm_compute; tauto).
  split; [exact H|].
  exact (proj2 (proj1 (GraphMoreFacts.build_trade_graph_nodes sample_valid_trades) "Team3") H).
Defined.


Lemma widen_fairness_cumulative_witness :
  (12 # 100 <= 15 # 100)%Q /\
  _widen_fairness_threshold (_widen_fairness_threshold wide_trades (15 # 100)) (12 # 100)
  = _widen_fairness_threshold wide_trades (12 # 100).
Proof.
  assert (H : (12 # 100 <= 15 # 100)%Q) by discriminate.
  split; [exact H|].
  exact (proj1 (SelectorFacts.widen_fairness_cumulative wide_trades (12 # 100) (15 # 100) H)).
Defined.

Lemma matching_result_sizes_witness :
  find_perfect_matching pair_matching (build_trade_graph [trade_1_2]) 2
  = Ok (Some [trade_1_2]) /\
  size (build_trade_graph [trade_1_2]) = 2 /\ 2 mod 2 = 0 /\
  length [trade_1_2] = 2 / 2.
Proof.
  assert (H : find_perfect_matching pair_matching (build_trade_graph [trade_1_2]) 2
              = Ok (Some [trade_1_2])) by reflexivity.
  split; [exact H|].
  exact (proj1 (SelectorFacts.matching_result_sizes pair_matching
                  (build_trade_graph [trade_1_2]) 2 [] [trade_1_2]) H).
Defined.

Lemma selected_trades_are_given_witness :
  select_optimal_trades pair_matching sample_valid_trades [] [] = Ok [trade_1_2] /\
  In trade_1_2 [trade_1_2] /\ In trade_1_2 sample_valid_trades.
Proof.
  assert (H : select_optimal_trades pair_matching sample_valid_trades [] [] = Ok [trade_1_2])
    by reflexivity.
  assert (Hin : In trade_1_2 [trade_1_2]) by (now left).
  split; [exact H|]. split; [exact Hin|].
  exact (SelectorFacts.selected_trades_are_given pair_matching sample_valid_trades [] []
           [trade_1_2] H trade_1_2 Hin).
Defined.

Lemma ladder_reduces_to_partial_witness :
  (forall t, In t sample_valid_trades ->
     (default 0 (value_delta_pct t) <= 12)%Q /\
     (3 <= default 0 (team_a_gain t))%Q /\
     (3 <= default 0 (team_b_gain t))%Q) /\
  find_perfect_matching pair_matching (build_trade_graph sample_valid_trades) TOTAL_TEAMS
  = Ok None /\
  candidate_selection pair_matching sample_valid_trades [] []
  = match _find_best_partial_matching pair_matching sample_valid_trades with
    | Raise e => Raise e
    | Ok r => if truthy r then Ok r else Ok None
    end.
Proof.
  assert (H : forall t, In t sample_valid_trades ->
     (default 0 (value_delta_pct t) <= 12)%Q /\
     (3 <= default 0 (team_a_gain t))%Q /\
     (3 <= default 0 (team_b_gain t))%Q).
  { intros t Ht. simpl in Ht.
    repeat (destruct Ht as [<-|Ht];
            [repeat split; vm_compute; discriminate|]).
    destruct Ht. }
  assert (Hf : find_perfect_matching pair_matching (build_trade_graph sample_valid_trades)
                 TOTAL_TEAMS = Ok None) by reflexivity.
  split; [exact H|]. split; [exact Hf|].
  exact (SelectorFacts.ladder_reduces_to_partial pair_matching sample_valid_trades [] [] H Hf).
Defined.

Lemma first_edge_matching_edges :
  forall G maxcardinality,
    exists matching,
      first_edge_matching G maxcardinality = Ok matching /\
      forall u v, In (u, v) matching -> exists d, edge G u v = Ok d.
Proof.
  intros G mc. eexists. split; [reflexivity|].
  intros u v Hin. apply GeneratorMoreFacts.In_firstn in Hin.
  apply in_flat_map in Hin as ([u' adj] & Hnode & Hnb).
  apply in_map_iff in Hnb as ([v' d] & [= <- <-] & Hd).
  apply list_elem_of_In, elem_of_map_to_list in Hnode.
  apply list_elem_of_In, elem_of_map_to_list in Hd.
  exists d. unfold edge. cbn in *. now rewrite Hnode, Hd.
Defined.

(** The three validated trades with a primitive that matches Team3 with
    Team4: the partial matching looks the pair up in the graph and the
    selector returns its trade. *)
Lemma select_optimal_trades_returns_witness :
  (forall G maxcardinality,
     exists matching,
       first_edge_matching G maxcardinality = Ok matching /\
       forall u v, In (u, v) matching -> exists d, edge G u v = Ok d) /\
  first_edge_matching (build_trade_graph sample_valid_trades) false
  = Ok [("Team3", "Team4")] /\
  select_optimal_trades first_edge_matching sample_valid_trades [] [] = Ok [trade_3_4] /\
  exists selected,
    select_optimal_trades first_edge_matching sample_valid_trades [] [] = Ok selected.
Proof.
  split; [exact first_edge_matching_edges|].
  split; [reflexivity|]. split; [reflexivity|].
  exact (SelectorFacts.select_optimal_trades_returns first_edge_matching
           first_edge_matching_edges sample_valid_trades [] []).
Defined.

Lemma candidates_send_owned_surplus_witness :
  In (one_for_one qb1 rb1)
     (_find_complementary_trades "Team A" needs_a "Team B" needs_b sample_enriched) /\
  exists d td pos,
    sample_enriched = Some d /\ dict_get d "Team A" = Some td /\
    In qb1 (td_players td) /\ position qb1 = Some pos /\
    In pos (surplus needs_a) /\ In pos (needs needs_b).
Proof.
  assert (H : In (one_for_one qb1 rb1)
     (_find_complementary_trades "Team A" needs_a "Team B" needs_b sample_enriched))
    by (left; reflexivity).
  split; [exact H|].
  destruct (GeneratorMoreFacts.candidates_send_owned_surplus
              "Team A" needs_a "Team B" needs_b sample_enriched (one_for_one qb1 rb1) H)
    as (_ & _ & Ha & _).
  apply Ha. now left.
Defined.

Lemma candidates_shape_witness :
  In (one_for_one qb1 rb1)
     (_find_complementary_trades "Team A" needs_a "Team B" needs_b sample_enriched) /\
  ((ttype (one_for_one qb1 rb1) = Some "1-for-1" /\
    exists a b, team_a_sends (one_for_one qb1 rb1) = [a] /\
                team_b_sends (one_for_one qb1 rb1) = [b]) \/
   (ttype (one_for_one qb1 rb1) = Some "2-for-2" /\
    exists a1 a2 b1 b2,
      team_a_sends (one_for_one qb1 rb1) = [a1; a2] /\
      team_b_sends (one_for_one qb1 rb1) = [b1; b2] /\
      sleeper_id a1 <> sleeper_id a2 /\ sleeper_id b1 <> sleeper_id b2)).
Proof.
  assert (H : In (one_for_one qb1 rb1)
     (_find_complementary_trades "Team A" needs_a "Team B" needs_b sample_enriched))
    by (left; reflexivity).
  split; [exact H|].
  exact (GeneratorMoreFacts.candidates_shape
           "Team A" needs_a "Team B" needs_b sample_enriched (one_for_one qb1 rb1) H).
Defined.

Lemma no_roster_no_candidate_witness :
  (@None (Dict TeamData) = None \/
   (exists d, @None (Dict TeamData) = Some d /\
              (dict_get d "Team A" = None \/ dict_get d "Team B" = None))) /\
  _find_complementary_trades "Team A" needs_a "Team B" needs_b None = [].
Proof.
  assert (H : @None (Dict TeamData) = None \/
   (exists d, @None (Dict TeamData) = Some d /\
              (dict_get d "Team A" = None \/ dict_get d "Team B" = None)))
    by (left; reflexivity).
  split; [exact H|].
  exact (GeneratorMoreFacts.no_roster_no_candidate "Team A" needs_a "Team B" needs_b None H).
Defined.

Lemma generate_candidate_trades_pairs_witness :
  NoDup (map pv_sleeper_id sample_player_values) /\
  exists candidates,
    generate_candidate_trades sample_needs_surplus sample_player_values sample_enriched
    = Ok candidates.
Proof.
  assert (H : NoDup (map pv_sleeper_id sample_player_values)) by compute_done.
  split; [exact H|].
  destruct (proj2 (PairsFacts.generate_candidate_trades_pairs
                     sample_needs_surplus sample_player_values sample_enriched) H)
    as (candidates & Hrun & _).
  exists candidates. exact Hrun.
Defined.

Lemma needs_surplus_from_starters_witness :
  NoDup (dict_keys sample_all_starters) /\
  In ("Team A", starters_a) sample_all_starters /\
  exists ns,
    dict_get (identify_needs_surplus
                (compute_positional_deltas sample_all_starters (Some sample_medians)))
             "Team A" = Some ns /\
    In "WR" (needs ns) /\ In "RB" (surplus ns) /\ ~ In "QB" (needs ns).
Proof.
  assert (Hnd : NoDup (dict_keys sample_all_starters)) by compute_done.
  assert (Hin : In ("Team A", starters_a) sample_all_starters) by (now left).
  split; [exact Hnd|]. split; [exact Hin|].
  destruct (DeltasFacts.needs_surplus_from_starters sample_all_starters sample_medians
              "Team A" starters_a Hnd Hin) as (ns & Hget & Hcls).
  exists ns. split; [exact Hget|].
  assert (HWR : In "WR" tradeable_positions) by (vm_compute; tauto).
  assert (HRB : In "RB" tradeable_positions) by (vm_compute; tauto).
  assert (HQB : In "QB" tradeable_positions) by (vm_compute; tauto).
  split; [|split].
  - apply (Hcls "WR" HWR). vm_compute. discriminate.
  - apply (Hcls "RB" HRB). vm_compute. discriminate.
  - apply (Hcls "QB" HQB). vm_compute. discriminate.
Defined.

Lemma league_median_between_witness :
  sample_all_starters <> [] /\ In "QB" POSITIONS6 /\
  (forall team sv, In (team, sv) sample_all_starters ->
     (40 <= dict_get_or sv "QB" 0 <= 50)%Q) /\
  (round1 40 <= dict_get_or (_calculate_league_medians sample_all_starters) "QB" 0
   <= round1 50)%Q.
Proof.
  assert (Hne : sample_all_starters <> []) by discriminate.
  assert (Hpos : In "QB" POSITIONS6) by (now left).
  assert (Hall : forall team sv, In (team, sv) sample_all_starters ->
     (40 <= dict_get_or sv "QB" 0 <= 50)%Q).
  { intros team sv Hin. simpl in Hin.
    repeat (destruct Hin as [[= <- <-]|Hin]; [split; vm_compute; discriminate|]).
    destruct Hin. }
  split; [exact Hne|]. split; [exact Hpos|]. split; [exact Hall|].
  exact (DeltasFacts.league_median_between sample_all_starters "QB" 40 50 Hne Hpos Hall).
Defined.

Lemma close_values_no_need_no_surplus_witness :
  NoDup (dict_keys sample_all_starters) /\
  In ("Team B", starters_b) sample_all_starters /\
  In "TE" tradeable_positions /\
  (forall team' sv, In (team', sv) sample_all_starters ->
     (35 <= dict_get_or sv "TE" 0 <= 365 # 10)%Q) /\
  ((365 # 10) - 35 <= 19 # 10)%Q /\
  exists ns,
    dict_get (identify_needs_surplus (compute_positional_deltas sample_all_starters None))
             "Team B" = Some ns /\
    ~ In "TE" (needs ns) /\ ~ In "TE" (surplus ns).
Proof.
  assert (Hnd : NoDup (dict_keys sample_all_starters)) by compute_done.
  assert (Hin : In ("Team B", starters_b) sample_all_starters) by (right; now left).
  assert (Hpos : In "TE" tradeable_positions) by (vm_compute; tauto).
  assert (Hall : forall team' sv, In (team', sv) sample_all_starters ->
     (35 <= dict_get_or sv "TE" 0 <= 365 # 10)%Q).
  { intros team sv H. simpl in H.
    repeat (destruct H as [[= <- <-]|H]; [split; vm_compute; discriminate|]).
    destruct H. }
  assert (Hs : ((365 # 10) - 35 <= 19 # 10)%Q) by (vm_compute; discriminate).
  split; [exact Hnd|]. split; [exact Hin|]. split; [exact Hpos|].
  split; [exact Hall|]. split; [exact Hs|].
  exact (DeltasFacts.close_values_no_need_no_surplus sample_all_starters "Team B"
           starters_b "TE" 35 (365 # 10) Hnd Hin Hpos Hall Hs).
Defined.

Lemma starter_values_by_membership_witness :
  (forall row, In row sample_player_values ->
     str_in (pv_sleeper_id row) (roster_players sample_team_roster)
     = str_in (pv_sleeper_id row) (roster_players shuffled_roster)) /\
  calculate_starter_values sample_team_roster sample_player_values
  = calculate_starter_values shuffled_roster sample_player_values.
Proof.
  assert (H : forall row, In row sample_player_values ->
     str_in (pv_sleeper_id row) (roster_players sample_team_roster)
     = str_in (pv_sleeper_id row) (roster_players shuffled_roster)).
  { intros row Hrow. simpl in Hrow.
    repeat (destruct Hrow as [<-|Hrow]; [reflexivity|]). destruct Hrow. }
  split; [exact H|].
  exact (StartersFacts.starter_values_by_membership sample_team_roster shuffled_roster
           sample_player_values H).
Defined.

Lemma starters_are_top_valued_witness :
  In "RB" ["QB"; "RB"; "WR"; "TE"] /\
  dict_get_or (calculate_starter_values sample_team_roster sample_player_values) "RB" 0%Q
  = py_sum (map pv_value (starters sample_team_roster sample_player_values "RB")).
Proof.
  assert (H : In "RB" ["QB"; "RB"; "WR"; "TE"]) by (right; now left).
  split; [exact H|].
  exact (proj1 (proj2 (proj2 (StartersFacts.starters_are_top_valued
                                sample_team_roster sample_player_values "RB" H)))).
Defined.

(** A roster with a third running back worth 30.1 and a third receiver
    worth 33.3: the receiver fills FLEX. *)
Lemma flex_is_best_remaining_witness :
  flex_eligible deep_team_roster deep_player_values <> [] /\
  dict_get_or (calculate_starter_values deep_team_roster deep_player_values) "FLEX" 0%Q
  = 333 # 10 /\
  (exists b, In b (flex_eligible deep_team_roster deep_player_values) /\
             dict_get_or (calculate_starter_values deep_team_roster deep_player_values)
               "FLEX" 0%Q = pv_value b) /\
  (forall b, In b (flex_eligible deep_team_roster deep_player_values) ->
     (pv_value b
      <= dict_get_or (calculate_starter_values deep_team_roster deep_player_values)
           "FLEX" 0%Q)%Q).
Proof.
  assert (H : flex_eligible deep_team_roster deep_player_values <> []) by discriminate.
  split; [exact H|]. split; [reflexivity|].
  destruct (StartersFacts.flex_is_best_remaining deep_team_roster deep_player_values)
    as (_ & Hsome & Hall).
  split; [exact (Hsome H)|exact Hall].
Defined.

Lemma simulate_trade_roster_content_witness :
  Heap.dicts sample_store !! 1%positive
  = Some (Heap.mkRosterObj (Some 1%Z) (Some "user1") (Some 1%positive)) /\
  players_of sample_store (Heap.mkRosterObj (Some 1%Z) (Some "user1") (Some 1%positive))
  = Some ["421"; "4046"; "6794"] /\
  exists r' s',
    Heap._simulate_trade_roster 1%positive (team_a_sends sample_trade)
      (team_b_sends sample_trade) sample_store = Ok (r', s') /\
    Heap.load_roster r' s'
    = Ok (mkTeamRoster (simulated_ids ["421"; "4046"; "6794"] (team_a_sends sample_trade)
                          (team_b_sends sample_trade)), s').
Proof.
  assert (H1 : Heap.dicts sample_store !! 1%positive
               = Some (Heap.mkRosterObj (Some 1%Z) (Some "user1") (Some 1%positive)))
    by reflexivity.
  assert (H2 : players_of sample_store
                 (Heap.mkRosterObj (Some 1%Z) (Some "user1") (Some 1%positive))
               = Some ["421"; "4046"; "6794"]) by reflexivity.
  split; [exact H1|]. split; [exact H2|].
  destruct (SimulateFacts.simulate_trade_roster_content sample_store 1%positive
              (team_a_sends sample_trade) (team_b_sends sample_trade) _ _ H1 H2)
    as (r' & s' & Hrun & Hload & _).
  exists r', s'. split; [exact Hrun|exact Hload].
Defined.

Lemma simulated_roster_membership_witness :
  In "4046" ["421"; "4046"; "6794"] /\
  (forall p, In p (team_a_sends sample_trade) -> sleeper_id p <> "4046") /\
  In "4046" (simulated_ids ["421"; "4046"; "6794"] (team_a_sends sample_trade)
               (team_b_sends sample_trade)).
Proof.
  assert (H1 : In "4046" ["421"; "4046"; "6794"]) by (right; now left).
  assert (H2 : forall p, In p (team_a_sends sample_trade) -> sleeper_id p <> "4046").
  { intros p [<-|[]]. discriminate. }
  split; [exact H1|]. split; [exact H2|].
  exact (proj1 (proj2 (proj2 (SimulateFacts.simulated_roster_membership
                                ["421"; "4046"; "6794"] (team_a_sends sample_trade)
                                (team_b_sends sample_trade)))) "4046" H1 H2).
Defined.

Lemma starter_impact_value_witness :
  dict_get sample_team_rosters (team_a sample_trade) = Some 1%positive /\
  dict_get sample_team_rosters (team_b sample_trade) = Some 2%positive /\
  Heap.dicts sample_store !! 1%positive
  = Some (Heap.mkRosterObj (Some 1%Z) (Some "user1") (Some 1%positive)) /\
  Heap.dicts sample_store !! 2%positive
  = Some (Heap.mkRosterObj (Some 2%Z) (Some "user2") (Some 2%positive)) /\
  players_of sample_store (Heap.mkRosterObj (Some 1%Z) (Some "user1") (Some 1%positive))
  = Some ["421"; "4046"; "6794"] /\
  players_of sample_store (Heap.mkRosterObj (Some 2%Z) (Some "user2") (Some 2%positive))
  = Some ["4035"; "515"; "858"] /\
  exists s',
    Heap.calculate_starter_impact sample_trade sample_team_rosters sample_player_values
      sample_store
    = Ok ((gain ["421"; "4046"; "6794"] (team_a_sends sample_trade)
             (team_b_sends sample_trade) sample_player_values,
           gain ["4035"; "515"; "858"] (team_b_sends sample_trade)
             (team_a_sends sample_trade) sample_player_values), s').
Proof.
  assert (Ha : dict_get sample_team_rosters (team_a sample_trade) = Some 1%positive)
    by reflexivity.
  assert (Hb : dict_get sample_team_rosters (team_b sample_trade) = Some 2%positive)
    by reflexivity.
  assert (Hoa : Heap.dicts sample_store !! 1%positive
                = Some (Heap.mkRosterObj (Some 1%Z) (Some "user1") (Some 1%positive)))
    by reflexivity.
  assert (Hob : Heap.dicts sample_store !! 2%positive
                = Some (Heap.mkRosterObj (Some 2%Z) (Some "user2") (Some 2%positive)))
    by reflexivity.
  assert (Hpa : players_of sample_store
                  (Heap.mkRosterObj (Some 1%Z) (Some "user1") (Some 1%positive))
                = Some ["421"; "4046"; "6794"]) by reflexivity.
  assert (Hpb : players_of sample_store
                  (Heap.mkRosterObj (Some 2%Z) (Some "user2") (Some 2%positive))
                = Some ["4035"; "515"; "858"]) by reflexivity.
  repeat (split; [assumption|]).
  exact (proj2 (SimulateFacts.starter_impact_value sample_trade sample_team_rosters
                  sample_player_values sample_store)
           1%positive 2%positive _ _ _ _ Ha Hb Hoa Hob Hpa Hpb).
Defined.

Lemma meaningful_impact_spec_witness :
  dict_get sample_team_rosters (team_a sample_trade) = Some 1%positive /\
  dict_get sample_team_rosters (team_b sample_trade) = Some 2%positive /\
  Heap.dicts sample_store !! 1%positive
  = Some (Heap.mkRosterObj (Some 1%Z) (Some "user1") (Some 1%positive)) /\
  Heap.dicts sample_store !! 2%positive
  = Some (Heap.mkRosterObj (Some 2%Z) (Some "user2") (Some 2%positive)) /\
  players_of sample_store (Heap.mkRosterObj (Some 1%Z) (Some "user1") (Some 1%positive))
  = Some ["421"; "4046"; "6794"] /\
  players_of sample_store (Heap.mkRosterObj (Some 2%Z) (Some "user2") (Some 2%positive))
  = Some ["4035"; "515"; "858"] /\
  (total_change ["421"; "4046"; "6794"] (team_a_sends sample_trade)
     (team_b_sends sample_trade) sample_player_values <= 29 # 10)%Q /\
  exists s',
    check_meaningful_impact sample_trade sample_team_rosters sample_player_values
      sample_store = Ok (false, s').
Proof.
  assert (Ha : dict_get sample_team_rosters (team_a sample_trade) = Some 1%positive)
    by reflexivity.
  assert (Hb : dict_get sample_team_rosters (team_b sample_trade) = Some 2%positive)
    by reflexivity.
  assert (Hoa : Heap.dicts sample_store !! 1%positive
                = Some (Heap.mkRosterObj (Some 1%Z) (Some "user1") (Some 1%positive)))
    by reflexivity.
  assert (Hob : Heap.dicts sample_store !! 2%positive
                = Some (Heap.mkRosterObj (Some 2%Z) (Some "user2") (Some 2%positive)))
    by reflexivity.
  assert (Hpa : players_of sample_store
                  (Heap.mkRosterObj (Some 1%Z) (Some "user1") (Some 1%positive))
                = Some ["421"; "4046"; "6794"]) by reflexivity.
  assert (Hpb : players_of sample_store
                  (Heap.mkRosterObj (Some 2%Z) (Some "user2") (Some 2%positive))
                = Some ["4035"; "515"; "858"]) by reflexivity.
  assert (Hc : (total_change ["421"; "4046"; "6794"] (team_a_sends sample_trade)
                  (team_b_sends sample_trade) sample_player_values <= 29 # 10)%Q)
    by (vm_compute; discriminate).
  repeat (split; [assumption|]).
  destruct (proj2 (SimulateFacts.meaningful_impact_spec sample_trade sample_team_rosters
                     sample_player_values sample_store)
              1%positive 2%positive _ _ _ _ Ha Hb Hoa Hob Hpa Hpb)
    as (b & s' & Hrun & _ & _ & Hlow).
  exists s'. rewrite <- (Hlow (or_introl Hc)). exact Hrun.
Defined.

Lemma join_player_data_spec_witness :
  sample_sleeper_rosters
  = [] ++ mkSleeperRoster (Some "user1") (Some 1%Z) ["421"; "999"; "4046"]
       :: [mkSleeperRoster None (Some 2%Z) ["4035"]] /\
  (forall r, In r [mkSleeperRoster None (Some 2%Z) ["4035"]] ->
     team_name_of sample_user_mappings r
     <> team_name_of sample_user_mappings
          (mkSleeperRoster (Some "user1") (Some 1%Z) ["421"; "999"; "4046"])) /\
  exists team,
    dict_get (join_player_data sample_sleeper_rosters sample_player_values
                sample_user_mappings) "Alice" = Some team /\
    map sleeper_id (td_players team) = ["421"; "4046"].
Proof.
  assert (H1 : sample_sleeper_rosters
    = [] ++ mkSleeperRoster (Some "user1") (Some 1%Z) ["421"; "999"; "4046"]
         :: [mkSleeperRoster None (Some 2%Z) ["4035"]]) by reflexivity.
  assert (H2 : forall r, In r [mkSleeperRoster None (Some 2%Z) ["4035"]] ->
     team_name_of sample_user_mappings r
     <> team_name_of sample_user_mappings
          (mkSleeperRoster (Some "user1") (Some 1%Z) ["421"; "999"; "4046"])).
  { intros r [<-|[]]. vm_compute. discriminate. }
  split; [exact H1|]. split; [exact H2|].
  destruct (JoinFacts.join_player_data_spec sample_sleeper_rosters sample_player_values
              sample_user_mappings [] [mkSleeperRoster None (Some 2%Z) ["4035"]]
              (mkSleeperRoster (Some "user1") (Some 1%Z) ["421"; "999"; "4046"]) H1 H2)
    as (team & Hget & Hids & _).
  exists team. split; [exact Hget|exact Hids].
Defined.

Lemma pipeline_roster_same_lineup_witness :
  sample_sleeper_rosters
  = [] ++ mkSleeperRoster (Some "user1") (Some 1%Z) ["421"; "999"; "4046"]
       :: [mkSleeperRoster None (Some 2%Z) ["4035"]] /\
  (forall r, In r [mkSleeperRoster None (Some 2%Z) ["4035"]] ->
     team_name_of sample_user_mappings r
     <> team_name_of sample_user_mappings
          (mkSleeperRoster (Some "user1") (Some 1%Z) ["421"; "999"; "4046"])) /\
  (forall row, In row sample_player_values -> pv_sleeper_id row <> "") /\
  exists team,
    dict_get (join_player_data sample_sleeper_rosters sample_player_values
                sample_user_mappings) "Alice" = Some team /\
    calculate_starter_values (pipeline_roster team) sample_player_values
    = calculate_starter_values (mkTeamRoster ["421"; "999"; "4046"]) sample_player_values.
Proof.
  assert (H1 : sample_sleeper_rosters
    = [] ++ mkSleeperRoster (Some "user1") (Some 1%Z) ["421"; "999"; "4046"]
         :: [mkSleeperRoster None (Some 2%Z) ["4035"]]) by reflexivity.
  assert (H2 : forall r, In r [mkSleeperRoster None (Some 2%Z) ["4035"]] ->
     team_name_of sample_user_mappings r
     <> team_name_of sample_user_mappings
          (mkSleeperRoster (Some "user1") (Some 1%Z) ["421"; "999"; "4046"])).
  { intros r [<-|[]]. vm_compute. discriminate. }
  assert (H3 : forall row, In row sample_player_values -> pv_sleeper_id row <> "").
  { intros row Hrow. simpl in Hrow.
    repeat (destruct Hrow as [<-|Hrow]; [discriminate|]). destruct Hrow. }
  split; [exact H1|]. split; [exact H2|]. split; [exact H3|].
  exact (JoinFacts.pipeline_roster_same_lineup sample_sleeper_rosters sample_player_values
           sample_user_mappings [] [mkSleeperRoster None (Some 2%Z) ["4035"]]
           (mkSleeperRoster (Some "user1") (Some 1%Z) ["421"; "999"; "4046"]) H1 H2 H3).
Defined.

End MoreInstances.
